(** * Paint visualizer: catalog resolution, generation backend and
      request orchestrator

    A shallow embedding of [database.ts], [ai-provider.ts] and the
    Stable-Diffusion version of [image-processor.ts], with the properties
    the design document states about them. *)

From Stdlib Require Import Floats ZArith String Ascii List Lia.
From stdpp Require Import gmap strings list pretty.

Set Warnings "-inexact-float".
Local Open Scope Z_scope.
Local Open Scope string_scope.
Local Open Scope list_scope.

(** ** JavaScript primitives used by the sources *)

Module JS.

  (** A JavaScript string is a sequence of code units; [string] plays that
      role, one character per code unit.  The Japanese literals of the
      sources are written as they are; no length is taken of them. *)

  (** [!!s] for [s : string | undefined]. *)
Definition truthy_string (s : option string) : bool :=
    match s with
    | Some (String _ _) => true
    | Some EmptyString | None => false
    end.

  (** [s || d] on strings. *)
Definition or_string (s : option string) (d : string) : string :=
    match s with
    | Some (String c r) => String c r
    | Some EmptyString | None => d
    end.

  (** [!!x] for a binary64 number: [0], [-0] and [NaN] are falsy. *)
Definition truthy_number (x : float) : bool :=
    negb (PrimFloat.eqb x 0%float) && negb (PrimFloat.is_nan x).

  (** [x || d] on binary64 numbers. *)
Definition or_number (x : option float) (d : float) : float :=
    match x with
    | Some v => if truthy_number v then v else d
    | None => d
    end.

  (** [n || d] on integer-valued numbers. *)
Definition or_int (n : option Z) (d : Z) : Z :=
    match n with
    | Some v => if (v =? 0)%Z then d else v
    | None => d
    end.

  (** [String.prototype.substring(a, b)] with natural arguments: the
      arguments are clamped to the length and swapped when [a > b]. *)
Definition substring (s : string) (a b : nat) : string :=
    let lo := Nat.min a b in
    let hi := Nat.max a b in
    String.substring lo (hi - lo) s.

  (** [String.prototype.startsWith(p)]. *)
Definition startsWith (s p : string) : bool := String.prefix p s.

  (** [Array.prototype.slice(start, end)]: a negative index counts from
      the end of the array, and both indices are clamped to the array. *)
Definition relative_index (len i : Z) : Z :=
    if (i <? 0)%Z then Z.max (len + i) 0 else Z.min i len.

Definition slice {A} (l : list A) (start finish : Z) : list A :=
    let len := Z.of_nat (length l) in
    let k := relative_index len start in
    let final := relative_index len finish in
    take (Z.to_nat (final - k)) (drop (Z.to_nat k) l).

  (** What a [throw] carries: an [Error] with its message, or any other
      value. *)
Inductive Thrown :=
  | ErrorObj (message : string)
  | NonError.

  (** The outcome of a call that may throw. *)
Inductive Exn (A : Type) :=
  | Ok (a : A)
  | Throw (e : Thrown).
Arguments Ok {A} a.
Arguments Throw {A} e.

(** [!!n] for an integer-valued number or [undefined]. *)
Definition truthy_int (n : option Z) : bool :=
  match n with
  | Some v => negb (v =? 0)%Z
  | None => false
  end.

(** [String.prototype.includes(sub)]: [sub] occurs at some position. *)
Fixpoint includes (s sub : string) : bool :=
  String.prefix sub s ||
  match s with
  | EmptyString => false
  | String _ rest => includes rest sub
  end.

(** [Array.prototype.join(sep)] on strings. *)
Fixpoint join (sep : string) (parts : list string) : string :=
  match parts with
  | [] => ""
  | [x] => x
  | x :: rest => x +:+ sep +:+ join sep rest
  end.

(** What the sources use of the JavaScript runtime without defining it:
    [String.prototype.toLowerCase], and, for a key that an object literal
    does not define itself, the text a template literal gives the property
    the object inherits under that key, if it inherits one. *)
Record Runtime := {
  toLowerCase : string -> string;
  inheritedText : string -> option string
}.

End JS.
Import JS.

(** ** types.ts *)

Inductive PaintManufacturer :=
| NipponPaint | KansaiPaint | SKKaken | AstecPaint | OtherManufacturer.

Inductive PaintType :=
| Silicon | Fluorine | Urethane | Acrylic | Inorganic | RadicalControl.

Record RGB := { r : Z; g : Z; b : Z }.

Record PaintColor := {
  color_name : string;
  hex : string;
  rgb : RGB;
  colorCode : option string
}.

Record Paint := {
  paint_id : string;
  productCode : string;
  paint_name : string;
  manufacturer : PaintManufacturer;
  paint_type : PaintType;
  color : PaintColor;
  pricePerSqm : option Z;
  durabilityYears : option Z;
  description : option string
}.

(** The numeric options are counts and pixel sizes: integer-valued
    numbers. *)
Record ImageProcessOptions := {
  quality : option Z;
  maxPatterns : option Z;
  maxWidth : option Z;
  maxHeight : option Z
}.

Record ImageProcessRequest := {
  request_id : string;
  originalImage : string;
  paintProductCodes : list string;
  options : option ImageProcessOptions;
  timestamp : Z
}.

Record GeneratedImage := {
  image_id : string;
  paint : Paint;
  imageData : string;
  thumbnail : option string;
  createdAt : Z
}.

Inductive Status := Pending | Processing | Completed | Failed.

Record ImageProcessResult := {
  requestId : string;
  status : Status;
  generatedImages : list GeneratedImage;
  error : option string;
  processingTimeMs : option Z
}.

#[global] Instance Status_eq_dec : EqDecision Status.
Proof. solve_decision. Defined.

#[global] Instance PaintManufacturer_eq_dec : EqDecision PaintManufacturer.
Proof. solve_decision. Defined.

#[global] Instance PaintType_eq_dec : EqDecision PaintType.
Proof. solve_decision. Defined.

Definition manufacturer_index (m : PaintManufacturer) : nat :=
  match m with
  | NipponPaint => 0%nat | KansaiPaint => 1%nat | SKKaken => 2%nat
  | AstecPaint => 3%nat | OtherManufacturer => 4%nat
  end.

Definition manufacturer_at (n : nat) : PaintManufacturer :=
  match n with
  | 0%nat => NipponPaint | 1%nat => KansaiPaint | 2%nat => SKKaken
  | 3%nat => AstecPaint | _ => OtherManufacturer
  end.

#[global] Instance PaintManufacturer_countable : Countable PaintManufacturer.
Proof.
  apply (inj_countable' manufacturer_index manufacturer_at).
  intros []; reflexivity.
Defined.

Definition type_index (t : PaintType) : nat :=
  match t with
  | Silicon => 0%nat | Fluorine => 1%nat | Urethane => 2%nat
  | Acrylic => 3%nat | Inorganic => 4%nat | RadicalControl => 5%nat
  end.

Definition type_at (n : nat) : PaintType :=
  match n with
  | 0%nat => Silicon | 1%nat => Fluorine | 2%nat => Urethane
  | 3%nat => Acrylic | 4%nat => Inorganic | _ => RadicalControl
  end.

#[global] Instance PaintType_countable : Countable PaintType.
Proof.
  apply (inj_countable' type_index type_at).
  intros []; reflexivity.
Defined.

(** [priceRange?: { min?: number; max?: number }]. *)
Record PriceRange := { range_min : option Z; range_max : option Z }.

Record PaintSearchCriteria := {
  by_manufacturer : option PaintManufacturer;
  by_type : option PaintType;
  by_colorName : option string;
  by_productCode : option string;
  priceRange : option PriceRange
}.

(** [Partial<Paint>]: for each key, absent or present with its value. *)
Record PartialPaint := {
  new_id : option string;
  new_productCode : option string;
  new_name : option string;
  new_manufacturer : option PaintManufacturer;
  new_type : option PaintType;
  new_color : option PaintColor;
  new_pricePerSqm : option (option Z);
  new_durabilityYears : option (option Z);
  new_description : option (option string)
}.

(** Modelled from the spec: the declaration of [AIProcessingConfig] is not
    among the sources; its fields are the ones [ai-provider.ts] and the
    README read, the generation parameters being the "numeric generation
    parameters (inference steps, guidance scale, image-retention
    strength)" of the design document. *)
Record AIProcessingConfig := {
  provider : string;
  apiKey : option string;
  modelName : option string;
  steps : option float;
  guidanceScale : option float;
  strength : option float
}.

(** ** database.ts *)

Module PaintDatabase.

  (** [private paints: Map<string, Paint>]. *)
Record t := { paints : gmap string Paint }.

Definition samplePaints : list Paint :=
    [ {| paint_id := "np-001"; productCode := "ND-050";
         paint_name := "ファインシリコンフレッシュ";
         manufacturer := NipponPaint; paint_type := Silicon;
         color := {| color_name := "クリームホワイト"; hex := "#F5F5DC";
                     rgb := {| r := 245; g := 245; b := 220 |};
                     colorCode := Some "ND-050" |};
         pricePerSqm := Some 2800; durabilityYears := Some 12;
         description := Some "耐候性に優れたシリコン樹脂塗料" |};
      {| paint_id := "np-002"; productCode := "ND-101";
         paint_name := "パーフェクトトップ";
         manufacturer := NipponPaint; paint_type := RadicalControl;
         color := {| color_name := "ピュアホワイト"; hex := "#FFFFFF";
                     rgb := {| r := 255; g := 255; b := 255 |};
                     colorCode := Some "ND-101" |};
         pricePerSqm := Some 3200; durabilityYears := Some 15;
         description := Some "ラジカル制御型高耐久塗料" |};
      {| paint_id := "kp-001"; productCode := "KP-200";
         paint_name := "アレスダイナミックTOP";
         manufacturer := KansaiPaint; paint_type := Fluorine;
         color := {| color_name := "アイボリー"; hex := "#FFFFF0";
                     rgb := {| r := 255; g := 255; b := 240 |};
                     colorCode := Some "KP-200" |};
         pricePerSqm := Some 4500; durabilityYears := Some 18;
         description := Some "超高耐久フッ素樹脂塗料" |};
      {| paint_id := "kp-002"; productCode := "KP-150";
         paint_name := "セラMシリコンIII";
         manufacturer := KansaiPaint; paint_type := Silicon;
         color := {| color_name := "ベージュ"; hex := "#F5F5DC";
                     rgb := {| r := 245; g := 245; b := 220 |};
                     colorCode := Some "KP-150" |};
         pricePerSqm := Some 2900; durabilityYears := Some 13;
         description := Some "高性能シリコン樹脂塗料" |};
      {| paint_id := "sk-001"; productCode := "SK-300";
         paint_name := "エスケープレミアムシリコン";
         manufacturer := SKKaken; paint_type := Silicon;
         color := {| color_name := "ライトグレー"; hex := "#D3D3D3";
                     rgb := {| r := 211; g := 211; b := 211 |};
                     colorCode := Some "SK-300" |};
         pricePerSqm := Some 3000; durabilityYears := Some 14;
         description := Some "プレミアムシリコン塗料" |} ].

Definition addPaint (p : Paint) (db : t) : t :=
    {| paints := <[productCode p := p]> (paints db) |}.

Definition deletePaint (code : string) (db : t) : bool * t :=
    (bool_decide (is_Some (paints db !! code)),
     {| paints := delete code (paints db) |}).

  (** [samplePaints.forEach((paint) => this.paints.set(...))]. *)
Definition initializeSampleData (db : t) : t :=
    foldl (fun acc p => {| paints := <[productCode p := p]> (paints acc) |})
          db samplePaints.

  (** [new PaintDatabase()]. *)
Definition create : t := initializeSampleData {| paints := ∅ |}.

Definition getPaintByProductCode (db : t) (code : string) : option Paint :=
    paints db !! code.

  (** [.filter((paint): paint is Paint => paint !== undefined)]. *)
Fixpoint filterDefined {A} (l : list (option A)) : list A :=
    match l with
    | [] => []
    | Some a :: rest => a :: filterDefined rest
    | None :: rest => filterDefined rest
    end.

Definition getPaintsByProductCodes (db : t) (productCodes : list string)
    : list Paint :=
    filterDefined (map (fun code => getPaintByProductCode db code) productCodes).

(** [Array.from(this.paints.values())].  The Map's insertion order is not
    kept by the model: the list holds the same paints in some order. *)
Definition getAllPaints (db : t) : list Paint :=
  (map_to_list (paints db)).*2.

Definition getPaintsByManufacturer (db : t) (m : PaintManufacturer)
  : list Paint :=
  List.filter (fun p => bool_decide (manufacturer p = m)) (getAllPaints db).

(** [paint.pricePerSqm && paint.pricePerSqm >= min]. *)
Definition priceAtLeast (lo : Z) (p : Paint) : bool :=
  truthy_int (pricePerSqm p) &&
  match pricePerSqm p with Some v => (lo <=? v)%Z | None => false end.

(** [paint.pricePerSqm && paint.pricePerSqm <= max]. *)
Definition priceAtMost (hi : Z) (p : Paint) : bool :=
  truthy_int (pricePerSqm p) &&
  match pricePerSqm p with Some v => (v <=? hi)%Z | None => false end.

(** [searchPaints]; [toLowerCase] is [String.prototype.toLowerCase]. *)
Definition searchPaints (toLowerCase : string -> string)
    (criteria : PaintSearchCriteria) (db : t) : list Paint :=
  let results := getAllPaints db in
  let results :=
    match by_manufacturer criteria with
    | Some m => List.filter (fun p => bool_decide (manufacturer p = m)) results
    | None => results
    end in
  let results :=
    match by_type criteria with
    | Some ty => List.filter (fun p => bool_decide (paint_type p = ty)) results
    | None => results
    end in
  let results :=
    match by_colorName criteria with
    | Some (String c rest) =>
      let colorNameLower := toLowerCase (String c rest) in
      List.filter
        (fun p => includes (toLowerCase (color_name (color p))) colorNameLower)
        results
    | Some EmptyString | None => results
    end in
  let results :=
    match by_productCode criteria with
    | Some (String c rest) =>
      List.filter (fun p => includes (productCode p) (String c rest)) results
    | Some EmptyString | None => results
    end in
  let results :=
    match priceRange criteria with
    | Some range =>
      let results :=
        match range_min range with
        | Some lo => List.filter (priceAtLeast lo) results
        | None => results
        end in
      match range_max range with
      | Some hi => List.filter (priceAtMost hi) results
      | None => results
      end
    | None => results
    end in
  results.

(** [{ ...existing, ...paint }]. *)
Definition spread (existing : Paint) (paint0 : PartialPaint) : Paint :=
  {| paint_id := default (paint_id existing) (new_id paint0);
     productCode := default (productCode existing) (new_productCode paint0);
     paint_name := default (paint_name existing) (new_name paint0);
     manufacturer := default (manufacturer existing) (new_manufacturer paint0);
     paint_type := default (paint_type existing) (new_type paint0);
     color := default (color existing) (new_color paint0);
     pricePerSqm := default (pricePerSqm existing) (new_pricePerSqm paint0);
     durabilityYears :=
       default (durabilityYears existing) (new_durabilityYears paint0);
     description := default (description existing) (new_description paint0) |}.

Definition updatePaint (code : string) (paint0 : PartialPaint) (db : t)
  : bool * t :=
  match paints db !! code with
  | None => (false, db)
  | Some existing =>
    (true, {| paints := <[code := spread existing paint0]> (paints db) |})
  end.

(** [x[key] = (x[key] || 0) + 1]. *)
Definition bump `{Countable K} (key : K) (counts : gmap K nat) : gmap K nat :=
  <[key := (default 0 (counts !! key) + 1)%nat]> counts.

Record Statistics := {
  totalPaints : nat;
  byManufacturer : gmap PaintManufacturer nat;
  byType : gmap PaintType nat
}.

Definition getStatistics (db : t) : Statistics :=
  let all := getAllPaints db in
  let counts :=
    foldl (fun acc p => (bump (manufacturer p) (fst acc),
                         bump (paint_type p) (snd acc)))
          (∅, ∅) all in
  {| totalPaints := length all;
     byManufacturer := fst counts;
     byType := snd counts |}.

(** [let databaseInstance: PaintDatabase | null] and [getPaintDatabase]. *)
Definition getPaintDatabase (databaseInstance : option t) : t * option t :=
  match databaseInstance with
  | Some db => (db, Some db)
  | None => (create, Some create)
  end.

End PaintDatabase.

(** ** ai-provider.ts *)

Module AIProvider.

(** The body of the submit request, before [JSON.stringify]. *)
Record PredictionInput := {
  image : string;
  prompt : string;
  negative_prompt : string;
  num_outputs : Z;
  num_inference_steps : float;
  guidance_scale : float;
  prompt_strength : float;
  scheduler : string
}.

Record SubmitRequest := {
  url : string;
  method : string;
  contentType : string;
  authorization : string;
  version : string;
  input : PredictionInput
}.

(** What [response.json()] is cast to after the submit and after a poll. *)
Record Submitted := { prediction_id : string; submitted_status : string }.

Record Prediction := {
  prediction_status : string;
  output : option (list string);
  prediction_error : option string
}.

(** The outcome of [await fetch(...)] followed by [await response.json()]:
    the fetch promise rejects, or a response arrives whose body parses or
    fails to parse. *)
Inductive Fetched (A : Type) :=
| Rejected (e : Thrown)
| Response (ok : bool) (statusText : string) (json : Exn A).
Arguments Rejected {A} e.
Arguments Response {A} ok statusText json.

(** The remote service as one job sees it: the reply to the POST, and the
    reply to the [attempt]-th GET on a prediction URL. *)
Record Network := {
  post : SubmitRequest -> Fetched Submitted;
  get : string -> string -> nat -> Fetched Prediction
}.

(** What a provider does to the outside world, in order. *)
Inductive Event :=
| EvPost (req : SubmitRequest)
| EvGet (target : string) (attempt : nat)
| EvSleep (ms : Z).

(** A provider call: the events it performed and its outcome. *)
Definition Eff (A : Type) : Type := list Event * Exn A.

Definition API_URL : string := "https://api.replicate.com/v1/predictions".

Definition DEFAULT_MODEL : string :=
  "stability-ai/stable-diffusion:db21e45d3f7023abc2a46ee38a23973f6dce16bb082a930b0c49861f96d1e5bf".

Definition maxAttempts : nat := 60.
Definition pollInterval : Z := 5000.

(** [`${x}`] for [x : string | undefined]. *)
Definition interpolate (x : option string) : string :=
  match x with Some s => s | None => "undefined" end.

Definition token (config : AIProcessingConfig) : string :=
  "Token " +:+ interpolate (apiKey config).

(** The body of the polling loop for one fetched prediction: [inl] is the
    loop's exit by [return] or [throw], [inr] falls through to the wait. *)
Definition inspect (prediction : Prediction) : Exn string + unit :=
  if String.eqb (prediction_status prediction) "succeeded" then
    match output prediction with
    | Some (first :: _) => inl (Ok first)
    | Some [] | None => inl (Throw (ErrorObj "No output image generated"))
    end
  else if String.eqb (prediction_status prediction) "failed" then
    inl (Throw (ErrorObj ("Image generation failed: " +:+
                          or_string (prediction_error prediction) "Unknown error")))
  else inr tt.

(** [for (let attempt = 0; attempt < maxAttempts; attempt++)], by recursion
    on the number of attempts that remain. *)
Fixpoint pollLoop (net : Network) (config : AIProcessingConfig)
    (predictionId : string) (remaining attempt : nat) : Eff string :=
  match remaining with
  | O => ([], Throw (ErrorObj "Image generation timeout"))
  | S remaining' =>
    let target := API_URL +:+ "/" +:+ predictionId in
    match get net target (token config) attempt with
    | Rejected e => ([EvGet target attempt], Throw e)
    | Response _ _ (Throw e) => ([EvGet target attempt], Throw e)
    | Response _ _ (Ok prediction) =>
      match inspect prediction with
      | inl outcome => ([EvGet target attempt], outcome)
      | inr _ =>
        let '(events, outcome) :=
          pollLoop net config predictionId remaining' (S attempt) in
        (EvGet target attempt :: EvSleep pollInterval :: events, outcome)
      end
    end
  end.

Definition waitForCompletion (net : Network) (config : AIProcessingConfig)
    (predictionId : string) : Eff string :=
  pollLoop net config predictionId maxAttempts 0.

Definition generateNegativePrompt : string :=
  "blurry, low quality, distorted, deformed, ugly, bad anatomy, watermark, text".

(** The argument of [fetch(this.API_URL, { method: 'POST', ... })]. *)
Definition submitRequest (config : AIProcessingConfig)
    (originalImage prompt : string) : SubmitRequest :=
  let model := or_string (modelName config) DEFAULT_MODEL in
  {| url := API_URL;
     method := "POST";
     contentType := "application/json";
     authorization := token config;
     version := model;
     input := {| image := originalImage;
                 prompt := prompt;
                 negative_prompt := generateNegativePrompt;
                 num_outputs := 1;
                 num_inference_steps := or_number (steps config) 50%float;
                 guidance_scale := or_number (guidanceScale config) 7.5%float;
                 prompt_strength := or_number (strength config) 0.8%float;
                 scheduler := "DPMSolverMultistep" |} |}.

(** [abstract class AIImageProvider]: the two methods every provider
    implements. *)
Record AIImageProvider := {
  generateImage : Network -> string -> Paint -> string -> Eff string;
  isReady : bool
}.

Definition Replicate_generateImage (config : AIProcessingConfig)
    (net : Network) (originalImage : string) (paint : Paint) (prompt : string)
  : Eff string :=
  if negb (truthy_string (apiKey config)) then
    ([], Throw (ErrorObj "Replicate API key is required"))
  else
    let req := submitRequest config originalImage prompt in
    match post net req with
    | Rejected e => ([EvPost req], Throw e)
    | Response ok statusText json =>
      if negb ok then
        ([EvPost req], Throw (ErrorObj ("Replicate API error: " +:+ statusText)))
      else
        match json with
        | Throw e => ([EvPost req], Throw e)
        | Ok prediction =>
          let '(events, outcome) :=
            waitForCompletion net config (prediction_id prediction) in
          (EvPost req :: events, outcome)
        end
    end.

Definition ReplicateProvider (config : AIProcessingConfig) : AIImageProvider :=
  {| generateImage := Replicate_generateImage config;
     isReady := truthy_string (apiKey config) |}.

Definition StabilityAI_generateImage (config : AIProcessingConfig)
    (_ : Network) (_originalImage : string) (_paint : Paint) (_prompt : string)
  : Eff string :=
  if negb (truthy_string (apiKey config)) then
    ([], Throw (ErrorObj "Stability AI API key is required"))
  else ([], Throw (ErrorObj "Stability AI provider not implemented yet")).

Definition StabilityAIProvider (config : AIProcessingConfig) : AIImageProvider :=
  {| generateImage := StabilityAI_generateImage config;
     isReady := truthy_string (apiKey config) |}.

Definition Local_generateImage (_ : Network) (_originalImage : string)
    (_paint : Paint) (_prompt : string) : Eff string :=
  ([], Throw (ErrorObj "Local provider not implemented yet")).

Definition LocalProvider (config : AIProcessingConfig) : AIImageProvider :=
  {| generateImage := Local_generateImage; isReady := false |}.

Definition createAIProvider (config : AIProcessingConfig) : Exn AIImageProvider :=
  if String.eqb (provider config) "replicate" then Ok (ReplicateProvider config)
  else if String.eqb (provider config) "stability-ai" then
    Ok (StabilityAIProvider config)
  else if String.eqb (provider config) "local" then Ok (LocalProvider config)
  else Throw (ErrorObj ("Unsupported AI provider: " +:+ provider config)).

End AIProvider.

(** ** prompt-generator.ts *)

Module PromptGenerator.

(** The declaration of [PromptGenerationConfig] is not among the sources;
    its fields are the four the constructor reads. *)
Record PromptGenerationConfig := {
  basePrompt : option string;
  negativePrompt : option string;
  includeColorDescription : option bool;
  includePaintTypeDescription : option bool
}.

(** The empty object literal. *)
Definition noConfig : PromptGenerationConfig :=
  {| basePrompt := None; negativePrompt := None;
     includeColorDescription := None; includePaintTypeDescription := None |}.

(** [private config: PromptGenerationConfig]. *)
Record t := { config : PromptGenerationConfig }.

Definition defaultNegativePrompt : string :=
  "blurry, low quality, distorted, deformed, ugly, bad anatomy, watermark, text".

(** [x !== false] for [x : boolean | undefined]. *)
Definition notFalse (x : option bool) : bool :=
  match x with
  | Some false => false
  | Some true | None => true
  end.

(** [constructor(config: PromptGenerationConfig = {})]. *)
Definition new (config0 : PromptGenerationConfig) : t :=
  {| config :=
       {| basePrompt := Some (or_string (basePrompt config0) "a house exterior");
          negativePrompt :=
            Some (or_string (negativePrompt config0) defaultNegativePrompt);
          includeColorDescription :=
            Some (notFalse (includeColorDescription config0));
          includePaintTypeDescription :=
            Some (notFalse (includePaintTypeDescription config0)) |} |}.

(** The object literal [colorDescriptions], by its own keys. *)
Definition colorDescriptions (colorName : string) : option string :=
  if String.eqb colorName "クリームホワイト" then Some "cream white"
  else if String.eqb colorName "ピュアホワイト" then Some "pure white"
  else if String.eqb colorName "アイボリー" then Some "ivory"
  else if String.eqb colorName "ベージュ" then Some "beige"
  else if String.eqb colorName "ライトグレー" then Some "light gray"
  else None.

(** [colorDescriptions[colorName] || colorName.toLowerCase()]. *)
Definition englishColor (rt : Runtime) (colorName : string) : string :=
  match colorDescriptions colorName with
  | Some (String c rest) => String c rest
  | Some EmptyString | None =>
    match inheritedText rt colorName with
    | Some text => text
    | None => toLowerCase rt colorName
    end
  end.

Definition generateColorDescription (rt : Runtime) (paint0 : Paint) : string :=
  let colorName := color_name (color paint0) in
  let hex0 := hex (color paint0) in
  "painted in " +:+ englishColor rt colorName +:+ " (" +:+ hex0 +:+ ")".

(** The object literal [typeDescriptions]. *)
Definition typeDescriptions (ty : PaintType) : option string :=
  match ty with
  | Silicon => Some "silicon resin paint finish"
  | Fluorine => Some "fluorine resin paint finish"
  | Urethane => Some "urethane paint finish"
  | Acrylic => Some "acrylic paint finish"
  | Inorganic => Some "inorganic paint finish"
  | RadicalControl => Some "radical control paint finish"
  end.

Definition generatePaintTypeDescription (paint0 : Paint) : string :=
  or_string (typeDescriptions (paint_type paint0)) "high-quality paint finish".

Definition generateQualityDescription (_paint : Paint) : string :=
  join ", " [ "professional quality"; "smooth and even coating";
              "realistic texture"; "natural lighting"; "photorealistic";
              "high detail"; "8k resolution" ].

(** [if (flag) { parts.push(x) }] for [flag : boolean | undefined]. *)
Definition pushIf (flag : option bool) (x : string) (parts : list string)
  : list string :=
  match flag with
  | Some true => parts ++ [x]
  | Some false | None => parts
  end.

Definition generatePrompt (rt : Runtime) (g : t) (paint0 : Paint) : string :=
  let parts := [] in
  let parts :=
    match basePrompt (config g) with
    | Some (String c rest) => parts ++ [String c rest]
    | Some EmptyString | None => parts
    end in
  let parts :=
    pushIf (includeColorDescription (config g))
           (generateColorDescription rt paint0) parts in
  let parts :=
    pushIf (includePaintTypeDescription (config g))
           (generatePaintTypeDescription paint0) parts in
  let parts := parts ++ [generateQualityDescription paint0] in
  join ", " parts.

Definition getNegativePrompt (g : t) : string :=
  or_string (negativePrompt (config g)) "".

Definition customizePrompt (rt : Runtime) (g : t) (paint0 : Paint)
    (additions : list string) : string :=
  let basePrompt0 := generatePrompt rt g paint0 in
  join ", " (basePrompt0 :: additions).

(** [let defaultGenerator: PromptGenerator | null] and
    [getPromptGenerator(config?)]: a config, when given, replaces the
    generator. *)
Definition getPromptGenerator (config0 : option PromptGenerationConfig)
    (defaultGenerator : option t) : t * option t :=
  match defaultGenerator, config0 with
  | Some g, None => (g, Some g)
  | _, Some c => (new c, Some (new c))
  | None, None => (new noConfig, Some (new noConfig))
  end.

(** The exported [generatePrompt(paint, config?)]. *)
Definition generatePromptWith (rt : Runtime) (paint0 : Paint)
    (config0 : option PromptGenerationConfig) (defaultGenerator : option t)
  : string * option t :=
  let '(generator, defaultGenerator') :=
    getPromptGenerator config0 defaultGenerator in
  (generatePrompt rt generator paint0, defaultGenerator').

End PromptGenerator.

(** ** image-processor.ts *)

Module ImageProcessor.

(** A result is an object: the store and the running call share it, so it
    lives in a heap of objects and both hold its address. *)
Abbreviation loc := nat.

(** The fields of the class. *)
Record t := {
  processingQueue : gmap string ImageProcessRequest;
  results : gmap string loc;
  aiConfig : option AIProcessingConfig
}.

Record World := { this : t; heap : list ImageProcessResult }.

(** [new ImageProcessor()]. *)
Definition create : World :=
  {| this := {| processingQueue := ∅; results := ∅; aiConfig := None |};
     heap := [] |}.

(** What one job reads from outside the program: the clock and the random
    text of [generateImageId], the clock of [createdAt], and the remote
    service. *)
Record JobEnv := {
  imageStamp : Z;
  imageRandom : string;
  created : Z;
  network : AIProvider.Network
}.

(** What one call of [processImage] reads from outside the program: clocks,
    random text, one [JobEnv] per job, and [generatePrompt] of the prompt
    module with the generator in force. *)
Record Env := {
  requestStamp : Z;
  requestRandom : string;
  submitted : Z;
  startTime : Z;
  endTime : Z;
  job : nat -> JobEnv;
  generatePrompt : Paint -> string
}.

(** *** State and exceptions *)

Definition M (A : Type) : Type := World -> Exn A * World.

Definition ret {A} (a : A) : M A := fun w => (Ok a, w).

Definition bind {A B} (c : M A) (k : A -> M B) : M B :=
  fun w =>
    match c w with
    | (Ok a, w') => k a w'
    | (Throw e, w') => (Throw e, w')
    end.

Definition throw {A} (e : Thrown) : M A := fun w => (Throw e, w).

(** [try { body } catch (error) { handler }]. *)
Definition tryCatch {A} (body : M A) (handler : Thrown -> M A) : M A :=
  fun w =>
    match body w with
    | (Ok a, w') => (Ok a, w')
    | (Throw e, w') => handler e w'
    end.

Definition read {A} (f : World -> A) : M A := fun w => (Ok (f w), w).

Definition write (f : World -> World) : M unit := fun w => (Ok tt, f w).

(** A call that touches no state of the processor. *)
Definition fromExn {A} (outcome : Exn A) : M A := fun w => (outcome, w).

(** A provider call, its events dropped. *)
Definition lift {A} (c : AIProvider.Eff A) : M A := fromExn (snd c).

Notation "'let*' x ':=' c 'in' k" := (bind c (fun x => k))
  (at level 10, x pattern, c at level 100, k at level 200, only parsing).

(** *** Objects and fields *)

Definition new (r : ImageProcessResult) : M loc :=
  fun w => (Ok (length (heap w)),
            {| this := this w; heap := heap w ++ [r] |}).

Definition mutate (result : loc)
    (f : ImageProcessResult -> ImageProcessResult) : M unit :=
  write (fun w => {| this := this w; heap := alter f result (heap w) |}).

Definition set_status (s : Status) (res : ImageProcessResult) :=
  {| requestId := requestId res; status := s;
     generatedImages := generatedImages res; error := error res;
     processingTimeMs := processingTimeMs res |}.

Definition set_error (e : string) (res : ImageProcessResult) :=
  {| requestId := requestId res; status := status res;
     generatedImages := generatedImages res; error := Some e;
     processingTimeMs := processingTimeMs res |}.

Definition set_generatedImages (l : list GeneratedImage)
    (res : ImageProcessResult) :=
  {| requestId := requestId res; status := status res;
     generatedImages := l; error := error res;
     processingTimeMs := processingTimeMs res |}.

Definition set_processingTimeMs (ms : Z) (res : ImageProcessResult) :=
  {| requestId := requestId res; status := status res;
     generatedImages := generatedImages res; error := error res;
     processingTimeMs := Some ms |}.

Definition set_this (f : t -> t) : M unit :=
  write (fun w => {| this := f (this w); heap := heap w |}).

(** *** The methods *)

(** [Math.random().toString(36).substring(2, 9)], on the base-36 text. *)
Definition randomSuffix (base36 : string) : string := JS.substring base36 2 9.

Definition generateRequestId (env : Env) : string :=
  "req_" +:+ pretty (requestStamp env) +:+ "_" +:+
  randomSuffix (requestRandom env).

Definition generateImageId (jenv : JobEnv) : string :=
  "img_" +:+ pretty (imageStamp jenv) +:+ "_" +:+
  randomSuffix (imageRandom jenv).

Definition mockImageProcessing (originalImage : string) (paint : Paint)
  : string :=
  "mock_processed_" +:+ productCode paint +:+ "_" +:+
  JS.substring originalImage 0 20.

Definition generateThumbnail (imageData : string) : string :=
  if JS.startsWith imageData "http" then imageData
  else "thumbnail_" +:+ JS.substring imageData 0 50.

Definition setAIConfig (config : AIProcessingConfig) : M unit :=
  set_this (fun p => {| processingQueue := processingQueue p;
                        results := results p; aiConfig := Some config |}).

Definition processWithAI (env : Env) (jenv : JobEnv)
    (originalImage : string) (paint : Paint) : M string :=
  let* config := read (fun w => aiConfig (this w)) in
  match config with
  | None => throw (ErrorObj "AI config not set")
  | Some config =>
    let* provider := fromExn (AIProvider.createAIProvider config) in
    if negb (AIProvider.isReady provider) then
      throw (ErrorObj "AI provider is not ready")
    else
      let prompt := generatePrompt env paint in
      let* generatedImageUrl :=
        lift (AIProvider.generateImage provider (network jenv)
                originalImage paint prompt) in
      ret generatedImageUrl
  end.

(** [this.aiConfig && this.aiConfig.apiKey]. *)
Definition configured (config : option AIProcessingConfig) : bool :=
  match config with
  | Some c => truthy_string (apiKey c)
  | None => false
  end.

Definition generatePaintedImage (env : Env) (jenv : JobEnv)
    (originalImage : string) (paint : Paint)
    (_options : option ImageProcessOptions) : M GeneratedImage :=
  let* config := read (fun w => aiConfig (this w)) in
  let* processedImage :=
    if configured config then
      tryCatch (processWithAI env jenv originalImage paint)
               (fun _ => ret (mockImageProcessing originalImage paint))
    else ret (mockImageProcessing originalImage paint) in
  ret {| image_id := generateImageId jenv;
         paint := paint;
         imageData := processedImage;
         thumbnail := Some (generateThumbnail processedImage);
         createdAt := created jenv |}.

(** [for (const paint of paintsToProcess) { ... generatedImages.push(...) }];
    [i] numbers the jobs of the call. *)
Fixpoint generateEach (env : Env) (originalImage : string)
    (opts : option ImageProcessOptions) (i : nat)
    (paintsToProcess : list Paint) (generatedImages : list GeneratedImage)
  : M (list GeneratedImage) :=
  match paintsToProcess with
  | [] => ret generatedImages
  | paint :: rest =>
    let* generatedImage :=
      generatePaintedImage env (job env i) originalImage paint opts in
    generateEach env originalImage opts (S i) rest
                 (generatedImages ++ [generatedImage])
  end.

(** [request.options?.maxPatterns]. *)
Definition options_maxPatterns (request : ImageProcessRequest) : option Z :=
  match options request with
  | Some o => maxPatterns o
  | None => None
  end.

Definition noPaintFound : string := "指定された品番の塗料が見つかりません".

Definition executeImageProcessing (env : Env) (database : PaintDatabase.t)
    (request : ImageProcessRequest) (result : loc) : M unit :=
  let paints :=
    PaintDatabase.getPaintsByProductCodes database (paintProductCodes request) in
  if Nat.eqb (length paints) 0 then throw (ErrorObj noPaintFound)
  else
    let maxPatterns :=
      or_int (options_maxPatterns request) (Z.of_nat (length paints)) in
    let paintsToProcess := slice paints 0 maxPatterns in
    let* generatedImages :=
      generateEach env (originalImage request) (options request) 0
                   paintsToProcess [] in
    let* _ := mutate result (set_generatedImages generatedImages) in
    mutate result (set_processingTimeMs (endTime env - startTime env)).

(** The first statements of [processImage], up to [this.results.set]. *)
Definition register (env : Env) (originalImage : string)
    (paintProductCodes : list string) (options : option ImageProcessOptions)
  : M (ImageProcessRequest * loc) :=
  let request :=
    {| request_id := generateRequestId env;
       originalImage := originalImage;
       paintProductCodes := paintProductCodes;
       options := options;
       timestamp := submitted env |} in
  let* _ := set_this (fun p =>
    {| processingQueue := <[request_id request := request]> (processingQueue p);
       results := results p; aiConfig := aiConfig p |}) in
  let* result := new {| requestId := request_id request;
                        status := Processing;
                        generatedImages := [];
                        error := None;
                        processingTimeMs := None |} in
  let* _ := set_this (fun p =>
    {| processingQueue := processingQueue p;
       results := <[request_id request := result]> (results p);
       aiConfig := aiConfig p |}) in
  ret (request, result).

(** [error instanceof Error ? error.message : 'Unknown error']. *)
Definition errorMessage (e : Thrown) : string :=
  match e with
  | ErrorObj message => message
  | NonError => "Unknown error"
  end.

(** The [catch] block of [processImage]. *)
Definition fail (result : loc) (e : Thrown) : M unit :=
  let* _ := mutate result (set_status Failed) in
  mutate result (set_error (errorMessage e)).

Definition processImage (env : Env) (database : PaintDatabase.t)
    (originalImage : string) (paintProductCodes : list string)
    (options : option ImageProcessOptions) : M loc :=
  let* (request, result) :=
    register env originalImage paintProductCodes options in
  let* _ :=
    tryCatch
      (let* _ := executeImageProcessing env database request result in
       mutate result (set_status Completed))
      (fail result) in
  ret result.

Definition processBatch := processImage.

Definition getResult (requestId : string) : M (option loc) :=
  read (fun w => results (this w) !! requestId).

Inductive StatusOrNotFound := Found (s : Status) | not_found.

Definition getStatus (requestId : string) : M StatusOrNotFound :=
  read (fun w =>
    match results (this w) !! requestId with
    | Some result =>
      match heap w !! result with
      | Some res => Found (status res)
      | None => not_found
      end
    | None => not_found
    end).

Definition clearCache : M unit :=
  set_this (fun p => {| processingQueue := ∅; results := ∅;
                        aiConfig := aiConfig p |}).

Record Statistics := {
  totalRequests : nat;
  completedRequests : nat;
  failedRequests : nat;
  processingRequests : nat
}.

(** [r.status === s] for a stored reference [r]. *)
Definition hasStatus (w : World) (s : Status) (result : loc) : Prop :=
  status <$> heap w !! result = Some s.

#[global] Instance hasStatus_dec w s result : Decision (hasStatus w s result).
Proof. unfold hasStatus. apply _. Defined.

Definition getStatistics : M Statistics :=
  read (fun w =>
    let results := (map_to_list (results (this w))).*2 in
    {| totalRequests := length results;
       completedRequests := length (filter (hasStatus w Completed) results);
       failedRequests := length (filter (hasStatus w Failed) results);
       processingRequests := length (filter (hasStatus w Processing) results) |}).

(** The object a reference points to, as the caller reads it. *)
Definition deref (w : World) (result : loc) : option ImageProcessResult :=
  heap w !! result.

(** [resizeImage] and [optimizeQuality]: not implemented, the image is
    returned as it is. *)
Definition resizeImage (imageData : string) (_maxWidth _maxHeight : option Z)
  : string := imageData.

Definition optimizeQuality (imageData : string) (_quality : option Z)
  : string := imageData.

(** [let processorInstance: ImageProcessor | null] and
    [getImageProcessor]. *)
Definition getImageProcessor (processorInstance : option t) : t * option t :=
  match processorInstance with
  | Some p => (p, Some p)
  | None => (this create, Some (this create))
  end.

(** The module-level state of the program: the two singletons and the
    result objects. *)
Record Program := {
  processorInstance : option t;
  databaseInstance : option PaintDatabase.t;
  allocated : list ImageProcessResult
}.

Definition fresh : Program :=
  {| processorInstance := None; databaseInstance := None; allocated := [] |}.

(** [processHouseImage]: the processor singleton handles the call, and
    [executeImageProcessing] reads the database singleton. *)
Definition processHouseImage (env : Env) (originalImage : string)
    (paintProductCodes : list string) (options : option ImageProcessOptions)
    (g : Program) : Exn loc * Program :=
  let '(processor, _) := getImageProcessor (processorInstance g) in
  let '(database, databaseInstance') :=
    PaintDatabase.getPaintDatabase (databaseInstance g) in
  let '(outcome, w') :=
    processImage env database originalImage paintProductCodes options
      {| this := processor; heap := allocated g |} in
  (outcome, {| processorInstance := Some (this w');
               databaseInstance := databaseInstance';
               allocated := heap w' |}).

End ImageProcessor.

(** ** The processor in use: calls that overlap

    [processImage] is [async]: it registers its result, suspends while
    [executeImageProcessing] runs, and is resumed to record the final
    status.  Other calls on the same instance run between these points,
    and only there: the statements between two suspension points run to
    completion, so the two assignments of the [catch] block are one
    step. *)

Module Session.
Import ImageProcessor.

(** Where a suspended call of [processImage] stands: inside
    [executeImageProcessing], or resumed with its outcome at hand. *)
Inductive Phase :=
| Running
| Returned
| Threw (e : Thrown).

(** A call of [processImage] in flight: its local variables [request] and
    [result], and what it reads from outside. *)
Record Task := {
  task_env : Env;
  task_database : PaintDatabase.t;
  task_request : ImageProcessRequest;
  task_result : loc;
  task_phase : Phase
}.

Record System := { world : World; inflight : list Task }.

Definition initial : System := {| world := create; inflight := [] |}.

(** What happens next on the instance. *)
Inductive Action :=
| CallProcessImage (env : Env) (database : PaintDatabase.t)
    (originalImage : string) (paintProductCodes : list string)
    (options : option ImageProcessOptions)
| Execute (i : nat)
| Settle (i : nat)
| CallSetAIConfig (config : AIProcessingConfig)
| CallClearCache
| CallGetResult (requestId : string)
| CallGetStatus (requestId : string)
| CallGetStatistics.

Definition with_phase (p : Phase) (task : Task) : Task :=
  {| task_env := task_env task; task_database := task_database task;
     task_request := task_request task; task_result := task_result task;
     task_phase := p |}.

Definition perform (a : Action) (s : System) : option System :=
  match a with
  | CallProcessImage env database originalImage codes opts =>
    match register env originalImage codes opts (world s) with
    | (Ok (request, result), w') =>
      Some {| world := w';
              inflight := inflight s ++
                [ {| task_env := env; task_database := database;
                     task_request := request; task_result := result;
                     task_phase := Running |} ] |}
    | (Throw _, _) => None
    end
  | Execute i =>
    match inflight s !! i with
    | Some task =>
      match task_phase task with
      | Running =>
        let '(outcome, w') :=
          executeImageProcessing (task_env task) (task_database task)
            (task_request task) (task_result task) (world s) in
        let p := match outcome with Ok _ => Returned | Throw e => Threw e end in
        Some {| world := w'; inflight := <[i := with_phase p task]> (inflight s) |}
      | _ => None
      end
    | None => None
    end
  | Settle i =>
    match inflight s !! i with
    | Some task =>
      match task_phase task with
      | Running => None
      | Returned =>
        Some {| world := snd (mutate (task_result task) (set_status Completed)
                                (world s));
                inflight := delete i (inflight s) |}
      | Threw e =>
        Some {| world := snd (fail (task_result task) e (world s));
                inflight := delete i (inflight s) |}
      end
    | None => None
    end
  | CallSetAIConfig config =>
    Some {| world := snd (setAIConfig config (world s)); inflight := inflight s |}
  | CallClearCache =>
    Some {| world := snd (clearCache (world s)); inflight := inflight s |}
  | CallGetResult requestId =>
    Some {| world := snd (getResult requestId (world s)); inflight := inflight s |}
  | CallGetStatus requestId =>
    Some {| world := snd (getStatus requestId (world s)); inflight := inflight s |}
  | CallGetStatistics =>
    Some {| world := snd (getStatistics (world s)); inflight := inflight s |}
  end.

Fixpoint run (actions : list Action) (s : System) : option System :=
  match actions with
  | [] => Some s
  | a :: rest =>
    match perform a s with
    | Some s' => run rest s'
    | None => None
    end
  end.

Definition reachable (s : System) : Prop :=
  exists actions, run actions initial = Some s.

(** The request id a call of [processImage] registers. *)
Definition registers (a : Action) (requestId : string) : Prop :=
  match a with
  | CallProcessImage env _ _ _ _ => generateRequestId env = requestId
  | _ => False
  end.

(** The stored result of a request, as [getResult] hands it out and the
    caller reads it. *)
Definition stored (s : System) (requestId : string) : option ImageProcessResult :=
  match fst (getResult requestId (world s)) with
  | Ok (Some result) => deref (world s) result
  | _ => None
  end.

Definition statistics (s : System) : option Statistics :=
  match fst (getStatistics (world s)) with
  | Ok st => Some st
  | Throw _ => None
  end.

End Session.

(** ** Vocabulary of the statements *)

Local Close Scope Z_scope.

(** The URL the waiter polls for a prediction. *)
Definition pollTarget (predictionId : string) : string :=
  AIProvider.API_URL +:+ "/" +:+ predictionId.

(** The reply to the [attempt]-th poll of a prediction. *)
Definition reply (net : AIProvider.Network) (config : AIProcessingConfig)
    (predictionId : string) (attempt : nat)
  : AIProvider.Fetched AIProvider.Prediction :=
  AIProvider.get net (pollTarget predictionId) (AIProvider.token config) attempt.

(** A reply that leaves the job unfinished: a prediction whose status is
    neither [succeeded] nor [failed]. *)
Definition unfinished (f : AIProvider.Fetched AIProvider.Prediction) : Prop :=
  exists ok statusText p,
    f = AIProvider.Response ok statusText (Ok p) /\
    AIProvider.prediction_status p <> "succeeded" /\
    AIProvider.prediction_status p <> "failed".

(** [n] rounds of polling from attempt [first] on: a GET, then a wait of
    [pollInterval]. *)
Definition rounds (target : string) (first n : nat) : list AIProvider.Event :=
  flat_map (fun a => [AIProvider.EvGet target a;
                      AIProvider.EvSleep AIProvider.pollInterval])
           (seq first n).

(** The paints a call goes on to process: the resolved paints, cut by
    [slice(0, maxPatterns)]. *)
Definition selected (database : PaintDatabase.t)
    (opts : option ImageProcessOptions) (codes : list string) : list Paint :=
  let paints := PaintDatabase.getPaintsByProductCodes database codes in
  slice paints 0%Z
    (or_int (match opts with Some o => maxPatterns o | None => None end)
            (Z.of_nat (length paints))).

(** The result object a call hands to its caller, read when the call
    returns. *)
Definition returned (call : ImageProcessor.M ImageProcessor.loc)
    (w : ImageProcessor.World) : option ImageProcessResult :=
  match call w with
  | (Ok result, w') => ImageProcessor.deref w' result
  | (Throw _, _) => None
  end.

(** [request.options?.maxPatterns] of the options a caller passes. *)
Definition requestedPatterns (opts : option ImageProcessOptions) : option Z :=
  match opts with Some o => maxPatterns o | None => None end.

(** The cap the design document describes: [maxPatterns], an unset or
    non-positive [maxPatterns] counting as the resolved count. *)
Definition promisedMax (maxPatterns : option Z) (resolvedCount : nat) : nat :=
  match maxPatterns with
  | Some n => if (n <=? 0)%Z then resolvedCount else Z.to_nat n
  | None => resolvedCount
  end.

(** The same cap with only an unset or zero [maxPatterns] counting as the
    resolved count. *)
Definition effectiveMax (maxPatterns : option Z) (resolvedCount : nat) : nat :=
  match maxPatterns with
  | Some n => if (n =? 0)%Z then resolvedCount else Z.to_nat n
  | None => resolvedCount
  end.

(** The backend is of no use to a job: no config, no API key, no provider
    for the configured name, a provider that is not ready, or a
    [generateImage] that throws. *)
Definition unavailable (config : option AIProcessingConfig)
    (net : AIProvider.Network) (originalImage : string) (paint0 : Paint)
    (prompt0 : string) : Prop :=
  match config with
  | None => True
  | Some c =>
    truthy_string (apiKey c) = false \/
    match AIProvider.createAIProvider c with
    | Throw _ => True
    | Ok prov =>
      AIProvider.isReady prov = false \/
      exists e, snd (AIProvider.generateImage prov net originalImage paint0
                       prompt0) = Throw e
    end
  end.

(** The result store and the result objects of a session. *)
Definition store (s : Session.System) : gmap string ImageProcessor.loc :=
  ImageProcessor.results (ImageProcessor.this (Session.world s)).

Definition objects (s : Session.System) : list ImageProcessResult :=
  ImageProcessor.heap (Session.world s).

(** A terminal status. *)
Definition terminal (st : Status) : Prop := st = Completed \/ st = Failed.

(** Actions that leave store, objects and calls in flight alone. *)
Definition quiet (a : Session.Action) : Prop :=
  match a with
  | Session.CallSetAIConfig _ | Session.CallGetResult _
  | Session.CallGetStatus _ | Session.CallGetStatistics => True
  | _ => False
  end.

(** What an action does to store, objects and calls in flight. *)
Inductive effect (s s' : Session.System) : Session.Action -> Prop :=
| effect_register env database image0 codes opts request :
    objects s' =
      objects s ++ [ {| requestId := ImageProcessor.generateRequestId env;
                        status := Processing; generatedImages := [];
                        error := None; processingTimeMs := None |} ] ->
    store s' =
      <[ImageProcessor.generateRequestId env := length (objects s)]> (store s) ->
    Session.inflight s' =
      Session.inflight s ++
        [ {| Session.task_env := env; Session.task_database := database;
             Session.task_request := request;
             Session.task_result := length (objects s);
             Session.task_phase := Session.Running |} ] ->
    effect s s' (Session.CallProcessImage env database image0 codes opts)
| effect_execute i task p :
    Session.inflight s !! i = Some task ->
    Session.task_phase task = Session.Running ->
    length (objects s') = length (objects s) ->
    (forall j, j <> Session.task_result task ->
       objects s' !! j = objects s !! j) ->
    (forall j, status <$> objects s' !! j = status <$> objects s !! j) ->
    store s' = store s ->
    Session.inflight s' = <[i := Session.with_phase p task]> (Session.inflight s) ->
    effect s s' (Session.Execute i)
| effect_settle i task f st :
    Session.inflight s !! i = Some task ->
    Session.task_phase task <> Session.Running ->
    terminal st -> (forall res, status (f res) = st) ->
    objects s' = alter f (Session.task_result task) (objects s) ->
    store s' = store s ->
    Session.inflight s' = delete i (Session.inflight s) ->
    effect s s' (Session.Settle i)
| effect_clear :
    objects s' = objects s -> store s' = ∅ ->
    Session.inflight s' = Session.inflight s ->
    effect s s' Session.CallClearCache
| effect_quiet a :
    quiet a ->
    objects s' = objects s -> store s' = store s ->
    Session.inflight s' = Session.inflight s ->
    effect s s' a.

(** What holds of every state a session reaches: stored references point
    to objects, no object is [pending], a call in flight owns an object
    that is still [processing], and no two calls own the same object. *)
Record invariant (s : Session.System) : Prop := {
  inv_stored : forall id l, store s !! id = Some l -> l < length (objects s);
  inv_status : forall l res, objects s !! l = Some res -> status res <> Pending;
  inv_owned : forall i task,
    Session.inflight s !! i = Some task ->
    status <$> objects s !! Session.task_result task = Some Processing;
  inv_distinct : NoDup (Session.task_result <$> Session.inflight s)
}.

(** ** Sample surroundings *)

Definition sampleConfig : AIProcessingConfig :=
  {| provider := "replicate"; apiKey := Some "r8_key"; modelName := None;
     steps := None; guidanceScale := None; strength := None |}.

(** A config that asks for a prompt strength of 0, the lower end of the
    range 0.0-1.0 the README gives for [strength]. *)
Definition zeroStrengthConfig : AIProcessingConfig :=
  {| provider := "replicate"; apiKey := Some "r8_key"; modelName := None;
     steps := None; guidanceScale := None; strength := Some 0%float |}.

(** A service that accepts the job and reports it [processing] once, then
    [succeeded]. *)
Definition sampleNetwork : AIProvider.Network :=
  {| AIProvider.post := fun _ =>
       AIProvider.Response true "Created"
         (Ok {| AIProvider.prediction_id := "p1";
                AIProvider.submitted_status := "starting" |});
     AIProvider.get := fun _ _ attempt =>
       AIProvider.Response true "OK"
         (Ok (match attempt with
              | O => {| AIProvider.prediction_status := "processing";
                        AIProvider.output := None;
                        AIProvider.prediction_error := None |}
              | S _ => {| AIProvider.prediction_status := "succeeded";
                          AIProvider.output := Some ["https://img/1.png"];
                          AIProvider.prediction_error := None |}
              end)) |}.


(** A service that cannot be reached. *)
Definition deadNetwork : AIProvider.Network :=
  {| AIProvider.post := fun _ => AIProvider.Rejected (ErrorObj "fetch failed");
     AIProvider.get := fun _ _ _ => AIProvider.Rejected (ErrorObj "fetch failed") |}.

Definition sampleEnv : ImageProcessor.Env :=
  {| ImageProcessor.requestStamp := 1700000000000%Z;
     ImageProcessor.requestRandom := "0.4fzyo82mvyr";
     ImageProcessor.submitted := 1700000000000%Z;
     ImageProcessor.startTime := 1700000000000%Z;
     ImageProcessor.endTime := 1700000000042%Z;
     ImageProcessor.job := fun i =>
       {| ImageProcessor.imageStamp := (Z.of_nat i + 1700000000001)%Z;
          ImageProcessor.imageRandom := "0.9x8c7v6b5n4";
          ImageProcessor.created := (Z.of_nat i + 1700000000001)%Z;
          ImageProcessor.network := deadNetwork |};
     ImageProcessor.generatePrompt := fun _ => "a house exterior" |}.

(** A processor with the sample config set. *)
Definition configuredWorld : ImageProcessor.World :=
  snd (ImageProcessor.setAIConfig sampleConfig ImageProcessor.create).

(** A later call: the clock has moved on, so the request id differs. *)
Definition laterEnv : ImageProcessor.Env :=
  {| ImageProcessor.requestStamp := 1700000005000%Z;
     ImageProcessor.requestRandom := ImageProcessor.requestRandom sampleEnv;
     ImageProcessor.submitted := 1700000005000%Z;
     ImageProcessor.startTime := 1700000005000%Z;
     ImageProcessor.endTime := 1700000005007%Z;
     ImageProcessor.job := ImageProcessor.job sampleEnv;
     ImageProcessor.generatePrompt := ImageProcessor.generatePrompt sampleEnv |}.

(** One call that runs to its end. *)
Definition oneCall : list Session.Action :=
  [ Session.CallProcessImage sampleEnv PaintDatabase.create
      "http://x/house.jpg" ["ND-050"; "KP-200"] None;
    Session.Execute 0;
    Session.Settle 0 ].

(** Two calls that overlap: the second is registered before the first is
    resumed, and is still in flight at the end. *)
Definition overlappingCalls : list Session.Action :=
  [ Session.CallProcessImage sampleEnv PaintDatabase.create
      "http://x/house.jpg" ["ND-050"; "KP-200"] None;
    Session.CallProcessImage laterEnv PaintDatabase.create
      "http://x/house.jpg" ["NOPE"] None;
    Session.Execute 0;
    Session.Settle 0 ].

(** The request id of the first sample call. *)
Definition sampleId : string := "req_1700000000000_4fzyo82".

(** What goes on after the first call has completed: reads, a second call
    that fails, a change of config. *)
Definition laterActions : list Session.Action :=
  [ Session.CallGetResult sampleId;
    Session.CallProcessImage laterEnv PaintDatabase.create
      "http://x/house.jpg" ["NOPE"] None;
    Session.CallGetStatistics;
    Session.Execute 0;
    Session.CallSetAIConfig sampleConfig;
    Session.Settle 0;
    Session.CallGetResult sampleId ].

Definition capTo (n : Z) : option ImageProcessOptions :=
  Some {| quality := None; maxPatterns := Some n;
          maxWidth := None; maxHeight := None |}.

(** ** Vocabulary for the catalog, the provider and the prompts *)

(** The index of a catalog is consistent: every paint is filed under its
    own product code. *)
Definition indexed (db : PaintDatabase.t) : Prop :=
  forall code p, PaintDatabase.paints db !! code = Some p -> productCode p = code.

(** A paint meets the criteria of a search. *)
Definition meets (lower : string -> string) (c : PaintSearchCriteria)
    (p : Paint) : Prop :=
  (forall m, by_manufacturer c = Some m -> manufacturer p = m) /\
  (forall ty, by_type c = Some ty -> paint_type p = ty) /\
  (forall name, by_colorName c = Some name -> name <> "" ->
     includes (lower (color_name (color p))) (lower name) = true) /\
  (forall code, by_productCode c = Some code -> code <> "" ->
     includes (productCode p) code = true) /\
  (forall range lo, priceRange c = Some range -> range_min range = Some lo ->
     exists v, pricePerSqm p = Some v /\ v <> 0%Z /\ (lo <= v)%Z) /\
  (forall range hi, priceRange c = Some range -> range_max range = Some hi ->
     exists v, pricePerSqm p = Some v /\ v <> 0%Z /\ (v <= hi)%Z).

(** A search with no criterion. *)
Definition anyPaint : PaintSearchCriteria :=
  {| by_manufacturer := None; by_type := None; by_colorName := None;
     by_productCode := None; priceRange := None |}.

(** An update that names no key. *)
Definition noChange : PartialPaint :=
  {| new_id := None; new_productCode := None; new_name := None;
     new_manufacturer := None; new_type := None; new_color := None;
     new_pricePerSqm := None; new_durabilityYears := None;
     new_description := None |}.

Definition allManufacturers : list PaintManufacturer :=
  [NipponPaint; KansaiPaint; SKKaken; AstecPaint; OtherManufacturer].

(** The number of POSTs and of GETs among the events of a provider call,
    and the time it spent waiting. *)
Definition posts (events : list AIProvider.Event) : nat :=
  length (List.filter (fun e => match e with AIProvider.EvPost _ => true
                                           | _ => false end) events).

Definition gets (events : list AIProvider.Event) : nat :=
  length (List.filter (fun e => match e with AIProvider.EvGet _ _ => true
                                           | _ => false end) events).

Fixpoint slept (events : list AIProvider.Event) : Z :=
  match events with
  | [] => 0%Z
  | AIProvider.EvSleep ms :: rest => (ms + slept rest)%Z
  | _ :: rest => slept rest
  end.

(** Lower case for the letters A to Z, other characters kept. *)
Fixpoint lowerAscii (s : string) : string :=
  match s with
  | EmptyString => EmptyString
  | String c rest =>
    let n := Ascii.nat_of_ascii c in
    String (if Nat.leb 65 n && Nat.leb n 90 then Ascii.ascii_of_nat (n + 32)
            else c)
           (lowerAscii rest)
  end.

(** A runtime for the examples: nothing inherited is asked for. *)
Definition sampleRuntime : Runtime :=
  {| toLowerCase := lowerAscii; inheritedText := fun _ => None |}.

(** A paint to add to the catalog. *)
Definition astecPaint : Paint :=
  {| paint_id := "ap-001"; productCode := "AP-400";
     paint_name := "Super Shine";
     manufacturer := AstecPaint; paint_type := Inorganic;
     color := {| color_name := "Charcoal"; hex := "#36454F";
                 rgb := {| r := 54%Z; g := 69%Z; b := 79%Z |};
                 colorCode := None |};
     pricePerSqm := None; durabilityYears := Some 20%Z;
     description := None |}.

(** The first paint of the built-in catalog. *)
Definition firstSample : Paint := nth 0 PaintDatabase.samplePaints astecPaint.

(** A search for every price from 0 up. *)
Definition pricedFromZero : PaintSearchCriteria :=
  {| by_manufacturer := None; by_type := None; by_colorName := None;
     by_productCode := None;
     priceRange := Some {| range_min := Some 0%Z; range_max := None |} |}.

(** How many elements of a list carry a key. *)
Definition tally {A K} `{EqDecision K} (key : A -> K) (k : K) (l : list A)
  : nat :=
  length (List.filter (fun x => bool_decide (key x = k)) l).

(** ** Vocabulary for the processor *)

(** The images the loop of [executeImageProcessing] produces for a call. *)
Definition produced (env : ImageProcessor.Env) (database : PaintDatabase.t)
    (originalImage0 : string) (codes : list string)
    (opts : option ImageProcessOptions) (w : ImageProcessor.World)
  : list GeneratedImage :=
  match fst (ImageProcessor.generateEach env originalImage0 opts 0
               (selected database opts codes) [] w) with
  | Ok images => images
  | Throw _ => []
  end.

(** A job whose service answers. *)
Definition liveJob : ImageProcessor.JobEnv :=
  {| ImageProcessor.imageStamp := 1700000000001%Z;
     ImageProcessor.imageRandom := "0.9x8c7v6b5n4";
     ImageProcessor.created := 1700000000001%Z;
     ImageProcessor.network := sampleNetwork |}.

(** Options that ask for an output size and a quality only. *)
Definition sizeOnly : option ImageProcessOptions :=
  Some {| quality := Some 90%Z; maxPatterns := None;
          maxWidth := Some 800%Z; maxHeight := Some 600%Z |}.

(** The queue of a session. *)
Definition queue (s : Session.System) : gmap string ImageProcessRequest :=
  ImageProcessor.processingQueue (ImageProcessor.this (Session.world s)).

(** The fields of a result fit its status. *)
Definition shaped (res : ImageProcessResult) : Prop :=
  match status res with
  | Pending => False
  | Processing => error res = None
  | Completed => error res = None /\ is_Some (processingTimeMs res)
  | Failed =>
    error res = Some ImageProcessor.noPaintFound /\
    generatedImages res = [] /\ processingTimeMs res = None
  end.

(** The result object of a call in flight fits the call's phase. *)
Definition owned_shape (objs : list ImageProcessResult) (task : Session.Task)
  : Prop :=
  exists res,
    objs !! Session.task_result task = Some res /\
    status res = Processing /\ error res = None /\
    match Session.task_phase task with
    | Session.Running =>
      generatedImages res = [] /\ processingTimeMs res = None
    | Session.Returned => is_Some (processingTimeMs res)
    | Session.Threw e =>
      e = ErrorObj ImageProcessor.noPaintFound /\
      generatedImages res = [] /\ processingTimeMs res = None
    end.

(** What an action does, in full. *)
Inductive detail (s s' : Session.System) : Session.Action -> Prop :=
| detail_register env database image0 codes opts request :
    Session.world s' =
      snd (ImageProcessor.register env image0 codes opts (Session.world s)) ->
    Session.inflight s' =
      Session.inflight s ++
        [ {| Session.task_env := env; Session.task_database := database;
             Session.task_request := request;
             Session.task_result := length (objects s);
             Session.task_phase := Session.Running |} ] ->
    detail s s' (Session.CallProcessImage env database image0 codes opts)
| detail_throw i task :
    Session.inflight s !! i = Some task ->
    Session.task_phase task = Session.Running ->
    Session.world s' = Session.world s ->
    Session.inflight s' =
      <[i := Session.with_phase
               (Session.Threw (ErrorObj ImageProcessor.noPaintFound)) task]>
        (Session.inflight s) ->
    detail s s' (Session.Execute i)
| detail_return i task images elapsed :
    Session.inflight s !! i = Some task ->
    Session.task_phase task = Session.Running ->
    ImageProcessor.this (Session.world s') =
      ImageProcessor.this (Session.world s) ->
    objects s' =
      alter (ImageProcessor.set_processingTimeMs elapsed)
        (Session.task_result task)
        (alter (ImageProcessor.set_generatedImages images)
           (Session.task_result task) (objects s)) ->
    Session.inflight s' =
      <[i := Session.with_phase Session.Returned task]> (Session.inflight s) ->
    detail s s' (Session.Execute i)
| detail_complete i task :
    Session.inflight s !! i = Some task ->
    Session.task_phase task = Session.Returned ->
    ImageProcessor.this (Session.world s') =
      ImageProcessor.this (Session.world s) ->
    objects s' =
      alter (ImageProcessor.set_status Completed) (Session.task_result task)
        (objects s) ->
    Session.inflight s' = delete i (Session.inflight s) ->
    detail s s' (Session.Settle i)
| detail_fail i task e :
    Session.inflight s !! i = Some task ->
    Session.task_phase task = Session.Threw e ->
    ImageProcessor.this (Session.world s') =
      ImageProcessor.this (Session.world s) ->
    objects s' =
      alter (ImageProcessor.set_error (ImageProcessor.errorMessage e))
        (Session.task_result task)
        (alter (ImageProcessor.set_status Failed) (Session.task_result task)
           (objects s)) ->
    Session.inflight s' = delete i (Session.inflight s) ->
    detail s s' (Session.Settle i)
| detail_clear :
    objects s' = objects s -> store s' = ∅ -> queue s' = ∅ ->
    Session.inflight s' = Session.inflight s ->
    detail s s' Session.CallClearCache
| detail_quiet a :
    quiet a ->
    objects s' = objects s -> store s' = store s -> queue s' = queue s ->
    Session.inflight s' = Session.inflight s ->
    detail s s' a.

(** What a session keeps true of its records: a stored result carries the
    id it is stored under, the queue and the store hold the same ids, a
    queued request carries its id, every result object fits its status,
    and the object of a call in flight fits the call's phase. *)
Record consistent (s : Session.System) : Prop := {
  con_key : forall id l,
    store s !! id = Some l -> requestId <$> objects s !! l = Some id;
  con_queue : forall id, queue s !! id = None <-> store s !! id = None;
  con_request : forall id req, queue s !! id = Some req -> request_id req = id;
  con_shape : forall l res, objects s !! l = Some res -> shaped res;
  con_task : forall i task,
    Session.inflight s !! i = Some task -> owned_shape (objects s) task
}.

(** The action is a call of [processImage]. *)
Definition submits (a : Session.Action) : Prop :=
  match a with
  | Session.CallProcessImage _ _ _ _ _ => True
  | _ => False
  end.

(** A call whose cache is cleared while it is suspended. *)
Definition callBeforeClear : list Session.Action :=
  [ Session.CallProcessImage sampleEnv PaintDatabase.create
      "http://x/house.jpg" ["ND-050"; "KP-200"] None;
    Session.Execute 0 ].

Definition resumedAfterClear : list Session.Action :=
  [ Session.CallGetStatus sampleId; Session.Settle 0;
    Session.CallGetResult sampleId ].

Definition noRequests : ImageProcessor.Statistics :=
  {| ImageProcessor.totalRequests := 0;
     ImageProcessor.completedRequests := 0;
     ImageProcessor.failedRequests := 0;
     ImageProcessor.processingRequests := 0 |}.

(** * Properties *)

(** ** Strings and arrays *)

Lemma append_String (c : ascii) (p rest : string) :
  String c p +:+ rest = String c (p +:+ rest).
Proof. reflexivity. Qed.

Lemma startsWith_split (s p : string) :
  JS.startsWith s p = true <-> exists rest, s = p +:+ rest.
Proof.
  unfold JS.startsWith. revert s.
  induction p as [|c p IH]; intros s; simpl.
  - split; [intros _; exists s; reflexivity | destruct s; reflexivity].
  - destruct s as [|d s]; simpl.
    + split; [discriminate | intros [rest H]; discriminate].
    + destruct (Ascii.ascii_dec c d) as [->|Hne].
      * rewrite IH. split; intros [rest H]; exists rest.
        -- now rewrite append_String, H.
        -- rewrite append_String in H. now injection H.
      * split; [discriminate|].
        intros [rest H]. rewrite append_String in H. congruence.
Qed.

Lemma substring_from_start (n : nat) (s : string) :
  exists rest, s = String.substring 0 n s +:+ rest /\
    String.length (String.substring 0 n s) = Nat.min n (String.length s).
Proof.
  revert s. induction n as [|n IH]; intros s.
  - exists s. destruct s; simpl; auto.
  - destruct s as [|c s]; simpl.
    + exists EmptyString. auto.
    + destruct (IH s) as [rest [H1 H2]].
      exists rest. rewrite append_String, <- H1, H2. auto.
Qed.

Lemma slice_from_start {A} (l : list A) (n : Z) :
  (0 <= n)%Z -> slice l 0 n = take (Z.to_nat n) l.
Proof.
  intros Hn. unfold slice, relative_index.
  destruct (Z.ltb_spec n 0) as [?|_]; [lia|].
  destruct (Z.ltb_spec 0 0) as [?|_]; [lia|].
  rewrite (Z.min_l 0) by lia. rewrite Z.sub_0_r.
  change (drop (Z.to_nat 0) l) with l.
  destruct (Z.le_ge_cases n (Z.of_nat (length l))).
  - rewrite (Z.min_l n) by lia. reflexivity.
  - rewrite (Z.min_r n) by lia. rewrite Nat2Z.id.
    rewrite !take_ge by lia. reflexivity.
Qed.

Lemma slice_from_start_negative {A} (l : list A) (n : Z) :
  (n < 0)%Z -> slice l 0 n = take (length l - Z.to_nat (- n)) l.
Proof.
  intros Hn. unfold slice, relative_index.
  destruct (Z.ltb_spec n 0) as [_|?]; [|lia].
  destruct (Z.ltb_spec 0 0) as [?|_]; [lia|].
  rewrite (Z.min_l 0) by lia. rewrite Z.sub_0_r.
  change (drop (Z.to_nat 0) l) with l.
  f_equal. lia.
Qed.

(** ** Catalog resolution *)

Section Resolution.
Import PaintDatabase.
Variable db : PaintDatabase.t.

Lemma resolve_cons (code : string) (rest : list string) :
  getPaintsByProductCodes db (code :: rest) =
  match getPaintByProductCode db code with
  | Some p => p :: getPaintsByProductCodes db rest
  | None => getPaintsByProductCodes db rest
  end.
Proof.
  unfold getPaintsByProductCodes. simpl.
  destruct (getPaintByProductCode db code); reflexivity.
Qed.

Lemma resolve_app (xs ys : list string) :
  getPaintsByProductCodes db (xs ++ ys) =
  getPaintsByProductCodes db xs ++ getPaintsByProductCodes db ys.
Proof.
  induction xs as [|x xs IH]; [reflexivity|].
  rewrite <- app_comm_cons, !resolve_cons, IH.
  destruct (getPaintByProductCode db x); reflexivity.
Qed.

Lemma resolve_omap (codes : list string) :
  getPaintsByProductCodes db codes = omap (getPaintByProductCode db) codes.
Proof.
  induction codes as [|c codes IH]; [reflexivity|].
  rewrite resolve_cons, IH. simpl.
  destruct (getPaintByProductCode db c); reflexivity.
Qed.

Lemma resolve_replicate (k : nat) (code : string) (p : Paint) :
  getPaintByProductCode db code = Some p ->
  getPaintsByProductCodes db (replicate k code) = replicate k p.
Proof.
  intros H. induction k as [|k IH]; [reflexivity|].
  simpl. rewrite resolve_cons, H, IH. reflexivity.
Qed.

End Resolution.

(** C5. Catalog resolution walks the product codes in input order: a code
    with a match contributes its paint at that place, a code with no match
    contributes nothing, so the result of a concatenation is the
    concatenation of the results; nothing is de-duplicated, a matching
    code given [k] times yields [k] copies of its paint. *)
Theorem getPaintsByProductCodes_order_drop_duplicates (db : PaintDatabase.t) :
  PaintDatabase.getPaintsByProductCodes db [] = [] /\
  (forall code rest p,
      PaintDatabase.getPaintByProductCode db code = Some p ->
      PaintDatabase.getPaintsByProductCodes db (code :: rest) =
      p :: PaintDatabase.getPaintsByProductCodes db rest) /\
  (forall code rest,
      PaintDatabase.getPaintByProductCode db code = None ->
      PaintDatabase.getPaintsByProductCodes db (code :: rest) =
      PaintDatabase.getPaintsByProductCodes db rest) /\
  (forall xs ys,
      PaintDatabase.getPaintsByProductCodes db (xs ++ ys) =
      PaintDatabase.getPaintsByProductCodes db xs ++
      PaintDatabase.getPaintsByProductCodes db ys) /\
  (forall before k code after p,
      PaintDatabase.getPaintByProductCode db code = Some p ->
      PaintDatabase.getPaintsByProductCodes db
        (before ++ replicate k code ++ after) =
      PaintDatabase.getPaintsByProductCodes db before ++ replicate k p ++
      PaintDatabase.getPaintsByProductCodes db after).
Proof.
  split; [reflexivity|].
  split; [intros code rest p H; rewrite resolve_cons, H; reflexivity|].
  split; [intros code rest H; rewrite resolve_cons, H; reflexivity|].
  split; [apply resolve_app|].
  intros before k code after p H.
  rewrite !resolve_app, (resolve_replicate db k code p H). reflexivity.
Qed.

Lemma getPaintsByProductCodes_order_drop_duplicates_witness :
  PaintDatabase.getPaintsByProductCodes PaintDatabase.create
    (["NOPE"] ++ replicate 2 "KP-200" ++ ["ND-050"]) =
  PaintDatabase.getPaintsByProductCodes PaintDatabase.create ["NOPE"] ++
  replicate 2
    {| paint_id := "kp-001"; productCode := "KP-200";
       paint_name := "アレスダイナミックTOP";
       manufacturer := KansaiPaint; paint_type := Fluorine;
       color := {| color_name := "アイボリー"; hex := "#FFFFF0";
                   rgb := {| r := 255; g := 255; b := 240 |};
                   colorCode := Some "KP-200" |};
       pricePerSqm := Some 4500%Z; durabilityYears := Some 18%Z;
       description := Some "超高耐久フッ素樹脂塗料" |} ++
  PaintDatabase.getPaintsByProductCodes PaintDatabase.create ["ND-050"].
Proof.
  apply (getPaintsByProductCodes_order_drop_duplicates PaintDatabase.create).
  vm_compute. reflexivity.
Defined.

(** ** Thumbnail derivation *)

Lemma generatePaintedImage_ok (env : ImageProcessor.Env)
    (jenv : ImageProcessor.JobEnv) (originalImage : string) (paint0 : Paint)
    (opts : option ImageProcessOptions) (w : ImageProcessor.World) :
  exists data,
    ImageProcessor.generatePaintedImage env jenv originalImage paint0 opts w =
    (Ok {| image_id := ImageProcessor.generateImageId jenv;
           paint := paint0;
           imageData := data;
           thumbnail := Some (ImageProcessor.generateThumbnail data);
           createdAt := ImageProcessor.created jenv |}, w).
Proof.
  unfold ImageProcessor.generatePaintedImage, ImageProcessor.bind,
    ImageProcessor.read, ImageProcessor.ret, ImageProcessor.tryCatch.
  destruct (ImageProcessor.configured _); [|eauto].
  unfold ImageProcessor.processWithAI, ImageProcessor.bind,
    ImageProcessor.read, ImageProcessor.lift, ImageProcessor.fromExn,
    ImageProcessor.throw, ImageProcessor.ret.
  destruct (ImageProcessor.aiConfig _) as [config|]; [|eauto].
  simpl. destruct (AIProvider.createAIProvider config) as [prov|e]; [|eauto].
  destruct (negb (AIProvider.isReady prov)); [eauto|].
  destruct (AIProvider.generateImage prov _ _ _ _) as [events [data|e]];
    simpl; eauto.
Qed.

(** C6. The thumbnail is computed from the artifact payload alone: a
    payload that starts with [http] is its own thumbnail; any other
    payload gives the marker [thumbnail_] followed by the first 50
    characters of the payload (all of it when it is shorter); and the
    thumbnail of every generated image is this function of its
    [imageData], whatever the processor's state and surroundings. *)
Theorem generateThumbnail_spec (imageData0 : string) :
  (forall rest, imageData0 = "http" +:+ rest ->
     ImageProcessor.generateThumbnail imageData0 = imageData0) /\
  ((forall rest, imageData0 <> "http" +:+ rest) ->
     exists pre rest,
       imageData0 = pre +:+ rest /\
       String.length pre = Nat.min 50 (String.length imageData0) /\
       ImageProcessor.generateThumbnail imageData0 = "thumbnail_" +:+ pre) /\
  (forall env jenv originalImage paint0 opts w,
     exists g,
       fst (ImageProcessor.generatePaintedImage env jenv originalImage paint0
              opts w) = Ok g /\
       thumbnail g = Some (ImageProcessor.generateThumbnail (imageData g))).
Proof.
  split; [|split].
  - intros rest H. unfold ImageProcessor.generateThumbnail.
    assert (JS.startsWith imageData0 "http" = true) as ->; [|reflexivity].
    apply startsWith_split. eauto.
  - intros H. unfold ImageProcessor.generateThumbnail.
    destruct (JS.startsWith imageData0 "http") eqn:E.
    + apply startsWith_split in E as [rest E]. destruct (H rest E).
    + destruct (substring_from_start 50 imageData0) as [rest [H1 H2]].
      exists (String.substring 0 50 imageData0), rest. auto.
  - intros env jenv originalImage paint0 opts w.
    destruct (generatePaintedImage_ok env jenv originalImage paint0 opts w)
      as [data ->].
    eexists. split; reflexivity.
Qed.

Lemma generateThumbnail_spec_witness :
  ImageProcessor.generateThumbnail "http://x/house.jpg" = "http://x/house.jpg" /\
  exists pre rest,
    "mock_processed_ND-050_http://x/house.jpg" = pre +:+ rest /\
    String.length pre =
    Nat.min 50 (String.length "mock_processed_ND-050_http://x/house.jpg") /\
    ImageProcessor.generateThumbnail "mock_processed_ND-050_http://x/house.jpg" =
    "thumbnail_" +:+ pre.
Proof.
  split.
  - apply (proj1 (generateThumbnail_spec "http://x/house.jpg") "://x/house.jpg").
    reflexivity.
  - apply (proj1 (proj2 (generateThumbnail_spec
                           "mock_processed_ND-050_http://x/house.jpg"))).
    intros rest H. discriminate H.
Defined.

(** ** The submit request *)

Lemma Replicate_generateImage_posts (config : AIProcessingConfig)
    (net : AIProvider.Network) (originalImage : string) (paint0 : Paint)
    (prompt0 : string) :
  truthy_string (apiKey config) = true ->
  exists events,
    fst (AIProvider.Replicate_generateImage config net originalImage paint0
           prompt0) =
    AIProvider.EvPost (AIProvider.submitRequest config originalImage prompt0)
      :: events.
Proof.
  intros Hkey. unfold AIProvider.Replicate_generateImage. rewrite Hkey. simpl.
  destruct (AIProvider.post net _) as [e|ok statusText json]; [eauto|].
  destruct ok; simpl; [|eauto].
  destruct json as [prediction|e]; [|eauto].
  destruct (AIProvider.waitForCompletion _ _ _) as [events outcome]. eauto.
Qed.

(** What holds of the submit request: the request the remote backend posts
    is [submitRequest]; its body always has [num_outputs = 1]; a generation
    parameter whose config field is absent takes its default (50 steps,
    guidance scale 7.5, prompt strength 0.8); and a config field that holds
    a number other than zero or NaN overrides its own parameter, whatever
    the other fields hold. *)
Theorem submitRequest_parameters (config : AIProcessingConfig)
    (originalImage prompt0 : string) :
  let body := AIProvider.input
                (AIProvider.submitRequest config originalImage prompt0) in
  (forall net paint0,
     truthy_string (apiKey config) = true ->
     exists events,
       fst (AIProvider.Replicate_generateImage config net originalImage paint0
              prompt0) =
       AIProvider.EvPost (AIProvider.submitRequest config originalImage prompt0)
         :: events) /\
  AIProvider.num_outputs body = 1%Z /\
  (steps config = None -> AIProvider.num_inference_steps body = 50%float) /\
  (guidanceScale config = None -> AIProvider.guidance_scale body = 7.5%float) /\
  (strength config = None -> AIProvider.prompt_strength body = 0.8%float) /\
  (forall v, steps config = Some v -> truthy_number v = true ->
     AIProvider.num_inference_steps body = v) /\
  (forall v, guidanceScale config = Some v -> truthy_number v = true ->
     AIProvider.guidance_scale body = v) /\
  (forall v, strength config = Some v -> truthy_number v = true ->
     AIProvider.prompt_strength body = v).
Proof.
  simpl. split; [intros; now apply Replicate_generateImage_posts|].
  split; [reflexivity|].
  repeat split.
  - now intros ->.
  - now intros ->.
  - now intros ->.
  - intros v -> Hv. simpl. now rewrite Hv.
  - intros v -> Hv. simpl. now rewrite Hv.
  - intros v -> Hv. simpl. now rewrite Hv.
Qed.

Lemma submitRequest_parameters_witness :
  AIProvider.prompt_strength
    (AIProvider.input
       (AIProvider.submitRequest
          {| provider := "replicate"; apiKey := Some "r8_key";
             modelName := None; steps := None;
             guidanceScale := Some 9%float; strength := Some 0.5%float |}
          "http://x/house.jpg" "a house exterior")) = 0.5%float.
Proof.
  apply (submitRequest_parameters
           {| provider := "replicate"; apiKey := Some "r8_key";
              modelName := None; steps := None;
              guidanceScale := Some 9%float; strength := Some 0.5%float |}
           "http://x/house.jpg" "a house exterior"); reflexivity.
Defined.

(** A configured zero is falsy under [||] and gives way to the default. *)
Lemma submitRequest_zero_strength (config : AIProcessingConfig)
    (originalImage prompt0 : string) :
  strength config = Some 0%float ->
  AIProvider.prompt_strength
    (AIProvider.input (AIProvider.submitRequest config originalImage prompt0)) =
  0.8%float.
Proof. simpl. now intros ->. Qed.

Lemma zero_not_default : 0.8%float <> 0%float.
Proof.
  intros H.
  pose proof (f_equal (fun x => PrimFloat.eqb x 0%float) H) as H'.
  vm_compute in H'. discriminate H'.
Qed.

(** C7. A configured parameter does not always override its default: with
    [strength: 0] in the config, a value of the range 0.0-1.0 the README
    gives, the request that [generateImage] posts carries
    [prompt_strength = 0.8], the default, and not the configured 0, because
    [this.config.strength || 0.8] takes a configured 0 for an absent
    field.  [num_outputs] is 1 and the two fields left out take their
    defaults, as the claim says. *)
Theorem submitRequest_zero_strength_ignored :
  let request :=
    AIProvider.submitRequest zeroStrengthConfig "http://x/house.jpg"
      "a house exterior" in
  strength zeroStrengthConfig = Some 0%float /\
  (forall net paint0,
     exists events,
       fst (AIProvider.Replicate_generateImage zeroStrengthConfig net
              "http://x/house.jpg" paint0 "a house exterior") =
       AIProvider.EvPost request :: events) /\
  AIProvider.prompt_strength (AIProvider.input request) = 0.8%float /\
  AIProvider.prompt_strength (AIProvider.input request) <> 0%float /\
  AIProvider.num_outputs (AIProvider.input request) = 1%Z /\
  AIProvider.num_inference_steps (AIProvider.input request) = 50%float /\
  AIProvider.guidance_scale (AIProvider.input request) = 7.5%float.
Proof.
  cbv zeta. split; [reflexivity|]. split.
  - intros net paint0. now apply Replicate_generateImage_posts.
  - split; [reflexivity|]. split; [exact zero_not_default|].
    repeat split; reflexivity.
Qed.

(** ** The completion waiter *)

Section Waiter.
Import AIProvider.
Variables (net : Network) (config : AIProcessingConfig) (predictionId : string).

Local Abbreviation target := (pollTarget predictionId).

Lemma inspect_unfinished (p : Prediction) :
  prediction_status p <> "succeeded" -> prediction_status p <> "failed" ->
  inspect p = inr tt.
Proof.
  intros H1 H2. unfold inspect.
  apply String.eqb_neq in H1 as ->. apply String.eqb_neq in H2 as ->.
  reflexivity.
Qed.

Lemma rounds_S (first n : nat) :
  rounds target first (S n) =
  EvGet target first :: EvSleep pollInterval :: rounds target (S first) n.
Proof. reflexivity. Qed.

Lemma rounds_snoc (first n : nat) :
  rounds target first (S n) =
  rounds target first n ++ [EvGet target (first + n); EvSleep pollInterval].
Proof.
  unfold rounds. rewrite seq_S, flat_map_app. simpl. reflexivity.
Qed.

(** The loop performs whole rounds, and at most one further poll when it
    leaves before its attempts are used up. *)
Lemma pollLoop_events (remaining attempt : nat) :
  exists n,
    n <= remaining /\
    (fst (pollLoop net config predictionId remaining attempt) =
       rounds target attempt n /\ n = remaining \/
     fst (pollLoop net config predictionId remaining attempt) =
       rounds target attempt n ++ [EvGet target (attempt + n)] /\
     n < remaining).
Proof.
  revert attempt. induction remaining as [|remaining IH]; intros attempt.
  - exists 0. split; [lia|]. left. split; reflexivity.
  - simpl. fold (pollTarget predictionId).
    assert (exists n, n <= S remaining /\
              [EvGet target attempt] =
              rounds target attempt n ++ [EvGet target (attempt + n)] /\
              n < S remaining) as Hstop.
    { exists 0. rewrite Nat.add_0_r. repeat split; lia. }
    destruct (get net target (token config) attempt) as [e|ok st [p|e]];
      try solve [destruct Hstop as [n [? [? ?]]]; exists n;
                 split; [assumption | right; split; assumption]].
    destruct (inspect p) as [outcome|[]];
      [destruct Hstop as [n [? [? ?]]]; exists n;
       split; [assumption | right; split; assumption]|].
    destruct (IH (S attempt)) as [n [Hn Hev]].
    destruct (pollLoop net config predictionId remaining (S attempt))
      as [events outcome].
    simpl in *. exists (S n). split; [lia|].
    rewrite rounds_S. destruct Hev as [[-> ?]|[-> ?]]; [left|right].
    + split; [reflexivity | lia].
    + split; [|lia]. simpl. now rewrite Nat.add_succ_r.
Qed.

Lemma pollLoop_unfinished (remaining attempt : nat) :
  unfinished (reply net config predictionId attempt) ->
  pollLoop net config predictionId (S remaining) attempt =
  (EvGet target attempt :: EvSleep pollInterval ::
     fst (pollLoop net config predictionId remaining (S attempt)),
   snd (pollLoop net config predictionId remaining (S attempt))).
Proof.
  intros [ok [st [p [Hr [H1 H2]]]]]. unfold reply in Hr. fold (pollTarget predictionId) in Hr.
  simpl. fold (pollTarget predictionId). rewrite Hr, (inspect_unfinished p H1 H2).
  now destruct (pollLoop _ _ _ _ _).
Qed.

(** Unfinished replies are skipped, one round each. *)
Lemma pollLoop_skip (k remaining attempt : nat) :
  (forall j, j < k -> unfinished (reply net config predictionId (attempt + j))) ->
  pollLoop net config predictionId (k + remaining) attempt =
  (rounds target attempt k ++
     fst (pollLoop net config predictionId remaining (attempt + k)),
   snd (pollLoop net config predictionId remaining (attempt + k))).
Proof.
  revert attempt. induction k as [|k IH]; intros attempt Hk.
  - rewrite Nat.add_0_r. simpl. now destruct (pollLoop _ _ _ _ _).
  - change (S k + remaining) with (S (k + remaining)).
    rewrite pollLoop_unfinished.
    + rewrite (IH (S attempt)).
      * rewrite rounds_S. replace (S attempt + k) with (attempt + S k) by lia.
        reflexivity.
      * intros j Hj. replace (S attempt + j) with (attempt + S j) by lia.
        apply Hk. lia.
    + specialize (Hk 0 ltac:(lia)). now rewrite Nat.add_0_r in Hk.
Qed.


End Waiter.



(** ** One call of [processImage] *)

Section Call.
Import ImageProcessor.
Variables (env : Env) (database : PaintDatabase.t).
Variables (image0 : string) (opts : option ImageProcessOptions).

(** A job reads the processor's state but leaves it as it found it, and
    what it returns depends on the state only through [aiConfig]. *)
Lemma generatePaintedImage_pure (jenv : JobEnv) (paint0 : Paint) (w : World) :
  exists g,
    generatePaintedImage env jenv image0 paint0 opts w = (Ok g, w) /\
    paint g = paint0.
Proof.
  destruct (generatePaintedImage_ok env jenv image0 paint0 opts w) as [d ->].
  eexists. split; reflexivity.
Qed.

Lemma processWithAI_run (jenv : JobEnv) (paint0 : Paint) (w : World) :
  processWithAI env jenv image0 paint0 w =
  (match aiConfig (this w) with
   | None => Throw (ErrorObj "AI config not set")
   | Some config =>
     match AIProvider.createAIProvider config with
     | Throw e => Throw e
     | Ok prov =>
       if negb (AIProvider.isReady prov) then
         Throw (ErrorObj "AI provider is not ready")
       else snd (AIProvider.generateImage prov (network jenv) image0 paint0
                   (generatePrompt env paint0))
     end
   end, w).
Proof.
  unfold processWithAI, bind, read, lift, fromExn, throw, ret.
  destruct (aiConfig (this w)) as [config|]; [|reflexivity].
  simpl. destruct (AIProvider.createAIProvider config) as [prov|e];
    [|reflexivity].
  destruct (negb (AIProvider.isReady prov)); [reflexivity|].
  destruct (AIProvider.generateImage prov _ _ _ _) as [events [data|e]];
    reflexivity.
Qed.

Lemma generatePaintedImage_config (jenv : JobEnv) (paint0 : Paint)
    (w1 w2 : World) :
  aiConfig (this w1) = aiConfig (this w2) ->
  fst (generatePaintedImage env jenv image0 paint0 opts w1) =
  fst (generatePaintedImage env jenv image0 paint0 opts w2).
Proof.
  intros H. unfold generatePaintedImage, bind, read, ret, tryCatch.
  rewrite H. destruct (configured _); [|reflexivity].
  rewrite !processWithAI_run, H.
  now destruct (match aiConfig (this w2) with Some _ => _ | None => _ end).
Qed.

(** The loop appends one image per paint, in order, the [k]-th one made by
    job [i + k] for the [k]-th paint. *)
Lemma generateEach_run (ps : list Paint) :
  forall (i : nat) (acc : list GeneratedImage) (w : World),
  exists imgs,
    generateEach env image0 opts i ps acc w = (Ok (acc ++ imgs), w) /\
    paint <$> imgs = ps /\
    (forall k g, imgs !! k = Some g ->
       fst (generatePaintedImage env (job env (i + k)) image0 (paint g) opts w)
       = Ok g).
Proof.
  induction ps as [|p ps IH]; intros i acc w.
  - exists []. simpl. unfold ret. rewrite app_nil_r.
    split; [reflexivity|]. split; [reflexivity|]. intros k g H. discriminate.
  - destruct (generatePaintedImage_pure (job env i) p w) as [g [Hg Hp]].
    destruct (IH (S i) (acc ++ [g]) w) as [imgs [Hrun [Hps Hjobs]]].
    exists (g :: imgs). simpl. unfold bind at 1. rewrite Hg, Hrun.
    rewrite <- app_assoc. split; [reflexivity|].
    split; [rewrite Hp; f_equal; exact Hps|].
    intros [|k] g' Hk; simpl in Hk.
    + injection Hk as <-. rewrite Nat.add_0_r, Hp, Hg. reflexivity.
    + replace (i + S k) with (S i + k) by lia. now apply Hjobs.
Qed.

Lemma executeImageProcessing_throws (request : ImageProcessRequest)
    (result : loc) (w : World) :
  PaintDatabase.getPaintsByProductCodes database (paintProductCodes request)
    = [] ->
  executeImageProcessing env database request result w =
  (Throw (ErrorObj noPaintFound), w).
Proof.
  intros H. unfold executeImageProcessing. rewrite H. reflexivity.
Qed.

Lemma executeImageProcessing_returns (request : ImageProcessRequest)
    (result : loc) (w : World) :
  originalImage request = image0 -> options request = opts ->
  PaintDatabase.getPaintsByProductCodes database (paintProductCodes request)
    <> [] ->
  exists imgs,
    executeImageProcessing env database request result w =
    (Ok tt,
     {| this := this w;
        heap := alter (set_processingTimeMs (endTime env - startTime env)%Z)
                  result
                  (alter (set_generatedImages imgs) result (heap w)) |}) /\
    paint <$> imgs = selected database opts (paintProductCodes request) /\
    (forall k g, imgs !! k = Some g ->
       fst (generatePaintedImage env (job env k) image0 (paint g) opts w)
       = Ok g).
Proof.
  intros Himg Hopts Hne. unfold executeImageProcessing.
  destruct (PaintDatabase.getPaintsByProductCodes database
              (paintProductCodes request)) as [|p ps] eqn:E; [done|].
  change (Nat.eqb (length (p :: ps)) 0) with false. cbv iota.
  rewrite Himg, Hopts.
  destruct (generateEach_run
              (slice (p :: ps) 0%Z
                 (or_int (options_maxPatterns request)
                         (Z.of_nat (length (p :: ps)))))
              0 [] w) as [imgs [Hrun [Hps Hjobs]]].
  exists imgs. unfold bind at 1. rewrite Hrun. simpl app.
  split; [reflexivity|]. split; [|exact Hjobs].
  rewrite Hps. unfold selected, options_maxPatterns. now rewrite E, Hopts.
Qed.

End Call.

Lemma alter_last {A} (f : A -> A) (h : list A) (x : A) :
  alter f (length h) (h ++ [x]) = h ++ [f x].
Proof. now rewrite alter_app_r_alt, Nat.sub_diag by lia. Qed.

Section Submission.
Import ImageProcessor.
Variables (env : Env) (database : PaintDatabase.t).
Variables (image0 : string) (codes : list string).
Variable opts : option ImageProcessOptions.

Lemma register_run (w : World) :
  exists request,
    register env image0 codes opts w =
    (Ok (request, length (heap w)),
     {| this := this (snd (register env image0 codes opts w));
        heap := heap w ++ [ {| requestId := generateRequestId env;
                               status := Processing;
                               generatedImages := [];
                               error := None;
                               processingTimeMs := None |} ] |}) /\
    request_id request = generateRequestId env /\
    originalImage request = image0 /\
    paintProductCodes request = codes /\
    options request = opts /\
    aiConfig (this (snd (register env image0 codes opts w))) =
    aiConfig (this w).
Proof. eexists. repeat split. Qed.

(** What a call of [processImage] returns and leaves behind: a new object
    at the end of the heap, registered under the generated id. *)
Lemma processImage_run (w : World) :
  exists res,
    processImage env database image0 codes opts w =
    (Ok (length (heap w)),
     {| this := this (snd (register env image0 codes opts w));
        heap := heap w ++ [res] |}) /\
    requestId res = generateRequestId env /\
    (PaintDatabase.getPaintsByProductCodes database codes = [] ->
     res = {| requestId := generateRequestId env; status := Failed;
              generatedImages := []; error := Some noPaintFound;
              processingTimeMs := None |}) /\
    (PaintDatabase.getPaintsByProductCodes database codes <> [] ->
     status res = Completed /\ error res = None /\
     paint <$> generatedImages res = selected database opts codes /\
     (forall k g, generatedImages res !! k = Some g ->
        fst (generatePaintedImage env (job env k) image0 (paint g) opts w)
        = Ok g)).
Proof.
  destruct (register_run w) as [request [Hreg [Hid [Himg [Hcodes [Hopts Hcfg]]]]]].
  unfold processImage. unfold bind at 1. rewrite Hreg.
  set (w1 := {| this := this (snd (register env image0 codes opts w));
                heap := _ |}).
  destruct (PaintDatabase.getPaintsByProductCodes database codes)
    as [|p ps] eqn:E.
  - unfold bind, tryCatch.
    rewrite (executeImageProcessing_throws env database request
               (length (heap w)) w1) by now rewrite Hcodes.
    unfold fail, bind, mutate, write, ret. simpl.
    rewrite !alter_last. eexists. split; [reflexivity|].
    split; [reflexivity|]. split; [reflexivity|]. intros H. now destruct H.
  - destruct (executeImageProcessing_returns env database image0 opts request
                (length (heap w)) w1 Himg Hopts)
      as [imgs [Hrun [Hps Hjobs]]]; [now rewrite Hcodes, E|].
    unfold bind, tryCatch. rewrite Hrun.
    unfold mutate, write, ret. simpl.
    rewrite !alter_last. eexists. split; [reflexivity|].
    split; [reflexivity|]. split; [discriminate|]. intros _.
    split; [reflexivity|]. split; [reflexivity|].
    split; [simpl; now rewrite Hps, Hcodes|].
    intros k g Hk. simpl in Hk.
    rewrite <- (Hjobs k g Hk).
    apply generatePaintedImage_config. symmetry. exact Hcfg.
Qed.

End Submission.

Lemma take_min {A} (k : nat) (l : list A) :
  take k l = take (Nat.min (length l) k) l.
Proof.
  destruct (Nat.le_ge_cases k (length l)).
  - now rewrite Nat.min_r.
  - rewrite Nat.min_l by assumption. now rewrite !take_ge by lia.
Qed.

(** With [maxPatterns] unset or not negative, the call processes the first
    [effectiveMax] resolved paints. *)
Lemma selected_take (database : PaintDatabase.t)
    (opts : option ImageProcessOptions) (codes : list string) :
  (requestedPatterns opts = None \/
   exists n, requestedPatterns opts = Some n /\ (0 <= n)%Z) ->
  selected database opts codes =
  take (effectiveMax (requestedPatterns opts)
          (length (PaintDatabase.getPaintsByProductCodes database codes)))
       (PaintDatabase.getPaintsByProductCodes database codes).
Proof.
  unfold selected. fold (requestedPatterns opts).
  intros [-> | [n [-> Hn]]]; simpl.
  - rewrite slice_from_start by lia. now rewrite Nat2Z.id.
  - destruct (Z.eqb_spec n 0) as [->|Hz].
    + rewrite slice_from_start by lia. now rewrite Nat2Z.id.
    + now rewrite slice_from_start by lia.
Qed.

(** A negative [maxPatterns] cuts paints off the end instead. *)
Lemma selected_negative (database : PaintDatabase.t)
    (opts : option ImageProcessOptions) (codes : list string) (n : Z) :
  requestedPatterns opts = Some n -> (n < 0)%Z ->
  selected database opts codes =
  take (length (PaintDatabase.getPaintsByProductCodes database codes)
        - Z.to_nat (- n))
       (PaintDatabase.getPaintsByProductCodes database codes).
Proof.
  intros H Hn. unfold selected. fold (requestedPatterns opts). rewrite H.
  simpl. destruct (Z.eqb_spec n 0) as [->|_]; [lia|].
  now apply slice_from_start_negative.
Qed.

Section Returned.
Import ImageProcessor.
Variables (env : Env) (database : PaintDatabase.t).
Variables (image0 : string) (codes : list string).
Variable opts : option ImageProcessOptions.

Lemma processImage_returned (w : World) :
  exists res,
    returned (processImage env database image0 codes opts) w = Some res /\
    requestId res = generateRequestId env /\
    (PaintDatabase.getPaintsByProductCodes database codes = [] ->
     res = {| requestId := generateRequestId env; status := Failed;
              generatedImages := []; error := Some noPaintFound;
              processingTimeMs := None |}) /\
    (PaintDatabase.getPaintsByProductCodes database codes <> [] ->
     status res = Completed /\ error res = None /\
     paint <$> generatedImages res = selected database opts codes /\
     (forall k g, generatedImages res !! k = Some g ->
        fst (generatePaintedImage env (job env k) image0 (paint g) opts w)
        = Ok g)).
Proof.
  destruct (processImage_run env database image0 codes opts w)
    as [res [Hrun Hres]].
  exists res. split; [|exact Hres].
  unfold returned, deref. rewrite Hrun. simpl.
  now apply list_lookup_middle.
Qed.

End Returned.

(** C1, for [maxPatterns] unset or not negative.  When the product codes
    resolve to at least one paint and [maxPatterns] is unset or not
    negative, the returned result is [completed], it has
    min(resolvedCount, maxPatterns) generated images, an unset or zero
    [maxPatterns] counting as resolvedCount, and the i-th image's paint is
    the i-th resolved paint. *)
Theorem processImage_completed_count (env : ImageProcessor.Env)
    (database : PaintDatabase.t) (originalImage0 : string)
    (codes : list string) (opts : option ImageProcessOptions)
    (w : ImageProcessor.World) :
  let paints := PaintDatabase.getPaintsByProductCodes database codes in
  let count := Nat.min (length paints)
                 (effectiveMax (requestedPatterns opts) (length paints)) in
  paints <> [] ->
  (requestedPatterns opts = None \/
   exists n, requestedPatterns opts = Some n /\ (0 <= n)%Z) ->
  exists res,
    returned (ImageProcessor.processImage env database originalImage0 codes
                opts) w = Some res /\
    status res = Completed /\
    length (generatedImages res) = count /\
    paint <$> generatedImages res = take count paints /\
    (forall i g, generatedImages res !! i = Some g ->
       paints !! i = Some (paint g)).
Proof.
  intros paints count Hne Hmp.
  destruct (processImage_returned env database originalImage0 codes opts w)
    as [res [Hret [_ [_ Hok]]]].
  destruct (Hok Hne) as [Hst [_ [Hps _]]].
  rewrite (selected_take database opts codes Hmp), take_min in Hps.
  fold paints in Hps. fold count in Hps.
  exists res. split; [exact Hret|]. split; [exact Hst|].
  assert (length (generatedImages res) = count) as Hlen.
  { rewrite <- (length_fmap paint), Hps, length_take. unfold count. lia. }
  split; [exact Hlen|]. split; [exact Hps|].
  intros i g Hi.
  assert ((paint <$> generatedImages res) !! i = Some (paint g)) as H
    by now rewrite list_lookup_fmap, Hi.
  rewrite Hps in H. apply lookup_take_Some in H. tauto.
Qed.

Lemma processImage_completed_count_witness :
  exists res,
    returned (ImageProcessor.processImage sampleEnv PaintDatabase.create
                "http://x/house.jpg" ["ND-050"; "KP-200"; "NOPE"] (capTo 2))
             ImageProcessor.create = Some res /\
    status res = Completed /\
    length (generatedImages res) = 2 /\
    paint <$> generatedImages res =
    take 2 (PaintDatabase.getPaintsByProductCodes PaintDatabase.create
              ["ND-050"; "KP-200"; "NOPE"]) /\
    (forall i g, generatedImages res !! i = Some g ->
       PaintDatabase.getPaintsByProductCodes PaintDatabase.create
         ["ND-050"; "KP-200"; "NOPE"] !! i = Some (paint g)).
Proof.
  apply (processImage_completed_count sampleEnv PaintDatabase.create
           "http://x/house.jpg" ["ND-050"; "KP-200"; "NOPE"] (capTo 2)
           ImageProcessor.create).
  - vm_compute. discriminate.
  - right. exists 2%Z. split; [reflexivity | lia].
Defined.

(** Against C1 as stated, a negative [maxPatterns]: with two resolved
    paints and [maxPatterns = -1] the result is [completed] with one
    image, where the statement promises two. *)
Lemma processImage_negative_maxPatterns :
  exists res,
    returned (ImageProcessor.processImage sampleEnv PaintDatabase.create
                "http://x/house.jpg" ["ND-050"; "KP-200"] (capTo (-1)))
             ImageProcessor.create = Some res /\
    status res = Completed /\
    length (PaintDatabase.getPaintsByProductCodes PaintDatabase.create
              ["ND-050"; "KP-200"]) = 2 /\
    productCode <$> (paint <$> generatedImages res) = ["ND-050"] /\
    length (generatedImages res) <>
    Nat.min 2 (promisedMax (requestedPatterns (capTo (-1))) 2).
Proof.
  eexists. split; [vm_compute; reflexivity|].
  split; [reflexivity|]. split; [vm_compute; reflexivity|].
  split; [vm_compute; reflexivity|]. vm_compute. discriminate.
Defined.

(** C2, with the message the code throws.  When the product codes resolve
    to no paint, the returned result is [failed], has no generated images,
    and its error is the non-empty message of [noPaintFound]; and a
    returned result is [failed] only when no paint was resolved. *)
Theorem processImage_failed_iff_unresolved (env : ImageProcessor.Env)
    (database : PaintDatabase.t) (originalImage0 : string)
    (codes : list string) (opts : option ImageProcessOptions)
    (w : ImageProcessor.World) :
  exists res,
    returned (ImageProcessor.processImage env database originalImage0 codes
                opts) w = Some res /\
    (PaintDatabase.getPaintsByProductCodes database codes = [] ->
     status res = Failed /\ generatedImages res = [] /\
     error res = Some ImageProcessor.noPaintFound) /\
    ImageProcessor.noPaintFound = "指定された品番の塗料が見つかりません" /\
    ImageProcessor.noPaintFound <> "" /\
    (status res = Failed ->
     PaintDatabase.getPaintsByProductCodes database codes = []).
Proof.
  destruct (processImage_returned env database originalImage0 codes opts w)
    as [res [Hret [_ [Hnone Hsome]]]].
  exists res. split; [exact Hret|].
  split; [intros H; rewrite (Hnone H); repeat split|].
  split; [reflexivity|]. split; [discriminate|].
  intros Hst.
  destruct (PaintDatabase.getPaintsByProductCodes database codes) eqn:E;
    [reflexivity|].
  destruct Hsome as [Hc _]; [discriminate|]. congruence.
Qed.

Lemma processImage_failed_iff_unresolved_witness :
  exists res,
    returned (ImageProcessor.processImage sampleEnv PaintDatabase.create
                "http://x/house.jpg" ["NOPE"] None)
             ImageProcessor.create = Some res /\
    status res = Failed /\ generatedImages res = [] /\
    error res = Some ImageProcessor.noPaintFound.
Proof.
  destruct (processImage_failed_iff_unresolved sampleEnv PaintDatabase.create
              "http://x/house.jpg" ["NOPE"] None ImageProcessor.create)
    as [res [Hret [Hfailed _]]].
  exists res. split; [exact Hret|]. apply Hfailed. vm_compute. reflexivity.
Defined.

(** Against C2 as stated, which names the message "no matching paints":
    the error of a request with no product codes is a different text. *)
Lemma processImage_error_text :
  exists res,
    returned (ImageProcessor.processImage sampleEnv PaintDatabase.create
                "http://x/house.jpg" [] None)
             ImageProcessor.create = Some res /\
    status res = Failed /\
    error res = Some "指定された品番の塗料が見つかりません" /\
    error res <> Some "no matching paints".
Proof.
  eexists. split; [vm_compute; reflexivity|].
  split; [reflexivity|]. split; [reflexivity|]. discriminate.
Defined.

(** ** Degradation *)

Lemma generatePaintedImage_unavailable (env : ImageProcessor.Env)
    (jenv : ImageProcessor.JobEnv) (originalImage0 : string) (paint0 : Paint)
    (opts : option ImageProcessOptions) (w : ImageProcessor.World) (g : GeneratedImage) :
  unavailable (ImageProcessor.aiConfig (ImageProcessor.this w))
    (ImageProcessor.network jenv) originalImage0 paint0
    (ImageProcessor.generatePrompt env paint0) ->
  fst (ImageProcessor.generatePaintedImage env jenv originalImage0 paint0 opts w)
    = Ok g ->
  imageData g = ImageProcessor.mockImageProcessing originalImage0 paint0.
Proof.
  intros Hun.
  unfold ImageProcessor.generatePaintedImage, ImageProcessor.bind,
    ImageProcessor.read, ImageProcessor.ret, ImageProcessor.tryCatch.
  destruct (ImageProcessor.configured _) eqn:Hc;
    [|intros [= <-]; reflexivity].
  rewrite processWithAI_run.
  unfold unavailable in Hun. unfold ImageProcessor.configured in Hc.
  destruct (ImageProcessor.aiConfig (ImageProcessor.this w)) as [c|];
    [|discriminate].
  destruct Hun as [Hkey|Hun]; [congruence|].
  destruct (AIProvider.createAIProvider c) as [prov|e];
    [|intros [= <-]; reflexivity].
  destruct Hun as [Hready|[e He]].
  - rewrite Hready. simpl. intros [= <-]. reflexivity.
  - rewrite He. destruct (negb (AIProvider.isReady prov));
      intros [= <-]; reflexivity.
Qed.

(** C3. A job always yields an artifact for its paint, and when there is
    no AI config or API key, or the provider is not ready, or its
    [generateImage] fails, the artifact's [imageData] is the placeholder
    [mock_processed_<product code>_<first 20 characters of the source
    image>].  A request with at least one resolved paint ends [completed],
    never [failed], with one artifact per in-budget paint, each a
    placeholder when the backend was of no use to its job. *)
Theorem degradation_to_placeholder (env : ImageProcessor.Env)
    (originalImage0 : string) (opts : option ImageProcessOptions)
    (w : ImageProcessor.World) :
  (forall jenv paint0,
     exists g,
       ImageProcessor.generatePaintedImage env jenv originalImage0 paint0 opts w
       = (Ok g, w) /\
       paint g = paint0 /\
       (unavailable (ImageProcessor.aiConfig (ImageProcessor.this w))
          (ImageProcessor.network jenv) originalImage0 paint0
          (ImageProcessor.generatePrompt env paint0) ->
        imageData g =
        "mock_processed_" +:+ productCode paint0 +:+ "_" +:+
        String.substring 0 20 originalImage0)) /\
  (forall database codes,
     PaintDatabase.getPaintsByProductCodes database codes <> [] ->
     exists res,
       returned (ImageProcessor.processImage env database originalImage0 codes
                   opts) w = Some res /\
       status res = Completed /\ status res <> Failed /\
       paint <$> generatedImages res = selected database opts codes /\
       (forall k g,
          generatedImages res !! k = Some g ->
          unavailable (ImageProcessor.aiConfig (ImageProcessor.this w))
            (ImageProcessor.network (ImageProcessor.job env k))
            originalImage0 (paint g)
            (ImageProcessor.generatePrompt env (paint g)) ->
          imageData g =
          "mock_processed_" +:+ productCode (paint g) +:+ "_" +:+
          String.substring 0 20 originalImage0)).
Proof.
  split.
  - intros jenv paint0.
    destruct (generatePaintedImage_pure env originalImage0 opts jenv paint0 w)
      as [g [Hg Hp]].
    exists g. split; [exact Hg|]. split; [exact Hp|]. intros Hun.
    apply (generatePaintedImage_unavailable env jenv originalImage0 paint0
             opts w g Hun).
    now rewrite Hg.
  - intros database codes Hne.
    destruct (processImage_returned env database originalImage0 codes opts w)
      as [res [Hret [_ [_ Hok]]]].
    destruct (Hok Hne) as [Hst [_ [Hps Hjobs]]].
    exists res. split; [exact Hret|]. split; [exact Hst|].
    split; [rewrite Hst; discriminate|]. split; [exact Hps|].
    intros k g Hk Hun.
    apply (generatePaintedImage_unavailable env (ImageProcessor.job env k)
             originalImage0 (paint g) opts w g Hun).
    now apply Hjobs.
Qed.

Lemma degradation_to_placeholder_witness :
  exists res,
    returned (ImageProcessor.processImage sampleEnv PaintDatabase.create
                "http://x/house.jpg" ["ND-050"; "NOPE"; "ND-050"] None)
             configuredWorld = Some res /\
    status res = Completed /\
    length (generatedImages res) = 2 /\
    (forall k g,
       generatedImages res !! k = Some g ->
       imageData g =
       "mock_processed_" +:+ productCode (paint g) +:+ "_" +:+
       "http://x/house.jpg").
Proof.
  destruct (proj2 (degradation_to_placeholder sampleEnv "http://x/house.jpg"
                     None configuredWorld)
              PaintDatabase.create ["ND-050"; "NOPE"; "ND-050"])
    as [res [Hret [Hst [_ [Hps Hdeg]]]]].
  - vm_compute. discriminate.
  - exists res. split; [exact Hret|]. split; [exact Hst|].
    split; [rewrite <- (length_fmap paint), Hps; vm_compute; reflexivity|].
    intros k g Hk. apply (Hdeg k g Hk).
    right. right. exists (ErrorObj "fetch failed"). reflexivity.
Defined.

(** ** Sessions *)

Lemma executeImageProcessing_frame (env : ImageProcessor.Env)
    (database : PaintDatabase.t) (request : ImageProcessRequest)
    (result : ImageProcessor.loc) (w : ImageProcessor.World) :
  exists outcome h',
    ImageProcessor.executeImageProcessing env database request result w =
    (outcome, {| ImageProcessor.this := ImageProcessor.this w;
                 ImageProcessor.heap := h' |}) /\
    length h' = length (ImageProcessor.heap w) /\
    (forall j, j <> result -> h' !! j = ImageProcessor.heap w !! j) /\
    (forall j, status <$> h' !! j = status <$> ImageProcessor.heap w !! j).
Proof.
  destruct (PaintDatabase.getPaintsByProductCodes database
              (paintProductCodes request)) as [|p ps] eqn:E.
  - rewrite executeImageProcessing_throws by exact E.
    exists (Throw (ErrorObj ImageProcessor.noPaintFound)), (ImageProcessor.heap w).
    destruct w. repeat split.
  - destruct (executeImageProcessing_returns env database
                (originalImage request) (options request) request result w
                eq_refl eq_refl) as [imgs [-> _]]; [now rewrite E|].
    eexists _, _. split; [reflexivity|]. rewrite !length_alter.
    split; [reflexivity|]. split.
    + intros j Hj. assert (result <> j) by (intros ->; now apply Hj).
      rewrite list_lookup_alter_ne; [|assumption].
      rewrite list_lookup_alter_ne; [|assumption]. reflexivity.
    + intros j. destruct (decide (result = j)) as [<-|Hj].
      * rewrite !list_lookup_alter_eq.
        destruct (_ !! _); reflexivity.
      * rewrite list_lookup_alter_ne; [|assumption].
        rewrite list_lookup_alter_ne; [|assumption]. reflexivity.
Qed.

Lemma perform_effect (a : Session.Action) (s s' : Session.System) :
  Session.perform a s = Some s' -> effect s s' a.
Proof.
  destruct a as [env database image0 codes opts|i|i|config| |id|id| ];
    intros H; cbv beta iota delta [Session.perform] in H.
  - destruct (register_run env image0 codes opts (Session.world s))
      as [request [Hreg _]].
    rewrite Hreg in H. injection H as <-.
    now apply effect_register with (request := request).
  - destruct (Session.inflight s !! i) as [task|] eqn:Hi; [|discriminate].
    destruct (Session.task_phase task) eqn:Hp; try discriminate.
    destruct (executeImageProcessing_frame (Session.task_env task)
                (Session.task_database task) (Session.task_request task)
                (Session.task_result task) (Session.world s))
      as [outcome [h' [Hrun [Hlen [Hframe Hstatus]]]]].
    rewrite Hrun in H. injection H as <-.
    eapply (effect_execute _ _ i task);
      [exact Hi | exact Hp | exact Hlen | exact Hframe | exact Hstatus
      | reflexivity | reflexivity].
  - destruct (Session.inflight s !! i) as [task|] eqn:Hi; [|discriminate].
    destruct (Session.task_phase task) eqn:Hp; try discriminate;
      injection H as <-.
    + eapply (effect_settle _ _ i task (ImageProcessor.set_status Completed)
                Completed); try done; [congruence | now left].
    + eapply (effect_settle _ _ i task
                (fun res => ImageProcessor.set_error
                              (ImageProcessor.errorMessage e)
                              (ImageProcessor.set_status Failed res))
                Failed); try done; [congruence | now right|].
      unfold objects. simpl. now rewrite list_alter_alter_eq.
  - injection H as <-. now apply effect_quiet.
  - injection H as <-. now apply effect_clear.
  - injection H as <-. now apply effect_quiet.
  - injection H as <-. now apply effect_quiet.
  - injection H as <-. now apply effect_quiet.
Qed.

Lemma invariant_initial : invariant Session.initial.
Proof.
  split.
  - intros id l H. unfold store in H. simpl in H.
    now rewrite lookup_empty in H.
  - intros l res H. discriminate.
  - intros i task H. discriminate.
  - constructor.
Qed.

Lemma owned_lt (s : Session.System) (i : nat) (task : Session.Task) :
  invariant s -> Session.inflight s !! i = Some task ->
  Session.task_result task < length (objects s).
Proof.
  intros Hinv Hi. apply lookup_lt_is_Some.
  apply (fmap_is_Some status). rewrite (inv_owned s Hinv i task Hi). eauto.
Qed.

Lemma invariant_effect (s s' : Session.System) (a : Session.Action) :
  invariant s -> effect s s' a -> invariant s'.
Proof.
  intros Hinv Heff.
  destruct Heff as
    [env database image0 codes opts request Hobj Hstore Hfl
    |i task p Hi Hp Hlen Hframe Hstatus Hstore Hfl
    |i task f st Hi Hp Hst Hf Hobj Hstore Hfl
    |Hobj Hstore Hfl
    |a Hq Hobj Hstore Hfl].
  - split.
    + intros id l. rewrite Hstore, Hobj, length_app. simpl.
      rewrite lookup_insert. case_decide.
      * intros [= <-]. lia.
      * intros H'. pose proof (inv_stored s Hinv id l H'). lia.
    + intros l res. rewrite Hobj. intros [H|[_ H]]%lookup_app_Some.
      * now apply (inv_status s Hinv l).
      * destruct (l - length (objects s)); [|discriminate].
        injection H as <-. discriminate.
    + intros j task. rewrite Hfl, Hobj.
      intros [H|[_ H]]%lookup_app_Some.
      * pose proof (inv_owned s Hinv j task H) as Hown.
        destruct (objects s !! Session.task_result task) as [res|] eqn:E;
          [|discriminate].
        now rewrite (lookup_app_l_Some _ _ _ _ E).
      * destruct (j - length (Session.inflight s)); [|discriminate].
        injection H as <-. simpl. now rewrite list_lookup_middle.
    + rewrite Hfl, fmap_app. apply NoDup_app.
      split; [apply (inv_distinct s Hinv)|]. split; [|apply NoDup_singleton].
      intros l [task [-> [j Hj]%list_elem_of_lookup]]%list_elem_of_fmap.
      pose proof (owned_lt s j task Hinv Hj). simpl.
      intros Heq%list_elem_of_singleton. lia.
  - split.
    + intros id l. rewrite Hstore, Hlen. apply (inv_stored s Hinv).
    + intros l res H. pose proof (Hstatus l) as E. rewrite H in E. simpl in E.
      destruct (objects s !! l) as [res0|] eqn:E0; [|discriminate].
      injection E as E. rewrite E. now apply (inv_status s Hinv l).
    + intros j task'. rewrite Hfl, Hstatus.
      intros [[-> [<- _]]|[_ H]]%list_lookup_insert_Some.
      * apply (inv_owned s Hinv j task Hi).
      * apply (inv_owned s Hinv j task' H).
    + rewrite Hfl, list_fmap_insert. simpl.
      rewrite list_insert_id; [apply (inv_distinct s Hinv)|].
      now rewrite list_lookup_fmap, Hi.
  - split.
    + intros id l. rewrite Hstore, Hobj, length_alter.
      apply (inv_stored s Hinv).
    + intros l res. rewrite Hobj.
      destruct (decide (Session.task_result task = l)) as [<-|Hne].
      * rewrite list_lookup_alter_eq.
        destruct (objects s !! Session.task_result task); [|discriminate].
        intros [= <-]. rewrite Hf. destruct Hst as [-> | ->]; discriminate.
      * rewrite list_lookup_alter_ne by exact Hne.
        apply (inv_status s Hinv l).
    + intros j task'. rewrite Hfl, Hobj, list_lookup_delete. intros Hj.
      assert (Session.task_result task <> Session.task_result task') as Hne.
      { intros Heq.
        assert (i = (if decide (j < i) then j else S j)) as Hij.
        { apply (NoDup_lookup _ _ _ (Session.task_result task)
                   (inv_distinct s Hinv)).
          - now rewrite list_lookup_fmap, Hi.
          - now rewrite list_lookup_fmap, Hj, Heq. }
        case_decide; lia. }
      rewrite list_lookup_alter_ne by exact Hne.
      now apply (inv_owned s Hinv _ task' Hj).
    + rewrite Hfl, list_fmap_delete.
      apply (sublist_NoDup _ _ (inv_distinct s Hinv)), sublist_delete.
  - split.
    + intros id l. rewrite Hstore, lookup_empty. discriminate.
    + rewrite Hobj. apply (inv_status s Hinv).
    + rewrite Hfl, Hobj. apply (inv_owned s Hinv).
    + rewrite Hfl. apply (inv_distinct s Hinv).
  - split.
    + rewrite Hstore, Hobj. apply (inv_stored s Hinv).
    + rewrite Hobj. apply (inv_status s Hinv).
    + rewrite Hfl, Hobj. apply (inv_owned s Hinv).
    + rewrite Hfl. apply (inv_distinct s Hinv).
Qed.

Lemma invariant_run (actions : list Session.Action) :
  forall s s', invariant s -> Session.run actions s = Some s' -> invariant s'.
Proof.
  induction actions as [|a actions IH]; intros s s' Hinv Hrun; simpl in Hrun.
  - now injection Hrun as <-.
  - destruct (Session.perform a s) as [s1|] eqn:Ha; [|discriminate].
    apply (IH s1 s'); [|exact Hrun].
    apply (invariant_effect s s1 a Hinv), perform_effect, Ha.
Qed.

Lemma invariant_reachable (s : Session.System) :
  Session.reachable s -> invariant s.
Proof.
  intros [actions Hrun].
  apply (invariant_run actions Session.initial s invariant_initial Hrun).
Qed.

(** ** Statistics *)

Lemma computed_Some {A} (o : option A) :
  match o with Some _ => true | None => false end = true ->
  exists a, o = Some a.
Proof. destruct o; [eauto | discriminate]. Defined.

Lemma status_partition (w : ImageProcessor.World) (ls : list nat) :
  (forall l, l ∈ ls ->
     exists res, ImageProcessor.heap w !! l = Some res /\ status res <> Pending) ->
  length ls =
  length (filter (ImageProcessor.hasStatus w Completed) ls) +
  length (filter (ImageProcessor.hasStatus w Failed) ls) +
  length (filter (ImageProcessor.hasStatus w Processing) ls).
Proof.
  induction ls as [|l ls IH]; intros Hall; [reflexivity|].
  destruct (Hall l) as [res [Hl Hst]]; [apply list_elem_of_here|].
  assert (forall st, ImageProcessor.hasStatus w st l <-> status res = st)
    as Hiff.
  { intros st. unfold ImageProcessor.hasStatus. rewrite Hl. simpl.
    split; congruence. }
  rewrite !filter_cons. simpl. rewrite IH
    by (intros l' Hl'; apply Hall; now apply list_elem_of_further).
  destruct (decide (ImageProcessor.hasStatus w Completed l)) as [H1|H1],
    (decide (ImageProcessor.hasStatus w Failed l)) as [H2|H2],
    (decide (ImageProcessor.hasStatus w Processing l)) as [H3|H3];
    rewrite Hiff in H1, H2, H3; simpl;
    destruct (status res); try congruence; lia.
Qed.

Lemma stored_defined (s : Session.System) (id : string) :
  invariant s -> is_Some (store s !! id) ->
  exists res, Session.stored s id = Some res /\ status res <> Pending.
Proof.
  intros Hinv [l Hl].
  destruct (lookup_lt_is_Some_2 (objects s) l (inv_stored s Hinv id l Hl))
    as [res Hres].
  exists res. split; [|apply (inv_status s Hinv l res Hres)].
  unfold Session.stored, ImageProcessor.getResult, ImageProcessor.read,
    ImageProcessor.deref.
  simpl. unfold store in Hl. now rewrite Hl.
Qed.

(** C10. In every state a session reaches, [getStatistics] reports
    totalRequests = completedRequests + failedRequests +
    processingRequests, the total being the size of the result store, and
    no stored result is [pending]. *)
Theorem statistics_partition (s : Session.System) :
  Session.reachable s ->
  exists st,
    Session.statistics s = Some st /\
    ImageProcessor.totalRequests st =
      ImageProcessor.completedRequests st + ImageProcessor.failedRequests st +
      ImageProcessor.processingRequests st /\
    ImageProcessor.totalRequests st = size (store s) /\
    (forall id, is_Some (store s !! id) ->
       exists res, Session.stored s id = Some res /\ status res <> Pending).
Proof.
  intros Hinv%invariant_reachable.
  eexists. split; [reflexivity|]. split; [|split].
  - simpl. apply status_partition.
    intros l [[id l'] [-> Hin]]%list_elem_of_fmap.
    apply elem_of_map_to_list in Hin. simpl.
    destruct (lookup_lt_is_Some_2 (objects s) l' (inv_stored s Hinv id l' Hin))
      as [res Hres].
    exists res. split; [exact Hres|]. apply (inv_status s Hinv l' res Hres).
  - simpl. now rewrite length_fmap, length_map_to_list.
  - intros id. now apply stored_defined.
Qed.

Lemma statistics_partition_witness :
  exists s st,
    Session.run overlappingCalls Session.initial = Some s /\
    Session.statistics s = Some st /\
    ImageProcessor.totalRequests st =
      ImageProcessor.completedRequests st + ImageProcessor.failedRequests st +
      ImageProcessor.processingRequests st /\
    ImageProcessor.totalRequests st = size (store s).
Proof.
  destruct (computed_Some (Session.run overlappingCalls Session.initial))
    as [s E]; [vm_compute; reflexivity|].
  destruct (statistics_partition s (ex_intro _ overlappingCalls E))
    as [st [H1 [H2 [H3 _]]]].
  exists s, st. repeat split; assumption.
Defined.

Example overlappingCalls_statistics :
  (Session.run overlappingCalls Session.initial ≫= Session.statistics) =
  Some {| ImageProcessor.totalRequests := 2;
          ImageProcessor.completedRequests := 1;
          ImageProcessor.failedRequests := 0;
          ImageProcessor.processingRequests := 1 |}.
Proof. vm_compute. reflexivity. Qed.

(** ** The result store over time *)

Lemma store_frame (s s' : Session.System) (a : Session.Action) (id : string) :
  effect s s' a -> a <> Session.CallClearCache -> ~ Session.registers a id ->
  store s' !! id = store s !! id.
Proof.
  intros [env database image0 codes opts request Hobj Hstore Hfl
         |i task p Hi Hp Hlen Hframe Hstatus Hstore Hfl
         |i task f st Hi Hp Hst Hf Hobj Hstore Hfl
         |Hobj Hstore Hfl
         |a' Hq Hobj Hstore Hfl] Hclear Hreg.
  - rewrite Hstore. apply lookup_insert_ne. exact Hreg.
  - now rewrite Hstore.
  - now rewrite Hstore.
  - now destruct Hclear.
  - now rewrite Hstore.
Qed.

(** An object with a terminal status is never written again. *)
Lemma terminal_frame (s s' : Session.System) (a : Session.Action)
    (l : nat) (res : ImageProcessResult) :
  invariant s -> effect s s' a ->
  objects s !! l = Some res -> terminal (status res) ->
  objects s' !! l = Some res.
Proof.
  intros Hinv Heff Hl Hterm.
  assert (forall i task, Session.inflight s !! i = Some task ->
            l <> Session.task_result task) as Hother.
  { intros i task Hi ->. pose proof (inv_owned s Hinv i task Hi) as Hown.
    rewrite Hl in Hown. simpl in Hown.
    destruct Hterm as [Ht|Ht]; rewrite Ht in Hown; discriminate. }
  destruct Heff as
    [env database image0 codes opts request Hobj Hstore Hfl
    |i task p Hi Hp Hlen Hframe Hstatus Hstore Hfl
    |i task f st Hi Hp Hst Hf Hobj Hstore Hfl
    |Hobj Hstore Hfl
    |a Hq Hobj Hstore Hfl].
  - rewrite Hobj. now apply lookup_app_l_Some.
  - rewrite Hframe; [exact Hl | now apply (Hother i)].
  - rewrite Hobj, list_lookup_alter_ne; [exact Hl|].
    intros Heq. now apply (Hother i task Hi).
  - now rewrite Hobj.
  - now rewrite Hobj.
Qed.

Lemma stored_lookup (s : Session.System) (id : string) :
  Session.stored s id = store s !! id ≫= (fun l => objects s !! l).
Proof.
  unfold Session.stored, ImageProcessor.getResult, ImageProcessor.read, store.
  simpl. now destruct (ImageProcessor.results _ !! id).
Qed.

(** C8, with [clearCache] set apart.  A call of [processImage] puts its
    new result object in the store under the generated request id, which
    adds exactly one entry when that id is not yet stored; every action
    other than [clearCache] keeps all stored ids and leaves the entries of
    other ids as they are; [clearCache] empties the store. *)
Theorem results_grow_until_clearCache :
  (forall env database image0 codes opts w,
     ImageProcessor.results
       (ImageProcessor.this
          (snd (ImageProcessor.processImage env database image0 codes opts w)))
     = <[ImageProcessor.generateRequestId env :=
           length (ImageProcessor.heap w)]>
         (ImageProcessor.results (ImageProcessor.this w))) /\
  (forall a s s',
     Session.perform a s = Some s' ->
     (forall id, Session.registers a id ->
        store s' = <[id := length (objects s)]> (store s) /\
        objects s' !! length (objects s) =
          Some {| requestId := id; status := Processing;
                  generatedImages := []; error := None;
                  processingTimeMs := None |} /\
        (store s !! id = None -> size (store s') = S (size (store s)))) /\
     (forall id, a <> Session.CallClearCache -> ~ Session.registers a id ->
        store s' !! id = store s !! id) /\
     (a <> Session.CallClearCache -> dom (store s) ⊆ dom (store s')) /\
     (a = Session.CallClearCache -> store s' = ∅)).
Proof.
  split.
  { intros env database image0 codes opts w.
    destruct (processImage_run env database image0 codes opts w)
      as [res [-> _]].
    reflexivity. }
  intros a s s' Heff%perform_effect. split; [|split; [|split]].
  - intros id Hreg.
    destruct Heff as
      [env database image0 codes opts request Hobj Hstore Hfl
      |i task p Hi Hp Hlen Hframe Hstatus Hstore Hfl
      |i task f st Hi Hp Hst Hf Hobj Hstore Hfl
      |Hobj Hstore Hfl
      |a Hq Hobj Hstore Hfl]; try (now destruct Hreg);
      [|destruct a; now destruct Hreg].
    simpl in Hreg. subst id. split; [exact Hstore|]. split.
    + rewrite Hobj. now apply list_lookup_middle.
    + intros Hfresh. rewrite Hstore. now apply map_size_insert_None.
  - intros id Hclear Hreg. now apply (store_frame s s' a id).
  - intros Hclear id [l Hl]%elem_of_dom. apply elem_of_dom.
    destruct Heff as
      [env database image0 codes opts request Hobj Hstore Hfl
      |i task p Hi Hp Hlen Hframe Hstatus Hstore Hfl
      |i task f st Hi Hp Hst Hf Hobj Hstore Hfl
      |Hobj Hstore Hfl
      |a Hq Hobj Hstore Hfl]; rewrite ?Hstore; eauto; [|done].
    rewrite lookup_insert. case_decide; eauto.
  - intros ->. inversion Heff as [| | |? Hstore ?|? Hq]; [exact Hstore|].
    destruct Hq.
Qed.

Lemma results_grow_until_clearCache_witness :
  exists s',
    Session.perform
      (Session.CallProcessImage sampleEnv PaintDatabase.create
         "http://x/house.jpg" ["ND-050"] None) Session.initial = Some s' /\
    store s' = <[sampleId := 0]> (store Session.initial) /\
    size (store s') = 1.
Proof.
  destruct (computed_Some
              (Session.perform
                 (Session.CallProcessImage sampleEnv PaintDatabase.create
                    "http://x/house.jpg" ["ND-050"] None) Session.initial))
    as [s' E]; [vm_compute; reflexivity|].
  destruct (proj1 (proj2 results_grow_until_clearCache _ _ _ E) sampleId)
    as [Hstore [_ Hsize]]; [vm_compute; reflexivity|].
  exists s'. split; [exact E|]. split; [exact Hstore|].
  apply Hsize. reflexivity.
Defined.

(** Against C8 as stated, [clearCache], a public method: after one
    completed call the store holds one result, and [clearCache] leaves it
    empty, the completed result gone. *)
Lemma clearCache_removes_results :
  (fun s => size (store s)) <$> Session.run oneCall Session.initial = Some 1 /\
  (fun s => status <$> Session.stored s sampleId) <$>
    Session.run oneCall Session.initial = Some (Some Completed) /\
  (fun s => size (store s)) <$>
    Session.run (oneCall ++ [Session.CallClearCache]) Session.initial = Some 0 /\
  (fun s => Session.stored s sampleId) <$>
    Session.run (oneCall ++ [Session.CallClearCache]) Session.initial
  = Some None.
Proof. repeat split; vm_compute; reflexivity. Defined.

(** ** Reading a finished result *)

Lemma run_app (xs ys : list Session.Action) (s : Session.System) :
  Session.run (xs ++ ys) s = Session.run xs s ≫= Session.run ys.
Proof.
  revert s. induction xs as [|a xs IH]; intros s; [reflexivity|].
  simpl. destruct (Session.perform a s); [apply IH | reflexivity].
Qed.

Lemma run_terminal_frame (actions : list Session.Action) :
  forall s s' l res,
    invariant s -> Session.run actions s = Some s' ->
    objects s !! l = Some res -> terminal (status res) ->
    objects s' !! l = Some res.
Proof.
  induction actions as [|a actions IH]; intros s s' l res Hinv Hrun Hl Ht;
    simpl in Hrun.
  - now injection Hrun as <-.
  - destruct (Session.perform a s) as [s1|] eqn:Ha; [|discriminate].
    apply perform_effect in Ha.
    apply (IH s1 s' l res); [|exact Hrun| |exact Ht].
    + apply (invariant_effect s s1 a Hinv Ha).
    + apply (terminal_frame s s1 a l res Hinv Ha Hl Ht).
Qed.

Lemma run_store_frame (actions : list Session.Action) (id : string) :
  forall s s',
    Session.run actions s = Some s' ->
    Forall (fun a => a <> Session.CallClearCache /\ ~ Session.registers a id)
           actions ->
    store s' !! id = store s !! id.
Proof.
  induction actions as [|a actions IH]; intros s s' Hrun Hall; simpl in Hrun.
  - now injection Hrun as <-.
  - destruct (Session.perform a s) as [s1|] eqn:Ha; [|discriminate].
    apply perform_effect in Ha.
    apply Forall_cons in Hall as [[Hclear Hreg] Hall].
    rewrite (IH s1 s' Hrun Hall).
    apply (store_frame s s1 a id Ha Hclear Hreg).
Qed.

(** C9. [getResult] reads and changes nothing, and once a stored result
    is [completed] (or [failed]) its object is never written again: the
    reference [getResult] handed out reads the same whatever happens
    later, and as long as the store is not cleared and the request id is
    not registered anew, later calls of [getResult] return the identical
    result. *)
Theorem getResult_terminal_stable (s : Session.System) (id : string)
    (res : ImageProcessResult) :
  Session.reachable s ->
  Session.stored s id = Some res ->
  terminal (status res) ->
  Session.perform (Session.CallGetResult id) s = Some s /\
  (forall actions s',
     Session.run actions s = Some s' ->
     (forall l, store s !! id = Some l -> objects s' !! l = Some res) /\
     (Forall (fun a => a <> Session.CallClearCache /\
                       ~ Session.registers a id) actions ->
      Session.stored s' id = Some res)).
Proof.
  intros Hinv%invariant_reachable Hres Hterm.
  split; [now destruct s as [[] ?]|].
  intros actions s' Hrun.
  rewrite stored_lookup in Hres.
  destruct (store s !! id) as [l|] eqn:Hl; [|discriminate].
  simpl in Hres.
  pose proof (run_terminal_frame actions s s' l res Hinv Hrun Hres Hterm)
    as Hsame.
  split; [now intros l' [= <-]|].
  intros Hall. rewrite stored_lookup.
  rewrite (run_store_frame actions id s s' Hrun Hall), Hl. exact Hsame.
Qed.

Lemma getResult_terminal_stable_witness :
  exists s s' res,
    Session.run oneCall Session.initial = Some s /\
    Session.run laterActions s = Some s' /\
    Session.stored s sampleId = Some res /\
    status res = Completed /\
    Session.stored s' sampleId = Some res.
Proof.
  destruct (computed_Some (Session.run oneCall Session.initial))
    as [s E]; [vm_compute; reflexivity|].
  destruct (computed_Some
              (Session.run (oneCall ++ laterActions) Session.initial))
    as [s' E']; [vm_compute; reflexivity|].
  rewrite run_app, E in E'.
  change (Session.run laterActions s = Some s') in E'.
  destruct (computed_Some
              (Session.run oneCall Session.initial ≫=
                 fun s => Session.stored s sampleId))
    as [res Hres]; [vm_compute; reflexivity|].
  rewrite E in Hres. change (Session.stored s sampleId = Some res) in Hres.
  assert (status res = Completed) as Hst.
  { assert ((fun s => status <$> Session.stored s sampleId) <$>
              Session.run oneCall Session.initial = Some (Some Completed)) as H
      by (vm_compute; reflexivity).
    rewrite E in H. simpl in H. rewrite Hres in H. now injection H. }
  exists s, s', res. split; [exact E|]. split; [exact E'|].
  split; [exact Hres|]. split; [exact Hst|].
  apply (proj2 (getResult_terminal_stable s sampleId res
                  (ex_intro _ oneCall E) Hres (or_introl Hst))
           laterActions s' E').
  unfold laterActions.
  repeat (apply List.Forall_cons;
          [split; [discriminate
                  | first [intros H; vm_compute in H; discriminate H | intros []]]
          |]).
  constructor.
Defined.

(** ** A call and its steps *)

(** A call of [processImage] that nothing interrupts is the three steps of
    the session taken in a row: register, execute, settle. *)
Lemma processImage_as_actions (env : ImageProcessor.Env)
    (database : PaintDatabase.t) (image0 : string) (codes : list string)
    (opts : option ImageProcessOptions) (s : Session.System) :
  Session.run
    [ Session.CallProcessImage env database image0 codes opts;
      Session.Execute (length (Session.inflight s));
      Session.Settle (length (Session.inflight s)) ] s =
  Some {| Session.world :=
            snd (ImageProcessor.processImage env database image0 codes opts
                   (Session.world s));
          Session.inflight := Session.inflight s |}.
Proof.
  destruct (register_run env image0 codes opts (Session.world s))
    as [request [Hreg _]].
  unfold ImageProcessor.processImage.
  unfold ImageProcessor.bind at 1. unfold ImageProcessor.bind at 1.
  unfold ImageProcessor.tryCatch, ImageProcessor.bind at 1.
  unfold Session.run. unfold Session.perform at 1. rewrite Hreg.
  set (w1 := {| ImageProcessor.this := _; ImageProcessor.heap := _ |}).
  set (task := {| Session.task_env := env; Session.task_database := database;
                  Session.task_request := request;
                  Session.task_result := length (ImageProcessor.heap (Session.world s));
                  Session.task_phase := Session.Running |}).
  unfold Session.perform at 1. cbn [Session.inflight Session.world].
  rewrite list_lookup_middle by reflexivity.
  cbn [Session.task_phase Session.task_env Session.task_database
       Session.task_request Session.task_result task].
  destruct (ImageProcessor.executeImageProcessing env database request
              (length (ImageProcessor.heap (Session.world s))) w1)
    as [[[]|e] w2];
    unfold Session.perform; cbn [Session.inflight Session.world];
    rewrite insert_app_r_alt, Nat.sub_diag by lia;
    cbn [insert list_insert];
    rewrite list_lookup_middle by reflexivity;
    cbn [Session.task_phase Session.with_phase Session.task_result task];
    rewrite delete_middle, app_nil_r.
  - unfold ImageProcessor.mutate, ImageProcessor.write, ImageProcessor.ret.
    reflexivity.
  - unfold ImageProcessor.fail, ImageProcessor.bind, ImageProcessor.mutate,
      ImageProcessor.write, ImageProcessor.ret.
    reflexivity.
Qed.

(** * Further properties of the catalog *)

Section Catalog.
Import PaintDatabase.

Lemma getAllPaints_In (db : t) (p : Paint) :
  In p (getAllPaints db) <-> exists code, paints db !! code = Some p.
Proof.
  unfold getAllPaints. rewrite <- list_elem_of_In, list_elem_of_fmap. split.
  - intros [[code q] [-> Hin]]. exists code. now apply elem_of_map_to_list.
  - intros [code H]. exists (code, p). split; [reflexivity|].
    now apply elem_of_map_to_list.
Qed.

Lemma getAllPaints_length (db : t) : length (getAllPaints db) = size (paints db).
Proof. unfold getAllPaints. now rewrite length_fmap, length_map_to_list. Qed.

Lemma filterDefined_omap {A B} (f : A -> option B) (l : list A) :
  filterDefined (map f l) = omap f l.
Proof.
  induction l as [|a l IH]; [reflexivity|]. simpl. rewrite IH.
  now destruct (f a).
Qed.

End Catalog.

(** X1. A paint added to the catalog is found under its own product code
    and resolves to itself, every other code reads as before, and the
    catalog grows by one paint when the code was free and keeps its size
    when the paint replaces the one filed under that code. *)
Theorem addPaint_lookup (db : PaintDatabase.t) (p : Paint) :
  PaintDatabase.getPaintByProductCode (PaintDatabase.addPaint p db)
    (productCode p) = Some p /\
  PaintDatabase.getPaintsByProductCodes (PaintDatabase.addPaint p db)
    [productCode p] = [p] /\
  (forall code, code <> productCode p ->
     PaintDatabase.getPaintByProductCode (PaintDatabase.addPaint p db) code =
     PaintDatabase.getPaintByProductCode db code) /\
  (PaintDatabase.getPaintByProductCode db (productCode p) = None ->
   length (PaintDatabase.getAllPaints (PaintDatabase.addPaint p db)) =
   S (length (PaintDatabase.getAllPaints db))) /\
  (is_Some (PaintDatabase.getPaintByProductCode db (productCode p)) ->
   length (PaintDatabase.getAllPaints (PaintDatabase.addPaint p db)) =
   length (PaintDatabase.getAllPaints db)).
Proof.
  unfold PaintDatabase.getPaintByProductCode, PaintDatabase.addPaint.
  assert (<[productCode p:=p]> (PaintDatabase.paints db) !! productCode p
          = Some p) as Hp by apply lookup_insert_eq.
  split; [exact Hp|]. split.
  { unfold PaintDatabase.getPaintsByProductCodes,
      PaintDatabase.getPaintByProductCode. simpl. now rewrite Hp. }
  split; [intros code Hne; now apply lookup_insert_ne|].
  split.
  - intros Hnone. rewrite !getAllPaints_length. simpl.
    now apply map_size_insert_None.
  - intros Hsome. rewrite !getAllPaints_length. simpl.
    now apply map_size_insert_Some.
Qed.

Lemma addPaint_lookup_witness :
  length (PaintDatabase.getAllPaints
            (PaintDatabase.addPaint astecPaint PaintDatabase.create)) =
  S (length (PaintDatabase.getAllPaints PaintDatabase.create)).
Proof.
  apply (addPaint_lookup PaintDatabase.create astecPaint).
  vm_compute. reflexivity.
Defined.

Lemma resolve_filter_codes (db : PaintDatabase.t) (code : string)
    (codes : list string) :
  PaintDatabase.getPaintsByProductCodes
    (snd (PaintDatabase.deletePaint code db)) codes =
  PaintDatabase.getPaintsByProductCodes db
    (List.filter (fun c => negb (String.eqb c code)) codes).
Proof.
  induction codes as [|c codes IH]; [reflexivity|].
  rewrite resolve_cons, IH. simpl List.filter.
  unfold PaintDatabase.getPaintByProductCode. simpl.
  destruct (String.eqb_spec c code) as [->|Hne]; simpl.
  - now rewrite lookup_delete_eq.
  - rewrite resolve_cons. unfold PaintDatabase.getPaintByProductCode.
    now rewrite lookup_delete_ne by congruence.
Qed.

(** X2. [deletePaint] reports whether the code was filed; afterwards the
    code reads as missing, every other code reads as before, resolution
    behaves as if the deleted code had been struck from the request, a
    code that was not filed leaves the catalog as it was, and deleting a
    paint just added under a free code restores the catalog. *)
Theorem deletePaint_spec (db : PaintDatabase.t) (code : string) :
  (fst (PaintDatabase.deletePaint code db) = true <->
   is_Some (PaintDatabase.getPaintByProductCode db code)) /\
  PaintDatabase.getPaintByProductCode
    (snd (PaintDatabase.deletePaint code db)) code = None /\
  (forall other, other <> code ->
     PaintDatabase.getPaintByProductCode
       (snd (PaintDatabase.deletePaint code db)) other =
     PaintDatabase.getPaintByProductCode db other) /\
  (forall codes,
     PaintDatabase.getPaintsByProductCodes
       (snd (PaintDatabase.deletePaint code db)) codes =
     PaintDatabase.getPaintsByProductCodes db
       (List.filter (fun c => negb (String.eqb c code)) codes)) /\
  (PaintDatabase.getPaintByProductCode db code = None ->
   snd (PaintDatabase.deletePaint code db) = db) /\
  (forall p,
     productCode p = code ->
     PaintDatabase.getPaintByProductCode db code = None ->
     snd (PaintDatabase.deletePaint code (PaintDatabase.addPaint p db)) = db).
Proof.
  unfold PaintDatabase.getPaintByProductCode.
  split; [apply bool_decide_eq_true|].
  split; [apply lookup_delete_eq|].
  split; [intros other Hne; apply lookup_delete_ne; congruence|].
  split; [apply resolve_filter_codes|].
  split.
  - intros Hnone. destruct db as [m]. simpl in *. now rewrite delete_id.
  - intros p <- Hnone. destruct db as [m]. simpl in *.
    now rewrite delete_insert_id.
Qed.

Lemma deletePaint_spec_witness :
  snd (PaintDatabase.deletePaint "AP-400"
         (PaintDatabase.addPaint astecPaint PaintDatabase.create)) =
  PaintDatabase.create.
Proof.
  apply (deletePaint_spec PaintDatabase.create "AP-400");
    vm_compute; reflexivity.
Defined.

(** X3. [updatePaint] on a code that is not filed returns [false] and
    changes nothing.  On a filed code it returns [true] and files, under
    the same code, the old paint with the given keys replaced; every other
    code reads as before and the catalog keeps its size.  The paint stays
    filed under the old code even when the update changes its
    [productCode], so a new product code that was not filed is still not
    found; an update that names no key leaves the catalog as it was. *)
Theorem updatePaint_spec (db : PaintDatabase.t) (code : string)
    (change : PartialPaint) :
  (PaintDatabase.getPaintByProductCode db code = None ->
   PaintDatabase.updatePaint code change db = (false, db)) /\
  (forall existing,
     PaintDatabase.getPaintByProductCode db code = Some existing ->
     let db' := snd (PaintDatabase.updatePaint code change db) in
     fst (PaintDatabase.updatePaint code change db) = true /\
     PaintDatabase.getPaintByProductCode db' code =
       Some (PaintDatabase.spread existing change) /\
     (forall other, other <> code ->
        PaintDatabase.getPaintByProductCode db' other =
        PaintDatabase.getPaintByProductCode db other) /\
     length (PaintDatabase.getAllPaints db') =
       length (PaintDatabase.getAllPaints db) /\
     (forall renamed,
        new_productCode change = Some renamed -> renamed <> code ->
        productCode (PaintDatabase.spread existing change) = renamed /\
        PaintDatabase.getPaintByProductCode db' renamed =
        PaintDatabase.getPaintByProductCode db renamed) /\
     (change = noChange -> db' = db)).
Proof.
  unfold PaintDatabase.getPaintByProductCode, PaintDatabase.updatePaint.
  split; [now intros ->|].
  intros existing Hex. rewrite Hex. cbn zeta. simpl fst. simpl snd.
  split; [reflexivity|]. split; [apply lookup_insert_eq|].
  split; [intros other Hne; apply lookup_insert_ne; congruence|].
  split.
  { rewrite !getAllPaints_length. simpl.
    apply map_size_insert_Some. rewrite Hex. eauto. }
  split.
  - intros renamed Hnew Hne. split; [simpl; now rewrite Hnew|].
    apply lookup_insert_ne. congruence.
  - intros ->. destruct db as [m]. simpl in *. f_equal.
    apply insert_id. rewrite Hex. now destruct existing.
Qed.

Lemma updatePaint_spec_witness :
  PaintDatabase.getPaintByProductCode
    (snd (PaintDatabase.updatePaint "AP-400"
            {| new_id := None; new_productCode := Some "AP-401";
               new_name := None; new_manufacturer := None; new_type := None;
               new_color := None; new_pricePerSqm := Some (Some 5200%Z);
               new_durabilityYears := None; new_description := None |}
            (PaintDatabase.addPaint astecPaint PaintDatabase.create)))
    "AP-401" =
  PaintDatabase.getPaintByProductCode
    (PaintDatabase.addPaint astecPaint PaintDatabase.create) "AP-401".
Proof.
  refine (proj2 (proj1 (proj2 (proj2 (proj2 (proj2
            (proj2 (updatePaint_spec
                      (PaintDatabase.addPaint astecPaint PaintDatabase.create)
                      "AP-400" _) astecPaint _)))))
            "AP-401" _ _)).
  - vm_compute. reflexivity.
  - reflexivity.
  - discriminate.
Defined.

(** ** Searching the catalog *)

Section Search.
Import PaintDatabase.
Variable lower : string -> string.

Lemma In_filter_given {A B} (o : option B) (f : B -> A -> bool) (l : list A)
    (x : A) :
  In x (match o with Some b => List.filter (f b) l | None => l end) <->
  In x l /\ (forall b, o = Some b -> f b x = true).
Proof.
  destruct o as [b|].
  - rewrite List.filter_In. split.
    + intros [H1 H2]. split; [exact H1|]. now intros b' [= <-].
    + intros [H1 H2]. split; [exact H1|]. now apply H2.
  - split; [intros H; split; [exact H | discriminate] | tauto].
Qed.

Lemma In_filter_named {A} (o : option string) (f : string -> A -> bool)
    (l : list A) (x : A) :
  In x (match o with
        | Some (String c rest) => List.filter (f (String c rest)) l
        | Some EmptyString | None => l
        end) <->
  In x l /\ (forall name, o = Some name -> name <> "" -> f name x = true).
Proof.
  destruct o as [[|c rest]|].
  - split; [intros H; split; [exact H|]; now intros name [= <-] | tauto].
  - rewrite List.filter_In. split.
    + intros [H1 H2]. split; [exact H1|]. now intros name [= <-] _.
    + intros [H1 H2]. split; [exact H1|]. now apply H2.
  - split; [intros H; split; [exact H | discriminate] | tauto].
Qed.

Lemma priceAtLeast_true (lo : Z) (p : Paint) :
  priceAtLeast lo p = true <->
  exists v, pricePerSqm p = Some v /\ v <> 0%Z /\ (lo <= v)%Z.
Proof.
  unfold priceAtLeast, truthy_int. destruct (pricePerSqm p) as [v|].
  - rewrite andb_true_iff, negb_true_iff, Z.eqb_neq, Z.leb_le. split.
    + intros [H1 H2]. exists v. auto.
    + intros [v' [[= <-] H]]. exact H.
  - split; [discriminate | intros [v [H _]]; discriminate].
Qed.

Lemma priceAtMost_true (hi : Z) (p : Paint) :
  priceAtMost hi p = true <->
  exists v, pricePerSqm p = Some v /\ v <> 0%Z /\ (v <= hi)%Z.
Proof.
  unfold priceAtMost, truthy_int. destruct (pricePerSqm p) as [v|].
  - rewrite andb_true_iff, negb_true_iff, Z.eqb_neq, Z.leb_le. split.
    + intros [H1 H2]. exists v. auto.
    + intros [v' [[= <-] H]]. exact H.
  - split; [discriminate | intros [v [H _]]; discriminate].
Qed.

Lemma searchPaints_In (c : PaintSearchCriteria) (db : t) (p : Paint) :
  In p (searchPaints lower c db) <->
  In p (getAllPaints db) /\ meets lower c p.
Proof.
  unfold searchPaints, meets. cbv zeta.
  assert (forall (l : list Paint),
            In p (match priceRange c with
                  | Some range =>
                    match range_max range with
                    | Some hi =>
                      List.filter (priceAtMost hi)
                        (match range_min range with
                         | Some lo => List.filter (priceAtLeast lo) l
                         | None => l
                         end)
                    | None =>
                      match range_min range with
                      | Some lo => List.filter (priceAtLeast lo) l
                      | None => l
                      end
                    end
                  | None => l
                  end) <->
            In p l /\
            (forall range lo, priceRange c = Some range ->
               range_min range = Some lo ->
               exists v, pricePerSqm p = Some v /\ v <> 0%Z /\ (lo <= v)%Z) /\
            (forall range hi, priceRange c = Some range ->
               range_max range = Some hi ->
               exists v, pricePerSqm p = Some v /\ v <> 0%Z /\ (v <= hi)%Z))
    as Hprice.
  { intros l. destruct (priceRange c) as [range|].
    - rewrite (In_filter_given (range_max range) priceAtMost),
        (In_filter_given (range_min range) priceAtLeast).
      split.
      + intros [[H1 H2] H3]. split; [exact H1|]. split.
        * intros range' lo [= <-] Hlo. apply priceAtLeast_true. now apply H2.
        * intros range' hi [= <-] Hhi. apply priceAtMost_true. now apply H3.
      + intros [H1 [H2 H3]]. split; [split; [exact H1|]|].
        * intros lo Hlo. apply priceAtLeast_true. now apply (H2 range).
        * intros hi Hhi. apply priceAtMost_true. now apply (H3 range).
    - split; [intros H; split; [exact H|]; split; discriminate | tauto]. }
  rewrite Hprice.
  rewrite (In_filter_named (by_productCode c)
             (fun code q => includes (productCode q) code)).
  rewrite (In_filter_named (by_colorName c)
             (fun name q => includes (lower (color_name (color q))) (lower name))).
  rewrite (In_filter_given (by_type c)
             (fun ty q => bool_decide (paint_type q = ty))).
  rewrite (In_filter_given (by_manufacturer c)
             (fun m q => bool_decide (manufacturer q = m))).
  split.
  - intros [[[[[H0 H1] H2] H3] H4] [H5 H6]]. split; [exact H0|].
    split; [intros m Hm; exact (bool_decide_eq_true_1 _ (H1 m Hm))|].
    split; [intros ty Hty; exact (bool_decide_eq_true_1 _ (H2 ty Hty))|].
    auto.
  - intros [H0 [H1 [H2 [H3 [H4 [H5 H6]]]]]].
    split; [|split; assumption].
    split; [|assumption]. split; [|assumption].
    split; [split; [exact H0|]|].
    + intros m Hm. exact (bool_decide_eq_true_2 _ (H1 m Hm)).
    + intros ty Hty. exact (bool_decide_eq_true_2 _ (H2 ty Hty)).
Qed.

End Search.

(** X4. [searchPaints] returns exactly the paints of the catalog that meet
    every criterion given (an empty [colorName] or [productCode] counts as
    not given); with no criterion it returns all paints. *)
Theorem searchPaints_sound_complete (lower : string -> string)
    (c : PaintSearchCriteria) (db : PaintDatabase.t) :
  (forall p,
     In p (PaintDatabase.searchPaints lower c db) <->
     In p (PaintDatabase.getAllPaints db) /\ meets lower c p) /\
  PaintDatabase.searchPaints lower anyPaint db = PaintDatabase.getAllPaints db.
Proof.
  split; [intros p; apply searchPaints_In | reflexivity].
Qed.

(** X5. Once a search gives a lower or an upper price bound, paints with no
    price and paints priced 0 are left out, whatever the bound: a minimum
    of 0 does not return them. *)
Theorem searchPaints_price_bound_needs_price (lower : string -> string)
    (c : PaintSearchCriteria) (db : PaintDatabase.t) (range : PriceRange)
    (p : Paint) :
  priceRange c = Some range ->
  is_Some (range_min range) \/ is_Some (range_max range) ->
  In p (PaintDatabase.searchPaints lower c db) ->
  exists v, pricePerSqm p = Some v /\ v <> 0%Z.
Proof.
  intros Hrange Hbound [_ [_ [_ [_ [_ [Hmin Hmax]]]]]]%searchPaints_In.
  destruct Hbound as [[lo Hlo]|[hi Hhi]].
  - destruct (Hmin range lo Hrange Hlo) as [v [H1 [H2 _]]]. eauto.
  - destruct (Hmax range hi Hrange Hhi) as [v [H1 [H2 _]]]. eauto.
Qed.

Lemma searchPaints_price_bound_needs_price_witness :
  exists v, pricePerSqm firstSample = Some v /\ v <> 0%Z.
Proof.
  apply (searchPaints_price_bound_needs_price lowerAscii pricedFromZero
           (PaintDatabase.addPaint astecPaint PaintDatabase.create)
           {| range_min := Some 0%Z; range_max := None |} firstSample).
  - reflexivity.
  - left. eauto.
  - apply (proj2 (searchPaints_In lowerAscii pricedFromZero
                    (PaintDatabase.addPaint astecPaint PaintDatabase.create)
                    firstSample)).
    split.
    + apply (proj2 (getAllPaints_In _ firstSample)).
      exists "ND-050". vm_compute. reflexivity.
    + unfold meets, pricedFromZero. cbn [by_manufacturer by_type by_colorName
        by_productCode priceRange].
      repeat split; try discriminate.
      * intros range lo [= <-] [= <-]. exists 2800%Z.
        split; [reflexivity|]. split; [discriminate | lia].
      * intros range hi [= <-] Hhi. discriminate Hhi.
Defined.

(** ** Catalog statistics *)

Section Tally.
Context {A K : Type} `{Countable K}.
Variable key : A -> K.

Lemma foldl_bump (l : list A) :
  forall (acc : gmap K nat) (k : K),
    foldl (fun acc x => PaintDatabase.bump (key x) acc) acc l !! k =
    match tally key k l with
    | 0 => acc !! k
    | S n => Some (default 0 (acc !! k) + S n)
    end.
Proof.
  unfold tally.
  induction l as [|x l IH]; intros acc k; [reflexivity|].
  simpl foldl. rewrite IH. simpl List.filter. unfold PaintDatabase.bump.
  destruct (decide (key x = k)) as [->|Hne].
  - rewrite bool_decide_eq_true_2 by reflexivity. simpl length.
    rewrite lookup_insert_eq. simpl.
    destruct (length _); f_equal; lia.
  - rewrite bool_decide_eq_false_2 by exact Hne.
    now rewrite lookup_insert_ne by exact Hne.
Qed.

End Tally.

Lemma foldl_pair {A B C} (f : A -> B -> B) (g : A -> C -> C) (l : list A) :
  forall (b : B) (c : C),
    foldl (fun acc x => (f x (fst acc), g x (snd acc))) (b, c) l =
    (foldl (fun b x => f x b) b l, foldl (fun c x => g x c) c l).
Proof.
  induction l as [|x l IH]; intros b c; [reflexivity|]. simpl. apply IH.
Qed.

Lemma tally_manufacturers (l : list Paint) :
  list_sum (map (fun m => tally manufacturer m l) allManufacturers) = length l.
Proof.
  unfold tally. induction l as [|p l IH]; [reflexivity|].
  simpl in *. destruct (manufacturer p); simpl; lia.
Qed.

(** X6. [getStatistics] counts every paint once: [totalPaints] is the
    number of paints filed, a manufacturer with [n > 0] paints has the
    entry [n] in [byManufacturer] and one with none has no entry, likewise
    for [byType], and the manufacturers' counts add up to [totalPaints]. *)
Theorem getStatistics_counts (db : PaintDatabase.t) :
  let st := PaintDatabase.getStatistics db in
  PaintDatabase.totalPaints st = size (PaintDatabase.paints db) /\
  (forall m,
     PaintDatabase.byManufacturer st !! m =
     match length (PaintDatabase.getPaintsByManufacturer db m) with
     | 0 => None
     | S n => Some (S n)
     end) /\
  (forall ty,
     PaintDatabase.byType st !! ty =
     match tally paint_type ty (PaintDatabase.getAllPaints db) with
     | 0 => None
     | S n => Some (S n)
     end) /\
  list_sum (map (fun m => length (PaintDatabase.getPaintsByManufacturer db m))
                allManufacturers) = PaintDatabase.totalPaints st.
Proof.
  unfold PaintDatabase.getStatistics. cbv zeta.
  rewrite (foldl_pair (fun p => PaintDatabase.bump (manufacturer p))
                      (fun p => PaintDatabase.bump (paint_type p))).
  cbn [fst snd PaintDatabase.totalPaints PaintDatabase.byManufacturer
       PaintDatabase.byType].
  split; [apply getAllPaints_length|]. split; [|split].
  - intros m. rewrite (foldl_bump manufacturer). rewrite lookup_empty.
    reflexivity.
  - intros ty. rewrite (foldl_bump paint_type). rewrite lookup_empty.
    reflexivity.
  - apply (tally_manufacturers (PaintDatabase.getAllPaints db)).
Qed.

(** ** A consistent index *)

Lemma indexed_insert (m : gmap string Paint) (p : Paint) :
  indexed {| PaintDatabase.paints := m |} ->
  indexed {| PaintDatabase.paints := <[productCode p := p]> m |}.
Proof.
  intros Hm code q. simpl. rewrite lookup_insert. case_decide.
  - now intros [= <-].
  - apply Hm.
Qed.

Lemma indexed_initializeSampleData (l : list Paint) :
  forall db,
    indexed db ->
    indexed (foldl (fun acc p =>
               {| PaintDatabase.paints :=
                    <[productCode p := p]> (PaintDatabase.paints acc) |}) db l).
Proof.
  induction l as [|p l IH]; intros db Hdb; [exact Hdb|].
  simpl. apply IH. destruct db as [m]. now apply indexed_insert.
Qed.

(** X7. The built-in catalog files every paint under its own product code,
    and [addPaint], [deletePaint] and an [updatePaint] that leaves
    [productCode] alone keep it so.  In such a catalog the product codes
    of the resolved paints are the requested codes that are filed, in the
    order of the request. *)
Theorem indexed_catalog :
  indexed PaintDatabase.create /\
  (forall db p, indexed db -> indexed (PaintDatabase.addPaint p db)) /\
  (forall db code,
     indexed db -> indexed (snd (PaintDatabase.deletePaint code db))) /\
  (forall db code change,
     indexed db ->
     new_productCode change = None \/ new_productCode change = Some code ->
     indexed (snd (PaintDatabase.updatePaint code change db))) /\
  (forall db codes,
     indexed db ->
     productCode <$> PaintDatabase.getPaintsByProductCodes db codes =
     List.filter
       (fun c => bool_decide (is_Some (PaintDatabase.getPaintByProductCode db c)))
       codes).
Proof.
  split; [|split; [|split; [|split]]].
  - apply indexed_initializeSampleData. intros code p H.
    simpl in H. now rewrite lookup_empty in H.
  - intros [m] p Hdb. now apply indexed_insert.
  - intros db code Hdb c p. simpl. rewrite lookup_delete. case_decide.
    + discriminate.
    + apply Hdb.
  - intros db code change Hdb Hchange. unfold PaintDatabase.updatePaint.
    destruct (PaintDatabase.paints db !! code) as [existing|] eqn:Hex;
      [|exact Hdb].
    intros c p. simpl. rewrite lookup_insert. case_decide.
    + intros [= <-]. subst c. simpl.
      destruct Hchange as [-> | ->]; simpl; [now apply Hdb | reflexivity].
    + apply Hdb.
  - intros db codes Hdb. induction codes as [|c codes IH]; [reflexivity|].
    rewrite resolve_cons. simpl List.filter.
    destruct (PaintDatabase.getPaintByProductCode db c) as [p|] eqn:Hc.
    + rewrite bool_decide_eq_true_2 by eauto.
      rewrite fmap_cons, IH. f_equal. now apply Hdb.
    + rewrite bool_decide_eq_false_2; [exact IH|]. now intros [? ?].
Qed.

Lemma indexed_catalog_witness :
  productCode <$>
    PaintDatabase.getPaintsByProductCodes PaintDatabase.create
      ["KP-200"; "NOPE"; "ND-050"; "KP-200"] =
  List.filter
    (fun c => bool_decide
                (is_Some (PaintDatabase.getPaintByProductCode
                            PaintDatabase.create c)))
    ["KP-200"; "NOPE"; "ND-050"; "KP-200"].
Proof.
  apply (proj2 (proj2 (proj2 (proj2 indexed_catalog)))).
  apply (proj1 indexed_catalog).
Defined.

(** * Further properties of the provider *)

Lemma slept_app (xs ys : list AIProvider.Event) :
  slept (xs ++ ys) = (slept xs + slept ys)%Z.
Proof.
  induction xs as [|[req|target attempt|ms] xs IH]; simpl; lia.
Qed.

Lemma rounds_counts (target : string) (n : nat) :
  forall first,
    posts (rounds target first n) = 0 /\
    gets (rounds target first n) = n /\
    slept (rounds target first n) = (5000 * Z.of_nat n)%Z.
Proof.
  induction n as [|n IH]; intros first; [repeat split|].
  destruct (IH (S first)) as [H1 [H2 H3]].
  unfold posts, gets in *. change (rounds target first (S n)) with
    (AIProvider.EvGet target first
       :: AIProvider.EvSleep AIProvider.pollInterval
       :: rounds target (S first) n).
  simpl. rewrite H1, H2, H3. unfold AIProvider.pollInterval.
  repeat split; lia.
Qed.

Lemma waitForCompletion_counts (net : AIProvider.Network)
    (config : AIProcessingConfig) (predictionId : string) :
  let events := fst (AIProvider.waitForCompletion net config predictionId) in
  posts events = 0 /\ gets events <= 60 /\
  (0 <= slept events <= 300000)%Z /\
  (slept events = 5000 * Z.of_nat (gets events) \/
   slept events = 5000 * (Z.of_nat (gets events) - 1))%Z.
Proof.
  destruct (pollLoop_events net config predictionId AIProvider.maxAttempts 0)
    as [n [Hn [[Hev Hfull]|[Hev Hearly]]]];
    unfold AIProvider.waitForCompletion; cbv zeta; rewrite Hev;
    destruct (rounds_counts (pollTarget predictionId) n 0) as [H1 [H2 H3]];
    unfold AIProvider.maxAttempts in *.
  - rewrite H1, H2, H3. repeat split; lia.
  - unfold posts, gets in *. rewrite !List.filter_app, !length_app, slept_app.
    rewrite H1, H2, H3. simpl. repeat split; lia.
Qed.

Ltac no_polling :=
  unfold posts, gets; simpl;
  split; [lia|]; split; [lia|]; split; [lia|]; split; [lia|];
  split; [first [discriminate | reflexivity]|]; intros H; inversion H.

(** X8. One call of the Replicate provider's [generateImage] sends at most
    one POST and at most 60 GETs and waits at most 300000 ms in steps of
    5000 ms; without an API key it does nothing on the network; and it
    polls only after the POST was answered with an ok status and a body
    that parses. *)
Theorem Replicate_generateImage_effort (config : AIProcessingConfig)
    (net : AIProvider.Network) (originalImage0 : string) (paint0 : Paint)
    (prompt0 : string) :
  let events :=
    fst (AIProvider.Replicate_generateImage config net originalImage0 paint0
           prompt0) in
  posts events <= 1 /\ gets events <= 60 /\
  (0 <= slept events <= 300000)%Z /\
  (slept events = 5000 * Z.of_nat (gets events) \/
   slept events = 5000 * (Z.of_nat (gets events) - 1))%Z /\
  (truthy_string (apiKey config) = false -> events = []) /\
  (0 < gets events ->
   exists statusText submitted,
     AIProvider.post net
       (AIProvider.submitRequest config originalImage0 prompt0) =
     AIProvider.Response true statusText (Ok submitted)).
Proof.
  unfold AIProvider.Replicate_generateImage.
  destruct (truthy_string (apiKey config)); simpl negb; cbv iota zeta;
    [|no_polling].
  destruct (AIProvider.post net _) as [e|[|] statusText [submitted|e]];
    simpl negb; cbv iota; try solve [no_polling].
  pose proof (waitForCompletion_counts net config
                (AIProvider.prediction_id submitted)) as Hw.
  cbv zeta in Hw.
  destruct (AIProvider.waitForCompletion net config
              (AIProvider.prediction_id submitted)) as [events outcome].
  simpl in *. destruct Hw as [H1 [H2 [H3 H4]]].
  unfold posts, gets in *. simpl.
  split; [lia|]. split; [exact H2|]. split; [exact H3|]. split; [exact H4|].
  split; [discriminate|]. eauto.
Qed.

Lemma Replicate_generateImage_effort_witness :
  fst (AIProvider.Replicate_generateImage
         {| provider := "replicate"; apiKey := Some ""; modelName := None;
            steps := None; guidanceScale := None; strength := None |}
         sampleNetwork "http://x/house.jpg" firstSample "a house exterior")
  = [].
Proof.
  apply (Replicate_generateImage_effort
           {| provider := "replicate"; apiKey := Some ""; modelName := None;
              steps := None; guidanceScale := None; strength := None |}
           sampleNetwork "http://x/house.jpg" firstSample "a house exterior").
  reflexivity.
Defined.

(** X9. A poll that cannot be fetched or whose body does not parse ends
    the wait at once: after [k] unfinished attempts (k < 60) the waiter
    fails with what the [k]-th poll threw, having made [k + 1] GETs and no
    further wait. *)
Theorem waitForCompletion_poll_failure (net : AIProvider.Network)
    (config : AIProcessingConfig) (predictionId : string) (k : nat)
    (e : Thrown) :
  k < 60 ->
  (forall j, j < k -> unfinished (reply net config predictionId j)) ->
  reply net config predictionId k = AIProvider.Rejected e \/
  (exists ok statusText,
     reply net config predictionId k =
     AIProvider.Response ok statusText (Throw e)) ->
  AIProvider.waitForCompletion net config predictionId =
  (rounds (pollTarget predictionId) 0 k ++
     [AIProvider.EvGet (pollTarget predictionId) k],
   Throw e).
Proof.
  intros Hk Hbefore Hfail. unfold AIProvider.waitForCompletion.
  replace AIProvider.maxAttempts with (k + S (59 - k))
    by (unfold AIProvider.maxAttempts; lia).
  rewrite pollLoop_skip by exact Hbefore.
  unfold reply in Hfail. simpl. fold (pollTarget predictionId).
  destruct Hfail as [-> | [ok [statusText ->]]]; reflexivity.
Qed.

Lemma waitForCompletion_poll_failure_witness :
  AIProvider.waitForCompletion deadNetwork sampleConfig "p1" =
  (rounds (pollTarget "p1") 0 0 ++ [AIProvider.EvGet (pollTarget "p1") 0],
   Throw (ErrorObj "fetch failed")).
Proof.
  apply (waitForCompletion_poll_failure deadNetwork sampleConfig "p1" 0
           (ErrorObj "fetch failed")).
  - lia.
  - intros j Hj. lia.
  - left. reflexivity.
Defined.

(** * Further properties of the processor *)

(** X10. With a config whose provider is not [replicate], no job reaches a
    backend: the provider made for it, if any, throws from [generateImage]
    without touching the network, and the artifact is the placeholder. *)
Theorem only_replicate_generates (env : ImageProcessor.Env)
    (jenv : ImageProcessor.JobEnv) (originalImage0 : string) (paint0 : Paint)
    (opts : option ImageProcessOptions) (w : ImageProcessor.World)
    (config : AIProcessingConfig) :
  ImageProcessor.aiConfig (ImageProcessor.this w) = Some config ->
  provider config <> "replicate" ->
  (forall prov net image1 paint1 prompt1,
     AIProvider.createAIProvider config = Ok prov ->
     fst (AIProvider.generateImage prov net image1 paint1 prompt1) = [] /\
     exists e,
       snd (AIProvider.generateImage prov net image1 paint1 prompt1) = Throw e)
  /\
  exists g,
    ImageProcessor.generatePaintedImage env jenv originalImage0 paint0 opts w
    = (Ok g, w) /\
    imageData g = ImageProcessor.mockImageProcessing originalImage0 paint0.
Proof.
  intros Hcfg Hprov.
  assert (forall prov net image1 paint1 prompt1,
            AIProvider.createAIProvider config = Ok prov ->
            fst (AIProvider.generateImage prov net image1 paint1 prompt1) = [] /\
            exists e,
              snd (AIProvider.generateImage prov net image1 paint1 prompt1)
              = Throw e) as Hthrows.
  { intros prov net image1 paint1 prompt1. unfold AIProvider.createAIProvider.
    apply String.eqb_neq in Hprov. rewrite Hprov.
    destruct (String.eqb (provider config) "stability-ai").
    - intros [= <-]. simpl. unfold AIProvider.StabilityAI_generateImage.
      destruct (negb _); simpl; eauto.
    - destruct (String.eqb (provider config) "local"); [|discriminate].
      intros [= <-]. simpl. eauto. }
  split; [exact Hthrows|].
  destruct (generatePaintedImage_pure env originalImage0 opts jenv paint0 w)
    as [g [Hg _]].
  exists g. split; [exact Hg|].
  apply (generatePaintedImage_unavailable env jenv originalImage0 paint0 opts
           w g); [|now rewrite Hg].
  unfold unavailable. rewrite Hcfg. right.
  destruct (AIProvider.createAIProvider config) as [prov|e] eqn:Hcreate;
    [|exact I].
  right.
  destruct (Hthrows prov (ImageProcessor.network jenv) originalImage0 paint0
              (ImageProcessor.generatePrompt env paint0) eq_refl)
    as [_ He].
  exact He.
Qed.

Lemma only_replicate_generates_witness :
  exists g,
    ImageProcessor.generatePaintedImage sampleEnv liveJob "http://x/house.jpg"
      firstSample None
      (snd (ImageProcessor.setAIConfig
              {| provider := "stability-ai"; apiKey := Some "sk_key";
                 modelName := None; steps := None; guidanceScale := None;
                 strength := None |} ImageProcessor.create))
    = (Ok g,
       snd (ImageProcessor.setAIConfig
              {| provider := "stability-ai"; apiKey := Some "sk_key";
                 modelName := None; steps := None; guidanceScale := None;
                 strength := None |} ImageProcessor.create)) /\
    imageData g =
    ImageProcessor.mockImageProcessing "http://x/house.jpg" firstSample.
Proof.
  apply (only_replicate_generates sampleEnv liveJob "http://x/house.jpg"
           firstSample None _
           {| provider := "stability-ai"; apiKey := Some "sk_key";
              modelName := None; steps := None; guidanceScale := None;
              strength := None |}).
  - reflexivity.
  - discriminate.
Defined.

(** X11. With the [replicate] provider configured, a job whose
    [generateImage] returns a URL yields an artifact with that URL as
    [imageData], made for the job's paint, and with the thumbnail derived
    from the URL: the URL itself when it starts with [http]. *)
Theorem backend_output_becomes_artifact (env : ImageProcessor.Env)
    (jenv : ImageProcessor.JobEnv) (originalImage0 : string) (paint0 : Paint)
    (opts : option ImageProcessOptions) (w : ImageProcessor.World)
    (config : AIProcessingConfig) (output0 : string) :
  ImageProcessor.aiConfig (ImageProcessor.this w) = Some config ->
  provider config = "replicate" ->
  snd (AIProvider.Replicate_generateImage config
         (ImageProcessor.network jenv) originalImage0 paint0
         (ImageProcessor.generatePrompt env paint0)) = Ok output0 ->
  exists g,
    ImageProcessor.generatePaintedImage env jenv originalImage0 paint0 opts w
    = (Ok g, w) /\
    paint g = paint0 /\
    imageData g = output0 /\
    thumbnail g = Some (ImageProcessor.generateThumbnail output0) /\
    (JS.startsWith output0 "http" = true -> thumbnail g = Some output0).
Proof.
  intros Hcfg Hprov Hout.
  assert (truthy_string (apiKey config) = true) as Hkey.
  { destruct (truthy_string (apiKey config)) eqn:E; [reflexivity|].
    unfold AIProvider.Replicate_generateImage in Hout. rewrite E in Hout.
    discriminate Hout. }
  unfold ImageProcessor.generatePaintedImage, ImageProcessor.bind,
    ImageProcessor.read, ImageProcessor.ret, ImageProcessor.tryCatch.
  rewrite Hcfg. unfold ImageProcessor.configured. rewrite Hkey.
  rewrite processWithAI_run, Hcfg.
  unfold AIProvider.createAIProvider. rewrite Hprov. simpl String.eqb.
  cbv iota. simpl AIProvider.isReady. rewrite Hkey. simpl negb. cbv iota.
  simpl AIProvider.generateImage. rewrite Hout.
  eexists. split; [reflexivity|]. simpl.
  split; [reflexivity|]. split; [reflexivity|]. split; [reflexivity|].
  intros Hhttp. unfold ImageProcessor.generateThumbnail. now rewrite Hhttp.
Qed.

Lemma backend_output_becomes_artifact_witness :
  exists g,
    ImageProcessor.generatePaintedImage sampleEnv liveJob "http://x/house.jpg"
      firstSample None configuredWorld = (Ok g, configuredWorld) /\
    paint g = firstSample /\
    imageData g = "https://img/1.png" /\
    thumbnail g = Some "https://img/1.png".
Proof.
  destruct (backend_output_becomes_artifact sampleEnv liveJob
              "http://x/house.jpg" firstSample None configuredWorld
              sampleConfig "https://img/1.png")
    as [g [H1 [H2 [H3 [_ H5]]]]]; try reflexivity.
  exists g. repeat split; try assumption. now apply H5.
Defined.

(** ** The result of a call, field by field *)

Section Result.
Import ImageProcessor.
Variables (env : Env) (database : PaintDatabase.t).
Variables (image0 : string) (codes : list string).

Lemma generateEach_same (o1 o2 : option ImageProcessOptions) (ps : list Paint) :
  forall i acc w1 w2,
    aiConfig (this w1) = aiConfig (this w2) ->
    fst (generateEach env image0 o1 i ps acc w1) =
    fst (generateEach env image0 o2 i ps acc w2).
Proof.
  induction ps as [|p ps IH]; intros i acc w1 w2 Hcfg; [reflexivity|].
  simpl. unfold bind.
  destruct (generatePaintedImage_pure env image0 o1 (job env i) p w1)
    as [g1 [Hg1 _]].
  destruct (generatePaintedImage_pure env image0 o2 (job env i) p w2)
    as [g2 [Hg2 _]].
  pose proof (generatePaintedImage_config env image0 o1 (job env i) p w1 w2
                Hcfg) as Hsame.
  change (generatePaintedImage env (job env i) image0 p o1 w2)
    with (generatePaintedImage env (job env i) image0 p o2 w2) in Hsame.
  rewrite Hg1, Hg2 in *. simpl in Hsame. injection Hsame as <-.
  now apply IH.
Qed.

(** The object a call leaves at the end of the heap. *)
Lemma processImage_object (opts : option ImageProcessOptions) (w : World) :
  processImage env database image0 codes opts w =
  (Ok (length (heap w)),
   {| this := this (snd (register env image0 codes opts w));
      heap := heap w ++
        [ match PaintDatabase.getPaintsByProductCodes database codes with
          | [] => {| requestId := generateRequestId env; status := Failed;
                     generatedImages := []; error := Some noPaintFound;
                     processingTimeMs := None |}
          | _ :: _ =>
            {| requestId := generateRequestId env; status := Completed;
               generatedImages := produced env database image0 codes opts w;
               error := None;
               processingTimeMs := Some (endTime env - startTime env)%Z |}
          end ] |}).
Proof.
  destruct (register_run env image0 codes opts w)
    as [request [Hreg [Hid [Himg [Hcodes [Hopts Hcfg]]]]]].
  unfold processImage. unfold bind at 1. rewrite Hreg.
  set (w1 := {| this := this (snd (register env image0 codes opts w));
                heap := _ |}).
  destruct (PaintDatabase.getPaintsByProductCodes database codes)
    as [|p ps] eqn:E.
  - unfold bind, tryCatch.
    rewrite (executeImageProcessing_throws env database request
               (length (heap w)) w1) by now rewrite Hcodes.
    unfold fail, bind, mutate, write, ret. simpl.
    now rewrite !alter_last.
  - unfold bind at 1. unfold tryCatch. unfold bind at 1.
    unfold executeImageProcessing. rewrite Hcodes, E.
    change (Nat.eqb (length (p :: ps)) 0) with false. cbv iota.
    rewrite Himg, Hopts. unfold bind at 1.
    assert (slice (p :: ps) 0%Z
              (or_int (options_maxPatterns request)
                      (Z.of_nat (length (p :: ps)))) =
            selected database opts codes) as Hsel.
    { unfold selected, options_maxPatterns. now rewrite E, Hopts. }
    rewrite Hsel.
    destruct (generateEach_run env image0 opts (selected database opts codes)
                0 [] w1) as [imgs [Hrun _]].
    rewrite Hrun. simpl app.
    assert (produced env database image0 codes opts w = imgs) as ->.
    { unfold produced.
      rewrite (generateEach_same opts opts (selected database opts codes)
                 0 [] w w1) by (symmetry; exact Hcfg).
      now rewrite Hrun. }
    unfold bind, mutate, write, ret. simpl.
    now rewrite !alter_last.
Qed.

End Result.

(** X12. The result a call returns carries the generated request id, and
    under that id [getResult] hands out the very object returned and
    [getStatus] its status.  The result is either [completed], with no
    error and the elapsed time [endTime - startTime], or [failed], with
    the error text, no images and no elapsed time; it is [failed] exactly
    when no code resolved. *)
Theorem returned_result_fields (env : ImageProcessor.Env)
    (database : PaintDatabase.t) (originalImage0 : string)
    (codes : list string) (opts : option ImageProcessOptions)
    (w : ImageProcessor.World) :
  let call :=
    ImageProcessor.processImage env database originalImage0 codes opts in
  exists result res,
    fst (call w) = Ok result /\
    returned call w = Some res /\
    requestId res = ImageProcessor.generateRequestId env /\
    fst (ImageProcessor.getResult (requestId res) (snd (call w)))
      = Ok (Some result) /\
    fst (ImageProcessor.getStatus (requestId res) (snd (call w)))
      = Ok (ImageProcessor.Found (status res)) /\
    (status res = Completed /\ error res = None /\
     processingTimeMs res =
       Some (ImageProcessor.endTime env - ImageProcessor.startTime env)%Z /\
     PaintDatabase.getPaintsByProductCodes database codes <> [] \/
     status res = Failed /\ error res = Some ImageProcessor.noPaintFound /\
     processingTimeMs res = None /\ generatedImages res = [] /\
     PaintDatabase.getPaintsByProductCodes database codes = []).
Proof.
  cbv zeta. unfold returned.
  rewrite (processImage_object env database originalImage0 codes opts w).
  unfold ImageProcessor.deref, ImageProcessor.getResult,
    ImageProcessor.getStatus, ImageProcessor.read.
  cbn [fst snd ImageProcessor.this ImageProcessor.heap].
  eexists _, _. split; [reflexivity|].
  split; [now apply list_lookup_middle|].
  assert (ImageProcessor.results
            (ImageProcessor.this
               (snd (ImageProcessor.register env originalImage0 codes opts w)))
          !! ImageProcessor.generateRequestId env
          = Some (length (ImageProcessor.heap w))) as Hstored
    by (simpl; apply lookup_insert_eq).
  destruct (PaintDatabase.getPaintsByProductCodes database codes) as [|p ps];
    cbn [requestId status error processingTimeMs generatedImages];
    rewrite Hstored, list_lookup_middle by reflexivity;
    (split; [reflexivity|]); (split; [reflexivity|]);
    (split; [reflexivity|]).
  - right. repeat split.
  - left. repeat split. discriminate.
Qed.

(** X13. Of the options only [maxPatterns] matters: two calls that differ
    in [quality], [maxWidth] and [maxHeight] alone return equal
    results. *)
Theorem options_only_maxPatterns (env : ImageProcessor.Env)
    (database : PaintDatabase.t) (originalImage0 : string)
    (codes : list string) (o1 o2 : option ImageProcessOptions)
    (w : ImageProcessor.World) :
  requestedPatterns o1 = requestedPatterns o2 ->
  returned (ImageProcessor.processImage env database originalImage0 codes o1) w
  = returned (ImageProcessor.processImage env database originalImage0 codes o2) w.
Proof.
  intros Hmp. unfold returned. rewrite !processImage_object.
  unfold ImageProcessor.deref. cbn [ImageProcessor.heap].
  rewrite !list_lookup_middle by reflexivity.
  assert (selected database o1 codes = selected database o2 codes) as Hsel.
  { unfold selected. fold (requestedPatterns o1). fold (requestedPatterns o2).
    now rewrite Hmp. }
  assert (produced env database originalImage0 codes o1 w =
          produced env database originalImage0 codes o2 w) as ->; [|reflexivity].
  unfold produced. rewrite Hsel.
  now rewrite (generateEach_same env originalImage0 o1 o2
                 (selected database o2 codes) 0 [] w w eq_refl).
Qed.

Lemma options_only_maxPatterns_witness :
  returned (ImageProcessor.processImage sampleEnv PaintDatabase.create
              "http://x/house.jpg" ["ND-050"; "KP-200"] sizeOnly)
           ImageProcessor.create =
  returned (ImageProcessor.processImage sampleEnv PaintDatabase.create
              "http://x/house.jpg" ["ND-050"; "KP-200"] None)
           ImageProcessor.create.
Proof.
  apply (options_only_maxPatterns sampleEnv PaintDatabase.create
           "http://x/house.jpg" ["ND-050"; "KP-200"] sizeOnly None
           ImageProcessor.create).
  reflexivity.
Defined.

(** X14. A call touches nothing but its own entry: the AI config stays,
    every result object that existed reads as before, one object is added,
    and the store and the queue read as before under every other request
    id.  The request stays in [processingQueue] after the call has
    finished. *)
Theorem processImage_frame (env : ImageProcessor.Env)
    (database : PaintDatabase.t) (originalImage0 : string)
    (codes : list string) (opts : option ImageProcessOptions)
    (w : ImageProcessor.World) :
  let w' :=
    snd (ImageProcessor.processImage env database originalImage0 codes opts w) in
  ImageProcessor.aiConfig (ImageProcessor.this w') =
    ImageProcessor.aiConfig (ImageProcessor.this w) /\
  length (ImageProcessor.heap w') = S (length (ImageProcessor.heap w)) /\
  (forall l res,
     ImageProcessor.heap w !! l = Some res ->
     ImageProcessor.heap w' !! l = Some res) /\
  (forall id,
     id <> ImageProcessor.generateRequestId env ->
     ImageProcessor.results (ImageProcessor.this w') !! id =
       ImageProcessor.results (ImageProcessor.this w) !! id /\
     ImageProcessor.processingQueue (ImageProcessor.this w') !! id =
       ImageProcessor.processingQueue (ImageProcessor.this w) !! id) /\
  ImageProcessor.processingQueue (ImageProcessor.this w')
    !! ImageProcessor.generateRequestId env =
  Some {| request_id := ImageProcessor.generateRequestId env;
          originalImage := originalImage0;
          paintProductCodes := codes;
          options := opts;
          timestamp := ImageProcessor.submitted env |}.
Proof.
  cbv zeta. rewrite processImage_object.
  cbn [snd ImageProcessor.this ImageProcessor.heap]. simpl.
  split; [reflexivity|]. split; [rewrite length_app; simpl; lia|].
  split; [intros l res H; now apply lookup_app_l_Some|].
  split; [|apply lookup_insert_eq].
  intros id Hne. split; apply lookup_insert_ne; congruence.
Qed.

Lemma processImage_frame_witness :
  ImageProcessor.results
    (ImageProcessor.this
       (snd (ImageProcessor.processImage laterEnv PaintDatabase.create
               "http://x/house.jpg" ["NOPE"] None
               (snd (ImageProcessor.processImage sampleEnv PaintDatabase.create
                       "http://x/house.jpg" ["ND-050"] None
                       ImageProcessor.create)))))
    !! sampleId =
  ImageProcessor.results
    (ImageProcessor.this
       (snd (ImageProcessor.processImage sampleEnv PaintDatabase.create
               "http://x/house.jpg" ["ND-050"] None ImageProcessor.create)))
    !! sampleId.
Proof.
  apply (processImage_frame laterEnv PaintDatabase.create "http://x/house.jpg"
           ["NOPE"] None
           (snd (ImageProcessor.processImage sampleEnv PaintDatabase.create
                   "http://x/house.jpg" ["ND-050"] None
                   ImageProcessor.create))).
  vm_compute. discriminate.
Defined.

(** * Further properties of sessions *)

Lemma perform_detail (a : Session.Action) (s s' : Session.System) :
  Session.perform a s = Some s' -> detail s s' a.
Proof.
  destruct a as [env database image0 codes opts|i|i|config| |id|id| ];
    intros H; cbv beta iota delta [Session.perform] in H.
  - destruct (register_run env image0 codes opts (Session.world s))
      as [request [Hreg _]].
    rewrite Hreg in H. injection H as <-.
    apply detail_register with (request := request); [|reflexivity].
    cbn [Session.world]. now rewrite Hreg.
  - destruct (Session.inflight s !! i) as [task|] eqn:Hi; [|discriminate].
    destruct (Session.task_phase task) eqn:Hp; try discriminate.
    destruct (PaintDatabase.getPaintsByProductCodes
                (Session.task_database task)
                (paintProductCodes (Session.task_request task)))
      as [|p ps] eqn:E.
    + rewrite executeImageProcessing_throws in H by exact E.
      injection H as <-. now apply (detail_throw _ _ i task).
    + destruct (executeImageProcessing_returns (Session.task_env task)
                  (Session.task_database task)
                  (originalImage (Session.task_request task))
                  (options (Session.task_request task))
                  (Session.task_request task) (Session.task_result task)
                  (Session.world s) eq_refl eq_refl)
        as [imgs [Hrun _]]; [now rewrite E|].
      rewrite Hrun in H. injection H as <-.
      now eapply (detail_return _ _ i task imgs).
  - destruct (Session.inflight s !! i) as [task|] eqn:Hi; [|discriminate].
    destruct (Session.task_phase task) eqn:Hp; try discriminate;
      injection H as <-.
    + now apply (detail_complete _ _ i task).
    + now apply (detail_fail _ _ i task e).
  - injection H as <-. now apply detail_quiet.
  - injection H as <-. now apply detail_clear.
  - injection H as <-. now apply detail_quiet.
  - injection H as <-. now apply detail_quiet.
  - injection H as <-. now apply detail_quiet.
Qed.

Lemma register_world (env : ImageProcessor.Env) (image0 : string)
    (codes : list string) (opts : option ImageProcessOptions)
    (w : ImageProcessor.World) :
  exists request,
    request_id request = ImageProcessor.generateRequestId env /\
    snd (ImageProcessor.register env image0 codes opts w) =
    {| ImageProcessor.this :=
         {| ImageProcessor.processingQueue :=
              <[ImageProcessor.generateRequestId env := request]>
                (ImageProcessor.processingQueue (ImageProcessor.this w));
            ImageProcessor.results :=
              <[ImageProcessor.generateRequestId env :=
                  length (ImageProcessor.heap w)]>
                (ImageProcessor.results (ImageProcessor.this w));
            ImageProcessor.aiConfig :=
              ImageProcessor.aiConfig (ImageProcessor.this w) |};
       ImageProcessor.heap :=
         ImageProcessor.heap w ++
           [ {| requestId := ImageProcessor.generateRequestId env;
                status := Processing;
                generatedImages := [];
                error := None;
                processingTimeMs := None |} ] |}.
Proof.
  exists {| request_id := ImageProcessor.generateRequestId env;
            originalImage := image0; paintProductCodes := codes;
            options := opts; timestamp := ImageProcessor.submitted env |}.
  split; reflexivity.
Qed.

Lemma alter_keeps {B : Type} (proj : ImageProcessResult -> B)
    (f : ImageProcessResult -> ImageProcessResult) (l j : nat)
    (objs : list ImageProcessResult) :
  (forall r, proj (f r) = proj r) ->
  proj <$> alter f l objs !! j = proj <$> objs !! j.
Proof.
  intros Hf. destruct (decide (l = j)) as [->|Hne].
  - rewrite list_lookup_alter_eq. destruct (objs !! j); simpl; [|reflexivity].
    now rewrite Hf.
  - now rewrite list_lookup_alter_ne.
Qed.

Lemma distinct_results (s : Session.System) (i j : nat)
    (ti tj : Session.Task) :
  invariant s ->
  Session.inflight s !! i = Some ti -> Session.inflight s !! j = Some tj ->
  i <> j -> Session.task_result tj <> Session.task_result ti.
Proof.
  intros Hinv Hi Hj Hne E. apply Hne.
  apply (NoDup_lookup _ i j (Session.task_result ti) (inv_distinct s Hinv)).
  - now rewrite list_lookup_fmap, Hi.
  - rewrite list_lookup_fmap, Hj. simpl. now rewrite E.
Qed.

Lemma owned_shape_alter_ne (f : ImageProcessResult -> ImageProcessResult)
    (l : nat) (objs : list ImageProcessResult) (task : Session.Task) :
  Session.task_result task <> l ->
  owned_shape objs task -> owned_shape (alter f l objs) task.
Proof.
  intros Hne [res [Hres H]]. exists res. split; [|exact H].
  now rewrite list_lookup_alter_ne.
Qed.

Lemma owned_shape_phase (objs : list ImageProcessResult)
    (task : Session.Task) (p : Session.Phase) (res : ImageProcessResult) :
  objs !! Session.task_result task = Some res ->
  status res = Processing -> error res = None ->
  match p with
  | Session.Running =>
    generatedImages res = [] /\ processingTimeMs res = None
  | Session.Returned => is_Some (processingTimeMs res)
  | Session.Threw e =>
    e = ErrorObj ImageProcessor.noPaintFound /\
    generatedImages res = [] /\ processingTimeMs res = None
  end ->
  owned_shape objs (Session.with_phase p task).
Proof. intros H1 H2 H3 H4. exists res. now repeat split. Qed.

Lemma lookup_alter_cases (f : ImageProcessResult -> ImageProcessResult)
    (l j : nat) (objs : list ImageProcessResult) (res' : ImageProcessResult) :
  alter f l objs !! j = Some res' ->
  (j <> l /\ objs !! j = Some res') \/
  (j = l /\ exists res, objs !! l = Some res /\ res' = f res).
Proof.
  intros H. destruct (decide (l = j)) as [->|Hne].
  - right. split; [reflexivity|]. rewrite list_lookup_alter_eq in H.
    destruct (objs !! j) as [res|]; [|discriminate].
    exists res. split; [reflexivity|]. simpl in H. congruence.
  - left. rewrite list_lookup_alter_ne in H by exact Hne. split; congruence.
Qed.

Lemma lookup_delete_task (i j : nat) (tasks : list Session.Task)
    (task : Session.Task) :
  delete i tasks !! j = Some task ->
  exists k, k <> i /\ tasks !! k = Some task.
Proof.
  intros H. destruct (decide (j < i)) as [Hlt|Hge].
  - rewrite list_lookup_delete_lt in H by exact Hlt. exists j. split; [lia|exact H].
  - rewrite list_lookup_delete_ge in H by lia. exists (S j). split; [lia|exact H].
Qed.

Lemma consistent_initial : consistent Session.initial.
Proof.
  split.
  - intros id l H. unfold store in H. simpl in H.
    now rewrite lookup_empty in H.
  - intros id. unfold queue, store. simpl. now rewrite !lookup_empty.
  - intros id req H. unfold queue in H. simpl in H.
    now rewrite lookup_empty in H.
  - intros l res H. discriminate.
  - intros i task H. discriminate.
Qed.

Lemma consistent_register (s s' : Session.System) (env : ImageProcessor.Env)
    (database : PaintDatabase.t) (image0 : string) (codes : list string)
    (opts : option ImageProcessOptions) (request : ImageProcessRequest) :
  invariant s -> consistent s ->
  Session.world s' =
    snd (ImageProcessor.register env image0 codes opts (Session.world s)) ->
  Session.inflight s' =
    Session.inflight s ++
      [ {| Session.task_env := env; Session.task_database := database;
           Session.task_request := request;
           Session.task_result := length (objects s);
           Session.task_phase := Session.Running |} ] ->
  consistent s'.
Proof.
  intros Hinv Hcon Hworld Hinflight.
  destruct (register_world env image0 codes opts (Session.world s))
    as [req [Hid Hw]].
  rewrite Hw in Hworld. clear Hw.
  set (id0 := ImageProcessor.generateRequestId env) in *.
  set (r0 := {| requestId := id0; status := Processing;
                generatedImages := []; error := None;
                processingTimeMs := None |}) in *.
  assert (Hobj : objects s' = objects s ++ [r0])
    by (unfold objects; now rewrite Hworld).
  assert (Hstore : store s' = <[id0 := length (objects s)]> (store s))
    by (unfold store; now rewrite Hworld).
  assert (Hqueue : queue s' = <[id0 := req]> (queue s))
    by (unfold queue; now rewrite Hworld).
  split.
  - intros id l H. rewrite Hstore in H. rewrite Hobj.
    apply lookup_insert_Some in H as [[<- <-]|[Hne H]].
    + now rewrite list_lookup_middle.
    + rewrite lookup_app_l by exact (inv_stored s Hinv id l H).
      exact (con_key s Hcon id l H).
  - intros id. rewrite Hstore, Hqueue, !lookup_insert_None.
    now rewrite (con_queue s Hcon id).
  - intros id r H. rewrite Hqueue in H.
    apply lookup_insert_Some in H as [[<- <-]|[Hne H]]; [exact Hid|].
    exact (con_request s Hcon id r H).
  - intros l res H. rewrite Hobj in H.
    apply lookup_app_Some in H as [H|[_ H]].
    + exact (con_shape s Hcon l res H).
    + destruct (l - length (objects s)) as [|k]; [|discriminate].
      injection H as <-. reflexivity.
  - intros i task H. rewrite Hinflight in H. rewrite Hobj.
    apply lookup_app_Some in H as [H|[_ H]].
    + destruct (con_task s Hcon i task H) as [res [Hres Hshape]].
      exists res. split; [|exact Hshape].
      now apply lookup_app_l_Some.
    + destruct (i - length (Session.inflight s)) as [|k]; [|discriminate].
      injection H as <-. exists r0. simpl.
      split; [now rewrite list_lookup_middle|]. now repeat split.
Qed.

Lemma consistent_alter (s s' : Session.System)
    (f : ImageProcessResult -> ImageProcessResult) (l : nat) :
  consistent s ->
  (forall r, requestId (f r) = requestId r) ->
  (forall res, objects s !! l = Some res -> shaped (f res)) ->
  (forall i task,
     Session.inflight s' !! i = Some task ->
     owned_shape (alter f l (objects s)) task) ->
  ImageProcessor.this (Session.world s') =
    ImageProcessor.this (Session.world s) ->
  objects s' = alter f l (objects s) ->
  consistent s'.
Proof.
  intros Hcon Hf Hl Htasks Hthis Hobj.
  assert (Hstore : store s' = store s) by (unfold store; now rewrite Hthis).
  assert (Hqueue : queue s' = queue s) by (unfold queue; now rewrite Hthis).
  split.
  - intros id l' H. rewrite Hstore in H. rewrite Hobj.
    rewrite (alter_keeps requestId f l l' (objects s) Hf).
    exact (con_key s Hcon id l' H).
  - intros id. rewrite Hstore, Hqueue. exact (con_queue s Hcon id).
  - intros id r H. rewrite Hqueue in H. exact (con_request s Hcon id r H).
  - intros l' res' H. rewrite Hobj in H.
    apply lookup_alter_cases in H as [[_ H]|[-> [res [Hres ->]]]].
    + exact (con_shape s Hcon l' res' H).
    + exact (Hl res Hres).
  - intros i task H. rewrite Hobj. exact (Htasks i task H).
Qed.

Lemma alter_twice (g h : ImageProcessResult -> ImageProcessResult)
    (objs : list ImageProcessResult) :
  forall l, alter g l (alter h l objs) = alter (fun r => g (h r)) l objs.
Proof.
  induction objs as [|r objs IH]; intros [|l]; try reflexivity.
  change (r :: alter g l (alter h l objs) =
          r :: alter (fun r => g (h r)) l objs).
  now rewrite IH.
Qed.

Lemma consistent_detail (s s' : Session.System) (a : Session.Action) :
  invariant s -> consistent s -> detail s s' a -> consistent s'.
Proof.
  intros Hinv Hcon Hstep.
  destruct Hstep
    as [env database image0 codes opts request Hworld Hinflight
       |i task Hi Hp Hworld Hinflight
       |i task images elapsed Hi Hp Hthis Hobj Hinflight
       |i task Hi Hp Hthis Hobj Hinflight
       |i task e Hi Hp Hthis Hobj Hinflight
       |Hobj Hstore Hqueue Hinflight
       |a Hq Hobj Hstore Hqueue Hinflight].
  - exact (consistent_register s s' env database image0 codes opts request
             Hinv Hcon Hworld Hinflight).
  - destruct (con_task s Hcon i task Hi) as [res [Hres [Hst [Herr Hshape]]]].
    rewrite Hp in Hshape. destruct Hshape as [Himg Hms].
    assert (Hobj : objects s' = objects s) by (unfold objects; now rewrite Hworld).
    assert (Hstore : store s' = store s) by (unfold store; now rewrite Hworld).
    assert (Hqueue : queue s' = queue s) by (unfold queue; now rewrite Hworld).
    split.
    + intros id l. rewrite Hstore, Hobj. exact (con_key s Hcon id l).
    + intros id. rewrite Hstore, Hqueue. exact (con_queue s Hcon id).
    + intros id r. rewrite Hqueue. exact (con_request s Hcon id r).
    + intros l r. rewrite Hobj. exact (con_shape s Hcon l r).
    + intros j t H. rewrite Hobj. rewrite Hinflight in H.
      apply list_lookup_insert_Some in H as [[<- [<- _]]|[_ H]].
      * now apply (owned_shape_phase _ _ _ res).
      * exact (con_task s Hcon j t H).
  - destruct (con_task s Hcon i task Hi) as [res [Hres [Hst [Herr Hshape]]]].
    rewrite alter_twice in Hobj.
    refine (consistent_alter s s' _ _ Hcon _ _ _ Hthis Hobj); [reflexivity| |].
    + intros r Hr. rewrite Hres in Hr. injection Hr as <-.
      unfold shaped. simpl. rewrite Hst. exact Herr.
    + intros j t H. rewrite Hinflight in H.
      apply list_lookup_insert_Some in H as [[<- [<- _]]|[Hne H]].
      * eapply owned_shape_phase.
        -- rewrite list_lookup_alter_eq, Hres. reflexivity.
        -- exact Hst.
        -- exact Herr.
        -- simpl. eauto.
      * apply owned_shape_alter_ne; [|exact (con_task s Hcon j t H)].
        exact (distinct_results s i j task t Hinv Hi H Hne).
  - destruct (con_task s Hcon i task Hi) as [res [Hres [Hst [Herr Hshape]]]].
    rewrite Hp in Hshape.
    refine (consistent_alter s s' _ _ Hcon _ _ _ Hthis Hobj); [reflexivity| |].
    + intros r Hr. rewrite Hres in Hr. injection Hr as <-.
      unfold shaped. simpl. now split.
    + intros j t H. rewrite Hinflight in H.
      apply lookup_delete_task in H as [k [Hne H]].
      apply owned_shape_alter_ne; [|exact (con_task s Hcon k t H)].
      apply (distinct_results s i k task t Hinv Hi H). congruence.
  - destruct (con_task s Hcon i task Hi) as [res [Hres [Hst [Herr Hshape]]]].
    rewrite Hp in Hshape. destruct Hshape as [-> [Himg Hms]].
    rewrite alter_twice in Hobj.
    refine (consistent_alter s s' _ _ Hcon _ _ _ Hthis Hobj); [reflexivity| |].
    + intros r Hr. rewrite Hres in Hr. injection Hr as <-.
      unfold shaped. simpl. now repeat split.
    + intros j t H. rewrite Hinflight in H.
      apply lookup_delete_task in H as [k [Hne H]].
      apply owned_shape_alter_ne; [|exact (con_task s Hcon k t H)].
      apply (distinct_results s i k task t Hinv Hi H). congruence.
  - split.
    + intros id l. rewrite Hstore, lookup_empty. discriminate.
    + intros id. now rewrite Hstore, Hqueue, !lookup_empty.
    + intros id r. rewrite Hqueue, lookup_empty. discriminate.
    + intros l r. rewrite Hobj. exact (con_shape s Hcon l r).
    + intros j t. rewrite Hobj, Hinflight. exact (con_task s Hcon j t).
  - split.
    + intros id l. rewrite Hstore, Hobj. exact (con_key s Hcon id l).
    + intros id. rewrite Hstore, Hqueue. exact (con_queue s Hcon id).
    + intros id r. rewrite Hqueue. exact (con_request s Hcon id r).
    + intros l r. rewrite Hobj. exact (con_shape s Hcon l r).
    + intros j t. rewrite Hobj, Hinflight. exact (con_task s Hcon j t).
Qed.

Lemma consistent_run (actions : list Session.Action) :
  forall s s',
    invariant s -> consistent s -> Session.run actions s = Some s' ->
    consistent s'.
Proof.
  induction actions as [|a actions IH]; intros s s' Hinv Hcon Hrun;
    simpl in Hrun.
  - now injection Hrun as <-.
  - destruct (Session.perform a s) as [s1|] eqn:Ha; [|discriminate].
    apply (IH s1 s'); [| |exact Hrun].
    + apply (invariant_effect s s1 a Hinv), perform_effect, Ha.
    + apply (consistent_detail s s1 a Hinv Hcon), perform_detail, Ha.
Qed.

Lemma consistent_reachable (s : Session.System) :
  Session.reachable s -> consistent s.
Proof.
  intros [actions Hrun].
  exact (consistent_run actions Session.initial s invariant_initial
           consistent_initial Hrun).
Qed.

(** X15. In every state a session reaches, the queue and the result store
    hold the same request ids, and a stored result is well formed: it
    carries the id it is stored under, its request is queued under that id
    and carries it too, and its fields fit its status: never [pending];
    [processing] with no error; [completed] with no error and a processing
    time; [failed] with the no-paint-found message, no images and no
    processing time.  (Replies of the service have the shape the code casts
    them to, as in [Prediction].) *)
Theorem stored_result_well_formed (s : Session.System) :
  Session.reachable s ->
  (forall id, Session.stored s id = None <-> queue s !! id = None) /\
  (forall id res,
     Session.stored s id = Some res ->
     requestId res = id /\ shaped res /\
     exists request, queue s !! id = Some request /\ request_id request = id).
Proof.
  intros Hreach.
  pose proof (invariant_reachable s Hreach) as Hinv.
  pose proof (consistent_reachable s Hreach) as Hcon.
  split.
  - intros id. rewrite (con_queue s Hcon id), stored_lookup.
    destruct (store s !! id) as [l|] eqn:Hl; simpl; [|tauto].
    destruct (lookup_lt_is_Some_2 (objects s) l (inv_stored s Hinv id l Hl))
      as [res Hres].
    rewrite Hres. split; discriminate.
  - intros id res H. rewrite stored_lookup in H.
    destruct (store s !! id) as [l|] eqn:Hl; [|discriminate]. simpl in H.
    split; [|split].
    + pose proof (con_key s Hcon id l Hl) as Hkey. rewrite H in Hkey.
      now injection Hkey.
    + exact (con_shape s Hcon l res H).
    + destruct (queue s !! id) as [request|] eqn:Hq.
      * exists request. split; [reflexivity|].
        exact (con_request s Hcon id request Hq).
      * apply (con_queue s Hcon id) in Hq. congruence.
Qed.

Lemma stored_result_well_formed_witness :
  exists s,
    Session.run overlappingCalls Session.initial = Some s /\
    (forall id, Session.stored s id = None <-> queue s !! id = None) /\
    (forall id res,
       Session.stored s id = Some res ->
       requestId res = id /\ shaped res /\
       exists request,
         queue s !! id = Some request /\ request_id request = id).
Proof.
  destruct (computed_Some (Session.run overlappingCalls Session.initial))
    as [s E]; [vm_compute; reflexivity|].
  exists s. split; [exact E|].
  exact (stored_result_well_formed s (ex_intro _ overlappingCalls E)).
Defined.

(** X16. In every state a session reaches, [getStatus] answers not-found
    exactly for the ids that are not in the result store, and otherwise
    the status of the stored result, which is never [pending]; it leaves
    the state as it is. *)
Theorem getStatus_agrees (s : Session.System) (id : string) :
  Session.reachable s ->
  snd (ImageProcessor.getStatus id (Session.world s)) = Session.world s /\
  (fst (ImageProcessor.getStatus id (Session.world s)) =
     Ok ImageProcessor.not_found <-> store s !! id = None) /\
  (forall st,
     fst (ImageProcessor.getStatus id (Session.world s)) =
       Ok (ImageProcessor.Found st) <->
     status <$> Session.stored s id = Some st) /\
  fst (ImageProcessor.getStatus id (Session.world s)) <>
    Ok (ImageProcessor.Found Pending).
Proof.
  intros Hinv%invariant_reachable.
  assert (Hget : fst (ImageProcessor.getStatus id (Session.world s)) =
                 Ok (match Session.stored s id with
                     | Some res => ImageProcessor.Found (status res)
                     | None => ImageProcessor.not_found
                     end)).
  { rewrite stored_lookup. unfold ImageProcessor.getStatus, ImageProcessor.read,
      store, objects. simpl.
    destruct (ImageProcessor.results _ !! id) as [l|]; [|reflexivity].
    simpl. now destruct (_ !! l). }
  split; [reflexivity|]. rewrite Hget. clear Hget.
  destruct (store s !! id) as [l|] eqn:Hl.
  - destruct (stored_defined s id Hinv (ex_intro _ l Hl)) as [res [-> Hst]].
    simpl. split; [split; discriminate|]. split.
    + intros st. split; intros H; injection H as <-; reflexivity.
    + intros H. injection H as H. contradiction.
  - rewrite stored_lookup, Hl. simpl. split; [tauto|]. split.
    + intros st. split; discriminate.
    + discriminate.
Qed.

Lemma getStatus_agrees_witness :
  exists s,
    Session.run overlappingCalls Session.initial = Some s /\
    fst (ImageProcessor.getStatus sampleId (Session.world s)) <>
      Ok (ImageProcessor.Found Pending).
Proof.
  destruct (computed_Some (Session.run overlappingCalls Session.initial))
    as [s E]; [vm_compute; reflexivity|].
  exists s. split; [exact E|].
  exact (proj2 (proj2 (proj2
           (getStatus_agrees s sampleId (ex_intro _ overlappingCalls E))))).
Defined.

Lemma store_detail (s s' : Session.System) (a : Session.Action) :
  detail s s' a -> ~ submits a ->
  (store s' = store s /\ queue s' = queue s) \/ (store s' = ∅ /\ queue s' = ∅).
Proof.
  intros Hstep Hno.
  destruct Hstep
    as [env database image0 codes opts request Hworld Hinflight
       |i task Hi Hp Hworld Hinflight
       |i task images elapsed Hi Hp Hthis Hobj Hinflight
       |i task Hi Hp Hthis Hobj Hinflight
       |i task e Hi Hp Hthis Hobj Hinflight
       |Hobj Hstore Hqueue Hinflight
       |a Hq Hobj Hstore Hqueue Hinflight].
  - now destruct Hno.
  - left. unfold store, queue. now rewrite Hworld.
  - left. unfold store, queue. now rewrite Hthis.
  - left. unfold store, queue. now rewrite Hthis.
  - left. unfold store, queue. now rewrite Hthis.
  - now right.
  - now left.
Qed.

Lemma empty_run (actions : list Session.Action) :
  forall s s',
    store s = ∅ -> queue s = ∅ -> Forall (fun a => ~ submits a) actions ->
    Session.run actions s = Some s' -> store s' = ∅ /\ queue s' = ∅.
Proof.
  induction actions as [|a actions IH]; intros s s' Hs Hq Hall Hrun;
    simpl in Hrun.
  - injection Hrun as <-. now split.
  - destruct (Session.perform a s) as [s1|] eqn:Ha; [|discriminate].
    apply List.Forall_cons_iff in Hall as [Hno Hall].
    destruct (store_detail s s1 a (perform_detail a s s1 Ha) Hno)
      as [[H1 H2]|[H1 H2]];
      apply (IH s1 s'); try assumption; congruence.
Qed.

(** X17. [clearCache] forgets the calls that are suspended: from a state
    in which [clearCache] has just run, as long as no further call of
    [processImage] starts, the result store and the queue stay empty
    whatever the calls in flight do when they are resumed, so that
    [getResult] and [getStatus] find no request and [getStatistics] counts
    none. *)
Theorem clearCache_forgets_inflight (s s1 s' : Session.System)
    (actions : list Session.Action) :
  Session.perform Session.CallClearCache s = Some s1 ->
  Forall (fun a => ~ submits a) actions ->
  Session.run actions s1 = Some s' ->
  store s' = ∅ /\ queue s' = ∅ /\
  Session.statistics s' = Some noRequests /\
  forall id,
    Session.stored s' id = None /\
    fst (ImageProcessor.getStatus id (Session.world s')) =
      Ok ImageProcessor.not_found.
Proof.
  intros Hclear Hall Hrun.
  assert (H1 : store s1 = ∅ /\ queue s1 = ∅)
    by (injection Hclear as <-; now split).
  destruct H1 as [H1 H2].
  destruct (empty_run actions s1 s' H1 H2 Hall Hrun) as [Hs Hq].
  split; [exact Hs|]. split; [exact Hq|]. unfold store in Hs. split.
  - unfold Session.statistics, ImageProcessor.getStatistics,
      ImageProcessor.read. simpl. rewrite Hs. reflexivity.
  - intros id. split.
    + rewrite stored_lookup. unfold store. now rewrite Hs, lookup_empty.
    + unfold ImageProcessor.getStatus, ImageProcessor.read. simpl.
      now rewrite Hs, lookup_empty.
Qed.

Lemma clearCache_forgets_inflight_witness :
  exists s',
    Session.run (callBeforeClear ++ Session.CallClearCache :: resumedAfterClear)
      Session.initial = Some s' /\
    Session.stored s' sampleId = None /\
    Session.statistics s' = Some noRequests.
Proof.
  destruct (computed_Some
              (Session.run
                 (callBeforeClear ++ Session.CallClearCache :: resumedAfterClear)
                 Session.initial))
    as [s' E']; [vm_compute; reflexivity|].
  exists s'. split; [exact E'|].
  rewrite run_app in E'.
  destruct (Session.run callBeforeClear Session.initial) as [s|];
    [|discriminate E'].
  change (Session.run resumedAfterClear
            {| Session.world :=
                 snd (ImageProcessor.clearCache (Session.world s));
               Session.inflight := Session.inflight s |} = Some s') in E'.
  assert (Hall : Forall (fun a => ~ submits a) resumedAfterClear)
    by (repeat apply List.Forall_cons; try apply List.Forall_nil;
        intros []).
  destruct (clearCache_forgets_inflight s _ s' resumedAfterClear eq_refl
              Hall E')
    as [_ [_ [Hst Hid]]].
  split; [exact (proj1 (Hid sampleId))|exact Hst].
Defined.

(** * Further properties of the prompt generator *)

(** X18. A generator built by the constructor always opens the prompt with
    a base prompt that is not empty (the given one, or [a house exterior]
    when none or the empty text is given) and closes it with the quality
    description; the colour and the paint-type descriptions stand between
    them unless their flag was given as [false]. *)
Theorem generatePrompt_parts (rt : Runtime)
    (c : PromptGenerator.PromptGenerationConfig) (p : Paint) :
  PromptGenerator.generatePrompt rt (PromptGenerator.new c) p =
    join ", "
      (or_string (PromptGenerator.basePrompt c) "a house exterior"
       :: (if PromptGenerator.notFalse (PromptGenerator.includeColorDescription c)
           then [PromptGenerator.generateColorDescription rt p] else [])
       ++ (if PromptGenerator.notFalse
                (PromptGenerator.includePaintTypeDescription c)
           then [PromptGenerator.generatePaintTypeDescription p] else [])
       ++ [PromptGenerator.generateQualityDescription p]) /\
  or_string (PromptGenerator.basePrompt c) "a house exterior" <> "" /\
  PromptGenerator.getNegativePrompt (PromptGenerator.new c) =
    or_string (PromptGenerator.negativePrompt c)
      PromptGenerator.defaultNegativePrompt /\
  PromptGenerator.getNegativePrompt (PromptGenerator.new c) <> "".
Proof.
  destruct c as [[[|a base]|] [[|b neg]|] [[|]|] [[|]|]];
    (split; [reflexivity|]); (split; [discriminate|]);
    (split; [reflexivity|]); discriminate.
Qed.

(** X19. A config passed to [getPromptGenerator] or to the exported
    [generatePrompt] replaces the generator of the module, whatever it
    was, and stays in force: a call without config hands out the generator
    of the call before it, and creates the default one only when there is
    none yet. *)
Theorem generator_config_sticks (rt : Runtime) (p p' : Paint)
    (c : PromptGenerator.PromptGenerationConfig)
    (c0 : option PromptGenerator.PromptGenerationConfig)
    (d : option PromptGenerator.t) :
  PromptGenerator.getPromptGenerator (Some c) d =
    (PromptGenerator.new c, Some (PromptGenerator.new c)) /\
  PromptGenerator.getPromptGenerator None None =
    (PromptGenerator.new PromptGenerator.noConfig,
     Some (PromptGenerator.new PromptGenerator.noConfig)) /\
  PromptGenerator.getPromptGenerator None
    (snd (PromptGenerator.getPromptGenerator c0 d)) =
    PromptGenerator.getPromptGenerator c0 d /\
  PromptGenerator.generatePromptWith rt p' None
    (snd (PromptGenerator.generatePromptWith rt p (Some c) d)) =
    (PromptGenerator.generatePrompt rt (PromptGenerator.new c) p',
     Some (PromptGenerator.new c)).
Proof.
  split; [now destruct d|]. split; [reflexivity|]. split.
  - now destruct c0, d.
  - now destruct d.
Qed.

Lemma lookup_initializeSampleData (l : list Paint) :
  forall (db : PaintDatabase.t) code p,
    PaintDatabase.paints
      (foldl (fun acc q =>
                {| PaintDatabase.paints :=
                     <[productCode q := q]> (PaintDatabase.paints acc) |})
             db l) !! code = Some p ->
    In p l \/ PaintDatabase.paints db !! code = Some p.
Proof.
  induction l as [|q l IH]; intros db code p H; [now right|].
  simpl in H. apply IH in H as [H|H]; [left; now right|].
  simpl in H. apply lookup_insert_Some in H as [[_ <-]|[_ H]].
  - left. now left.
  - now right.
Qed.

(** X20. The colour of every paint of the built-in catalog has its English
    name in the table of the prompt generator: the prompt for such a paint
    names one of the five English colours and does not depend on
    [toLowerCase] or on anything inherited. *)
Theorem catalog_colours_translated (code : string) (p : Paint) :
  PaintDatabase.getPaintByProductCode PaintDatabase.create code = Some p ->
  (exists english,
     In english ["cream white"; "pure white"; "ivory"; "beige"; "light gray"] /\
     forall rt, PromptGenerator.englishColor rt (color_name (color p)) = english) /\
  forall rt rt' g,
    PromptGenerator.generatePrompt rt g p =
    PromptGenerator.generatePrompt rt' g p.
Proof.
  intros H. unfold PaintDatabase.getPaintByProductCode, PaintDatabase.create,
    PaintDatabase.initializeSampleData in H.
  apply lookup_initializeSampleData in H as [H|H];
    [|simpl in H; now rewrite lookup_empty in H].
  assert (Hname : exists english,
    In english ["cream white"; "pure white"; "ivory"; "beige"; "light gray"] /\
    forall rt, PromptGenerator.englishColor rt (color_name (color p)) = english).
  { unfold PaintDatabase.samplePaints in H.
    repeat (destruct H as [<-|H];
            [eexists; split; [|intros rt; vm_compute; reflexivity]; simpl; auto 10|]).
    destruct H. }
  split; [exact Hname|].
  destruct Hname as [english [_ Heng]].
  intros rt rt' g. unfold PromptGenerator.generatePrompt,
    PromptGenerator.generateColorDescription.
  now rewrite (Heng rt), (Heng rt').
Qed.

Lemma catalog_colours_translated_witness :
  exists english,
    forall rt,
      PromptGenerator.englishColor rt (color_name (color firstSample)) = english.
Proof.
  destruct (catalog_colours_translated (productCode firstSample) firstSample)
    as [[english [_ H]] _]; [vm_compute; reflexivity|].
  exists english. exact H.
Defined.

(** * The program-level entry point *)

(** X21. [processHouseImage] works on the two singletons of the program:
    it creates the processor and the database (the built-in catalog) when
    they do not exist yet and keeps them otherwise, registers the new
    result with the processor under the generated id while keeping the
    processor's AI config, and the result is [completed] when some code
    resolves in that database and [failed] when none does. *)
Theorem processHouseImage_singletons (env : ImageProcessor.Env)
    (image0 : string) (codes : list string)
    (opts : option ImageProcessOptions) (g : ImageProcessor.Program) :
  let database :=
    default PaintDatabase.create (ImageProcessor.databaseInstance g) in
  let processor :=
    default (ImageProcessor.this ImageProcessor.create)
      (ImageProcessor.processorInstance g) in
  exists res p,
    ImageProcessor.processHouseImage env image0 codes opts g =
      (Ok (length (ImageProcessor.allocated g)),
       {| ImageProcessor.processorInstance := Some p;
          ImageProcessor.databaseInstance := Some database;
          ImageProcessor.allocated := ImageProcessor.allocated g ++ [res] |}) /\
    ImageProcessor.results p =
      <[ImageProcessor.generateRequestId env :=
          length (ImageProcessor.allocated g)]>
        (ImageProcessor.results processor) /\
    ImageProcessor.aiConfig p = ImageProcessor.aiConfig processor /\
    requestId res = ImageProcessor.generateRequestId env /\
    status res =
      match PaintDatabase.getPaintsByProductCodes database codes with
      | [] => Failed
      | _ :: _ => Completed
      end.
Proof.
  intros database processor.
  unfold ImageProcessor.processHouseImage.
  assert (Hp : ImageProcessor.getImageProcessor
                 (ImageProcessor.processorInstance g) =
               (processor, Some processor))
    by (unfold processor; now destruct (ImageProcessor.processorInstance g)).
  assert (Hd : PaintDatabase.getPaintDatabase
                 (ImageProcessor.databaseInstance g) =
               (database, Some database))
    by (unfold database; now destruct (ImageProcessor.databaseInstance g)).
  rewrite Hp, Hd, processImage_object.
  eexists. eexists. split; [reflexivity|]. simpl.
  split; [reflexivity|]. split; [reflexivity|].
  now destruct (PaintDatabase.getPaintsByProductCodes database codes).
Qed.
